(** * Resumable re-upload engine: state store, work-item processor,
      partition assigner and scheduler of [scripts/reupload_failed_workitems.py]

    The development embeds the SQLite state tracker as two finite maps keyed
    by the tables' primary keys, the work-item processor and the scheduler
    loop as programs of a small state monad over the store, the wall clock
    and the shutdown event, and states the properties of the specification
    over these definitions. *)

From Stdlib Require Import ZArith Lia Ascii String.
From stdpp Require Import base option list gmap strings pretty sorting.

Open Scope string_scope.
Open Scope Z_scope.

(** ** Data model *)

(** [datetime.now(timezone.utc).isoformat()]: the text of a clock reading.
    Readings are kept as the tick of the clock they were taken at. *)
Definition Timestamp := nat.

(** The dataclass [FileMetadata]. *)
Record FileMetadata := mkFileMetadata {
  job_id : string;
  workitem_id : string;
  workitem_name : string;
  source_uri : string;
  filename : string
}.

(** A row of table [workitems]; its key (workitem_id, job_id) is the key of
    the map that holds it.  Nullable TEXT columns are options. *)
Record WorkItemRow := mkWorkItemRow {
  wi_workitem_name : string;
  wi_status : string;
  wi_files_total : Z;
  wi_files_processed : Z;
  wi_error_message : option string;
  wi_started_at : option Timestamp;
  wi_completed_at : option Timestamp
}.

(** A row of table [files]; key (workitem_id, job_id, filename). *)
Record FileRow := mkFileRow {
  fr_source_uri : string;
  fr_status : string;
  fr_error_message : option string;
  fr_uploaded_at : option Timestamp
}.

Abbreviation WorkItemKey := (string * string)%type.
Abbreviation FileKey := (string * string * string)%type.

(** The database behind a [StateTracker]. *)
Record DB := mkDB {
  workitems : gmap WorkItemKey WorkItemRow;
  files : gmap FileKey FileRow
}.

Definition empty_db : DB := mkDB ∅ ∅.

Definition with_workitems (d : DB) (m : gmap WorkItemKey WorkItemRow) : DB :=
  mkDB m (files d).
Definition with_files (d : DB) (m : gmap FileKey FileRow) : DB :=
  mkDB (workitems d) m.

(** ** StateTracker

    Every method runs one or two SQL statements under the tracker's lock and
    commits; it is embedded as a function on the database, with the timestamp
    it binds passed in. *)
Module StateTracker.

(** [add_workitem]: INSERT OR IGNORE with status 'pending' and the column
    defaults. *)
Definition add_workitem (wid wname jid : string) (d : DB) : DB :=
  match workitems d !! (wid, jid) with
  | Some _ => d
  | None =>
      with_workitems d
        (<[(wid, jid) := mkWorkItemRow wname "pending" 0 0 None None None]>
           (workitems d))
  end.

(** [UPDATE workitems SET ... WHERE workitem_id = ? AND job_id = ?]: the
    row with that key, when there is one, is rewritten by [set]. *)
Definition update_workitem_row (wid jid : string)
    (set : WorkItemRow -> WorkItemRow) (d : DB) : DB :=
  match workitems d !! (wid, jid) with
  | None => d
  | Some r => with_workitems d (<[(wid, jid) := set r]> (workitems d))
  end.

(** [UPDATE files SET ... WHERE workitem_id = ? AND job_id = ? AND
    filename = ?]. *)
Definition update_file_row (wid jid fname : string)
    (set : FileRow -> FileRow) (d : DB) : DB :=
  match files d !! (wid, jid, fname) with
  | None => d
  | Some r => with_files d (<[(wid, jid, fname) := set r]> (files d))
  end.

(** [update_workitem_status]: the three UPDATE shapes, chosen by the new
    status. *)
Definition update_workitem_status (wid jid status : string)
    (error_message : option string) (ts : Timestamp) : DB -> DB :=
  update_workitem_row wid jid (fun r =>
    if String.eqb status "in_progress" then
      mkWorkItemRow (wi_workitem_name r) status (wi_files_total r)
        (wi_files_processed r) (wi_error_message r) (Some ts)
        (wi_completed_at r)
    else if String.eqb status "completed" || String.eqb status "failed" then
      mkWorkItemRow (wi_workitem_name r) status (wi_files_total r)
        (wi_files_processed r) error_message (wi_started_at r) (Some ts)
    else
      mkWorkItemRow (wi_workitem_name r) status (wi_files_total r)
        (wi_files_processed r) error_message (wi_started_at r)
        (wi_completed_at r)).

(** A Python int is bound to a statement as an SQLite INTEGER, a signed
    64-bit number; for any other int [execute] raises OverflowError and the
    statement does not run. *)
Definition sqlite_integer (n : Z) : Prop := - 2 ^ 63 <= n < 2 ^ 63.

(** The UPDATE of [update_workitem_file_count], which runs for a count that
    is an [sqlite_integer]; [process_workitem] passes the length of a list. *)
Definition update_workitem_file_count (wid jid : string) (n : Z) : DB -> DB :=
  update_workitem_row wid jid (fun r =>
    mkWorkItemRow (wi_workitem_name r) (wi_status r) n (wi_files_processed r)
      (wi_error_message r) (wi_started_at r) (wi_completed_at r)).

(** [update_workitem_file_count] called with any int: [None] is the
    OverflowError of a count that is no [sqlite_integer], raised before
    anything is written. *)
Definition update_workitem_file_count_of_int (wid jid : string)
    (files_total : Z) (d : DB) : option DB :=
  if (- 2 ^ 63 <=? files_total) && (files_total <? 2 ^ 63)
  then Some (update_workitem_file_count wid jid files_total d)
  else None.

(** [add_file]: INSERT OR IGNORE with status 'pending'. *)
Definition add_file (wid jid fname uri : string) (d : DB) : DB :=
  match files d !! (wid, jid, fname) with
  | Some _ => d
  | None =>
      with_files d
        (<[(wid, jid, fname) := mkFileRow uri "pending" None None]> (files d))
  end.

(** The second statement of [update_file_status]:
    [SET files_processed = files_processed + 1]. *)
Definition bump_files_processed (wid jid : string) : DB -> DB :=
  update_workitem_row wid jid (fun r =>
    mkWorkItemRow (wi_workitem_name r) (wi_status r) (wi_files_total r)
      (wi_files_processed r + 1) (wi_error_message r) (wi_started_at r)
      (wi_completed_at r)).

(** [update_file_status]: the UPDATE of the file row, then, when the new
    status is 'completed', the increment of the parent's counter. *)
Definition update_file_status (wid jid fname status : string)
    (error_message : option string) (ts : Timestamp) (d : DB) : DB :=
  let d1 :=
    update_file_row wid jid fname (fun r =>
      mkFileRow (fr_source_uri r) status error_message (Some ts)) d in
  if String.eqb status "completed" then bump_files_processed wid jid d1 else d1.

Definition get_workitem_status (wid jid : string) (d : DB) : option string :=
  wi_status <$> workitems d !! (wid, jid).

Definition get_file_status (wid jid fname : string) (d : DB) : option string :=
  fr_status <$> files d !! (wid, jid, fname).

(** [claim_file]: one conditional UPDATE; the result is
    [cursor.rowcount == 1]. *)
Definition claim_file (wid jid fname : string) (ts : Timestamp) (d : DB)
    : bool * DB :=
  match files d !! (wid, jid, fname) with
  | None => (false, d)
  | Some r =>
      if String.eqb (fr_status r) "pending" || String.eqb (fr_status r) "failed"
      then (true,
            with_files d
              (<[(wid, jid, fname) :=
                   mkFileRow (fr_source_uri r) "in_progress" None (Some ts)]>
                 (files d)))
      else (false, d)
  end.

(** [get_pending_workitems]: the keys of the rows whose status is 'pending',
    'failed' or 'in_progress', ordered by workitem_id. *)
Definition is_pending_status (status : string) : bool :=
  String.eqb status "pending" || String.eqb status "failed"
  || String.eqb status "in_progress".

Definition get_pending_workitems (d : DB) : list WorkItemKey :=
  merge_sort (fun a b : WorkItemKey => Is_true (String.leb (fst a) (fst b)))
    (map fst
       (filter (fun kr : WorkItemKey * WorkItemRow =>
                  Is_true (is_pending_status (wi_status (snd kr))))
          (map_to_list (workitems d)))).

End StateTracker.

(** ** Effects of the processor and the scheduler

    A run threads the database, the wall clock and the shutdown event.
    [polls] counts the [is_set] calls made so far; the collaborators and the
    delivery of SIGINT are the environment. *)
Record World := mkWorld {
  db : DB;
  clock : nat;
  shutdown_event : bool;
  polls : nat
}.

Record Env := mkEnv {
  (** [KustoQueryHelper.query_files_for_workitem]: the rows, or the text of
      the exception it raised. *)
  query_files_for_workitem : string -> string -> string + list FileMetadata;
  (** [FileReuploader.reupload_file]: (success, error_message). *)
  reupload_file : FileMetadata -> bool * option string;
  (** The order in which the inner pool's futures complete. *)
  as_completed : list FileMetadata -> list FileMetadata;
  (** The order in which the outer pool's futures complete. *)
  workitems_as_completed : list WorkItemKey -> list WorkItemKey;
  (** Whether the first SIGINT has been delivered by the n-th poll of the
      event; the handler then sets the event. *)
  sigint : nat -> bool
}.

Definition M (A : Type) : Type := World -> A * World.

Definition ret {A} (a : A) : M A := fun w => (a, w).
Definition bind {A B} (m : M A) (k : A -> M B) : M B :=
  fun w => let (a, w') := m w in k a w'.

Notation "'let*' x := m 'in' k" := (bind m (fun x => k))
  (at level 10, x name, m at level 100, k at level 200).
Notation "m >> k" := (bind m (fun _ => k))
  (at level 100, k at level 200, right associativity).

Definition with_db (w : World) (d : DB) : World :=
  mkWorld d (clock w) (shutdown_event w) (polls w).

(** A tracker method that only reads. *)
Definition read {A} (f : DB -> A) : M A := fun w => (f (db w), w).
(** A tracker method that writes without a timestamp. *)
Definition write (f : DB -> DB) : M unit := fun w => (tt, with_db w (f (db w))).
(** A tracker method that reads the clock and writes. *)
Definition write_at (f : Timestamp -> DB -> DB) : M unit :=
  fun w => (tt, mkWorld (f (clock w) (db w)) (S (clock w)) (shutdown_event w)
                  (polls w)).

(** [shutdown_event.is_set()]: the event stays set once the signal came. *)
Definition is_set (E : Env) : M bool :=
  fun w =>
    let b := shutdown_event w || sigint E (polls w) in
    (b, mkWorld (db w) (clock w) b (S (polls w))).

Definition claim_file (wid jid fname : string) : M bool :=
  fun w =>
    let (b, d) := StateTracker.claim_file wid jid fname (clock w) (db w) in
    (b, mkWorld d (S (clock w)) (shutdown_event w) (polls w)).

(** ** process_workitem *)

(** [os.path.basename] (POSIX): the text after the last slash. *)
Fixpoint has_slash (p : string) : bool :=
  match p with
  | EmptyString => false
  | String c rest => Ascii.eqb c "/" || has_slash rest
  end.

Fixpoint basename (p : string) : string :=
  match p with
  | EmptyString => EmptyString
  | String c rest =>
      if has_slash rest then basename rest
      else if Ascii.eqb c "/" then rest else p
  end.

(** The destination of a file, as [reupload_file] builds it:
    [f"{workitem_name}-{basename(filename)}"] (the name it uses unless this
    is longer than 1024 characters). *)
Definition blob_name (f : FileMetadata) : string :=
  workitem_name f ++ "-" ++ basename (filename f).

(** [blob_key in unique_files] on the insertion-ordered dict. *)
Definition key_in (k : string) (unique_files : list (string * FileMetadata)) : bool :=
  existsb (fun kv => String.eqb (fst kv) k) unique_files.

(** The de-duplication loop (lines 609-619). *)
Fixpoint dedupe_loop (fs : list FileMetadata)
    (unique_files : list (string * FileMetadata)) (duplicate_count : nat)
    : list (string * FileMetadata) * nat :=
  match fs with
  | [] => (unique_files, duplicate_count)
  | file_meta :: rest =>
      let blob_key := basename (filename file_meta) in
      if key_in blob_key unique_files
      then dedupe_loop rest unique_files (S duplicate_count)
      else dedupe_loop rest (unique_files ++ [(blob_key, file_meta)])
             duplicate_count
  end.

(** [files = list(unique_files.values())]. *)
Definition dedupe (fs : list FileMetadata) : list FileMetadata :=
  (dedupe_loop fs [] 0%nat).1.*2.



(** The claim loop (lines 637-649); returns [files_to_process]. *)
Fixpoint claim_loop (wid jid : string) (fs files_to_process : list FileMetadata)
    : M (list FileMetadata) :=
  match fs with
  | [] => ret files_to_process
  | file_meta :: rest =>
      write (StateTracker.add_file wid jid (filename file_meta)
               (source_uri file_meta)) >>
      let* status := read (StateTracker.get_file_status wid jid (filename file_meta)) in
      if bool_decide (status = Some "completed")
      then claim_loop wid jid rest files_to_process
      else
        let* claimed := claim_file wid jid (filename file_meta) in
        if claimed
        then claim_loop wid jid rest (files_to_process ++ [file_meta])
        else claim_loop wid jid rest files_to_process
  end.

(** The loop over the inner pool's completions (lines 674-700).  [None] is
    the early return on shutdown, taken after the revert to 'pending';
    otherwise the result is [failed_files].  [reupload_file] catches every
    exception itself, so [future.result()] always yields its pair. *)
Fixpoint drain (E : Env) (wid jid : string) (done : list FileMetadata)
    (failed_files : list string) : M (option (list string)) :=
  match done with
  | [] => ret (Some failed_files)
  | file_meta :: rest =>
      let* stop := is_set E in
      if stop then
        write_at (StateTracker.update_workitem_status wid jid "pending"
                    (Some "Shutdown requested mid-processing")) >>
        ret None
      else
        let (success, error_msg) := reupload_file E file_meta in
        if success then
          write_at (StateTracker.update_file_status wid jid (filename file_meta)
                      "completed" None) >>
          drain E wid jid rest failed_files
        else
          write_at (StateTracker.update_file_status wid jid (filename file_meta)
                      "failed" error_msg) >>
          drain E wid jid rest (failed_files ++ [filename file_meta])
  end.

(** The message of a failed work item (lines 704-706). *)
Definition failure_message (failed_files : list string) : string :=
  let error_msg :=
    pretty (length failed_files) ++ " files failed: " ++
    String.concat ", " (take 5 failed_files) in
  if (5 <? length failed_files)%nat
  then error_msg ++ " and " ++ pretty (length failed_files - 5)%nat ++ " more"
  else error_msg.

(** The return statements of [process_workitem], in source order. *)
Inductive Exit :=
| SkippedOnShutdown      (* line 583, return False *)
| AlreadyCompleted       (* line 590, return True *)
| QueryFailed            (* line 601, return False *)
| NoFiles                (* line 606, return True *)
| AbortedBeforeUploads   (* line 631, return False *)
| NothingClaimed         (* line 662, return True *)
| CancelledMidProcessing (* line 681, return False *)
| FilesFailed            (* line 708, return False *)
| Processed.             (* line 712, return True *)

Definition exit_value (e : Exit) : bool :=
  match e with
  | AlreadyCompleted | NoFiles | NothingClaimed | Processed => true
  | _ => false
  end.

(** Lines 664-712: dispatch the claimed files, drain, write the terminal
    status. *)
Definition process_files (E : Env) (wid jid : string)
    (files_to_process : list FileMetadata) : M Exit :=
  let* r := drain E wid jid (as_completed E files_to_process) [] in
  match r with
  | None => ret CancelledMidProcessing
  | Some [] =>
      write_at (StateTracker.update_workitem_status wid jid "completed" None) >>
      ret Processed
  | Some failed_files =>
      write_at (StateTracker.update_workitem_status wid jid "failed"
                  (Some (failure_message failed_files))) >>
      ret FilesFailed
  end.

(** The body of [process_workitem], with the return statement it leaves by.
    Storage is taken to be available, so the outer exception handler is not
    entered; [max_file_workers] only bounds the pool's width. *)
Definition process_workitem_exit (E : Env) (wid jid : string) : M Exit :=
  let* stop := is_set E in
  if stop then ret SkippedOnShutdown else
  let* status := read (StateTracker.get_workitem_status wid jid) in
  if bool_decide (status = Some "completed") then ret AlreadyCompleted else
  write_at (StateTracker.update_workitem_status wid jid "in_progress" None) >>
  match query_files_for_workitem E wid jid with
  | inl e =>
      write_at (StateTracker.update_workitem_status wid jid "failed"
                  (Some ("Kusto query failed: " ++ e))) >>
      ret QueryFailed
  | inr [] =>
      write_at (StateTracker.update_workitem_status wid jid "completed" None) >>
      ret NoFiles
  | inr fs =>
      let fs := dedupe fs in
      let* stop := is_set E in
      if stop then
        write_at (StateTracker.update_workitem_status wid jid "pending" None) >>
        ret AbortedBeforeUploads
      else
        write (StateTracker.update_workitem_file_count wid jid
                 (Z.of_nat (length fs))) >>
        let* files_to_process := claim_loop wid jid fs [] in
        match files_to_process with
        | [] =>
            write_at (StateTracker.update_workitem_status wid jid "completed"
                        None) >>
            ret NothingClaimed
        | _ => process_files E wid jid files_to_process
        end
  end.

Definition process_workitem (E : Env) (wid jid : string) : M bool :=
  let* e := process_workitem_exit E wid jid in ret (exit_value e).

(** ** Partition assigner *)

(** Python's builtin [hash] on [str] is keyed by a salt that the interpreter
    draws when it starts (unless PYTHONHASHSEED fixes it): it is one function
    within a process and another in the next.  The assigner is therefore
    given the hash of the process that calls it. *)
Section Partition.

Variable hash : string -> Z.

(** [hash(workitem_id) % total_partitions == partition]; [%] raises
    ZeroDivisionError on a zero modulus and otherwise takes the sign of the
    divisor, as [Z.modulo] does. *)
Definition belongs_to_partition (workitem_id : string)
    (partition total_partitions : Z) : option bool :=
  if total_partitions =? 0 then None
  else Some (hash workitem_id mod total_partitions =? partition).

(** The ids [load_workitems_from_csv] keeps for one partition. *)
Definition partition_ids (ids : list string) (partition total_partitions : Z)
    : list string :=
  filter (fun id => belongs_to_partition id partition total_partitions
                    = Some true) ids.

End Partition.

(** The instances of a partitioned run are separate processes, one per
    index: [hashes q] is the builtin hash in the process started with
    [--partition q].  The ids instance [q] keeps. *)
Definition instance_ids (hashes : Z -> string -> Z) (ids : list string)
    (q total_partitions : Z) : list string :=
  partition_ids (hashes q) ids q total_partitions.

(** ** Scheduler (the loop of [main], lines 958-1036)

    The loop is modelled on the schedule of the outer pool in which no two
    tasks overlap (one worker): a task runs to its return, then the loop
    polls the event and either stops or counts the result.  With several
    workers the tasks of other work items run meanwhile; each writes the rows
    of its own work item only, so what is stated of a work item's own rows
    and of the counters carries over, and what a shutdown leaves in the rows
    of the other work items is not stated here.  [process_workitem] returns a
    bool, so a result is counted as completed or as failed; [skipped] only
    counts cancelled futures, which the loop never reads after it stops. *)
Record Counters := mkCounters {
  completed : nat;
  failed : nat;
  skipped : nat
}.

Definition count (success : bool) (c : Counters) : Counters :=
  if success then mkCounters (S (completed c)) (failed c) (skipped c)
  else mkCounters (completed c) (S (failed c)) (skipped c).

Fixpoint schedule (E : Env) (futures : list WorkItemKey) (c : Counters)
    : M Counters :=
  match futures with
  | [] => ret c
  | (wid, jid) :: rest =>
      let* success := process_workitem E wid jid in
      let* stop := is_set E in
      if stop then ret c
      else schedule E rest (count success c)
  end.

(** [main] from the point where the pending work items are read; the result
    is the process exit status. *)
Definition main (E : Env) : M Z :=
  let* pending_workitems := read StateTracker.get_pending_workitems in
  match pending_workitems with
  | [] => ret 0
  | _ =>
      let* c := schedule E (workitems_as_completed E pending_workitems)
                  (mkCounters 0 0 0) in
      if (0 <? failed c)%nat then ret 1 else ret 0
  end.

(** ** Notions used by the statements *)

Definition files_processed_of (wid jid : string) (d : DB) : option Z :=
  wi_files_processed <$> workitems d !! (wid, jid).
Definition files_total_of (wid jid : string) (d : DB) : option Z :=
  wi_files_total <$> workitems d !! (wid, jid).

(** A status from which [claim_file] takes a row. *)
Definition claimable (status : string) : Prop :=
  status = "pending" \/ status = "failed".

(** A sequence of claim attempts, each on some file at some clock reading,
    as the tracker's lock serialises them; every attempt is recorded with
    its answer. *)
Fixpoint claim_attempts (attempts : list (FileKey * Timestamp)) (d : DB)
    : list (FileKey * bool) * DB :=
  match attempts with
  | [] => ([], d)
  | (k, ts) :: rest =>
      let (b, d1) := StateTracker.claim_file k.1.1 k.1.2 k.2 ts d in
      let (bs, d2) := claim_attempts rest d1 in
      ((k, b) :: bs, d2)
  end.

(** The number of attempts on [k] that were answered true. *)
Definition wins (k : FileKey) (answers : list (FileKey * bool)) : nat :=
  length (filter (fun kb => kb = (k, true)) answers).


(** A work item with one file, recorded 'completed' once. *)
Definition db_one_completed : DB :=
  StateTracker.update_file_status "w1" "j1" "report.json" "completed" None 1%nat
    (StateTracker.add_file "w1" "j1" "report.json" "https://src/report.json"
       (StateTracker.add_workitem "w1" "W1" "j1" empty_db)).

(** What a call of [process_workitem] on (wid, jid) leaves in place: the
    rows of the other work items, the presence of its own row, and a
    shutdown event that was set. *)
Definition frame (wid jid : string) (w w' : World) : Prop :=
  (forall k, k <> (wid, jid) ->
     workitems (db w') !! k = workitems (db w) !! k) /\
  (is_Some (workitems (db w) !! (wid, jid)) ->
   is_Some (workitems (db w') !! (wid, jid))) /\
  (shutdown_event w = true -> shutdown_event w' = true).

(** No SIGINT is ever delivered. *)
Definition no_sigint (E : Env) : Prop := forall n, sigint E n = false.

(** [Q] holds of the result and the world that [m] produces from [w]. *)
Definition satisfies {A} (m : M A) (w : World) (Q : A -> World -> Prop) : Prop :=
  Q (m w).1 (m w).2.

(** The reading of the exit status under which 0 tells that every work item
    of the run is 'completed' and a 'failed' work item makes it non-zero. *)
Definition exit_status_tells_all (E : Env) (w : World) : Prop :=
  ((main E w).1 = 0 ->
   forall k, k ∈ StateTracker.get_pending_workitems (db w) ->
     StateTracker.get_workitem_status k.1 k.2 (db (main E w).2)
     = Some "completed") /\
  (forall k,
     StateTracker.get_workitem_status k.1 k.2 (db (main E w).2) = Some "failed" ->
     (main E w).1 <> 0).

(** One seeded work item, no SIGINT so far. *)
Definition world_seeded : World :=
  mkWorld (StateTracker.add_workitem "w1" "W1" "j1" empty_db) 0 false 0.

(** The resolver times out; SIGINT arrives after the work item has returned
    and before the scheduler looks at its result. *)
Definition env_query_fails_then_sigint : Env :=
  mkEnv (fun _ _ => inl "timeout") (fun _ => (true, None)) (fun l => l)
    (fun l => l) (fun n => (1 <=? n)%nat).

(** The reading of the empty-resolution path under which the stored row
    ends with both counters at 0. *)
Definition empty_resolution_zeroes (E : Env) (wid jid : string) (w : World)
    : Prop :=
  (process_workitem E wid jid w).1 = true /\
  StateTracker.get_workitem_status wid jid (db (process_workitem E wid jid w).2)
    = Some "completed" /\
  files_total_of wid jid (db (process_workitem E wid jid w).2) = Some 0 /\
  files_processed_of wid jid (db (process_workitem E wid jid w).2) = Some 0.

(** Three report files of work item w1. *)
Definition sample_files : list FileMetadata :=
  [ mkFileMetadata "j1" "w1" "W1" "https://src/a" "run/a-perf-lab-report.json";
    mkFileMetadata "j1" "w1" "W1" "https://src/b" "run/b-perf-lab-report.json";
    mkFileMetadata "j1" "w1" "W1" "https://src/c" "run/c-perf-lab-report.json" ].

(** A run in which only the first file is transferred. *)
Definition env_partial : Env :=
  mkEnv (fun _ _ => inr sample_files)
    (fun f => if String.eqb (filename f) "run/a-perf-lab-report.json"
              then (true, None) else (false, Some "Upload failed"))
    (fun l => l) (fun l => l) (fun _ => false).

(** A later run in which the resolver finds no file. *)
Definition env_empty : Env :=
  mkEnv (fun _ _ => inr []) (fun _ => (true, None)) (fun l => l) (fun l => l)
    (fun _ => false).

(** A new process on the database a run left: the event is clear again. *)
Definition restart (w : World) : World := mkWorld (db w) (clock w) false 0.

Definition world_after_partial_run : World :=
  restart (main env_partial world_seeded).2.

(** The stored status of a resolved file is 'completed'. *)
Definition stored_completed (wid jid : string) (d : DB) (f : FileMetadata)
    : bool :=
  bool_decide (StateTracker.get_file_status wid jid (filename f) d
               = Some "completed").

(** The claim loop will take the file: it has no row yet, or its row is
    'pending' or 'failed'. *)
Definition will_claim (wid jid : string) (d : DB) (f : FileMetadata) : bool :=
  match StateTracker.get_file_status wid jid (filename f) d with
  | None => true
  | Some s => String.eqb s "pending" || String.eqb s "failed"
  end.


(** All three files are transferred; SIGINT arrives while the second
    completion is awaited. *)
Definition env_sigint_mid_drain : Env :=
  mkEnv (fun _ _ => inr sample_files) (fun _ => (true, None)) (fun l => l)
    (fun l => l) (fun n => (3 <=? n)%nat).

(** The stored counters and file rows of a work item agree with the files
    [U] resolved for it: files_processed is the number of the files of [U]
    stored 'completed', and every file of [U] is stored 'completed',
    'pending' or 'failed', or has no row yet. *)
Definition counters_consistent (wid jid : string) (U : list FileMetadata)
    (d : DB) : Prop :=
  files_processed_of wid jid d =
    Some (Z.of_nat (length (filter (fun f => stored_completed wid jid d f = true) U)))
  /\ Forall (fun f => stored_completed wid jid d f = true \/
                       will_claim wid jid d f = true) U.

(** The reading under which files_processed never exceeds files_total and
    the two are equal whenever the call sets the status to 'completed'. *)
Definition completed_means_all_processed (E : Env) (wid jid : string)
    (w : World) : Prop :=
  let e := (process_workitem_exit E wid jid w).1 in
  let d' := db (process_workitem_exit E wid jid w).2 in
  (exists fp ft, files_processed_of wid jid d' = Some fp /\
                 files_total_of wid jid d' = Some ft /\ fp <= ft) /\
  (e = NoFiles \/ e = NothingClaimed \/ e = Processed ->
   files_processed_of wid jid d' = files_total_of wid jid d').

(** The run that was cancelled while draining, and a new process resuming on
    its database with no SIGINT. *)
Definition world_after_cancelled_run : World :=
  restart (main env_sigint_mid_drain world_seeded).2.

Definition env_resume : Env :=
  mkEnv (fun _ _ => inr sample_files) (fun _ => (true, None)) (fun l => l)
    (fun l => l) (fun _ => false).



(** hash('w1') in CPython 3.11 (64-bit, siphash13): started with
    PYTHONHASHSEED=2 for the instance of partition 0 and with
    PYTHONHASHSEED=1 for the instance of partition 1.  Only the value at
    'w1' is recorded. *)
Definition hashes_two_seeds (q : Z) (s : string) : Z :=
  if q =? 0 then 400584898875072775 else 4487440183517141888.

(** A hash for examples: the length of the id. *)
Definition length_hash (s : string) : Z := Z.of_nat (String.length s).

(** One file of w1, not yet claimed. *)
Definition db_one_pending : DB :=
  StateTracker.add_file "w1" "j1" "report.json" "https://src/report.json"
    (StateTracker.add_workitem "w1" "W1" "j1" empty_db).

(** A world holding a work item that is already 'completed'. *)
Definition world_completed : World :=
  mkWorld
    (StateTracker.update_workitem_status "w1" "j1" "completed" None 0%nat
       (StateTracker.add_workitem "w1" "W1" "j1" empty_db))
    1 false 0.

(** ** Further tracker methods: [get_summary] *)

(** [dict(cursor.fetchall())] of [SELECT status, COUNT( * ) FROM workitems
    GROUP BY status]: one entry per status that occurs. *)
Definition group_by_status (rows : list (WorkItemKey * WorkItemRow))
    : gmap string Z :=
  foldr (fun kr m => <[wi_status kr.2 := default 0 (m !! wi_status kr.2) + 1]> m)
    ∅ rows.

(** [StateTracker.get_summary]: the grouped counts, then the three totals
    stored under their keys of the same dict. *)
Definition get_summary (d : DB) : gmap string Z :=
  let summary := group_by_status (map_to_list (workitems d)) in
  let summary := <["total" := Z.of_nat (size (workitems d))]> summary in
  let summary := <["total_files" := Z.of_nat (size (files d))]> summary in
  <["processed_files" :=
      Z.of_nat (length (filter (fun kr : FileKey * FileRow =>
                                  fr_status kr.2 = "completed")
                          (map_to_list (files d))))]> summary.

(** [summary.get(key, 0)], as [print_summary] reads the dict. *)
Definition summary_get (key : string) (summary : gmap string Z) : Z :=
  default 0 (summary !! key).

(** The number of work items stored with a status. *)
Definition count_status (status : string) (d : DB) : Z :=
  Z.of_nat (length (filter (fun kr : WorkItemKey * WorkItemRow =>
                              wi_status kr.2 = status)
                      (map_to_list (workitems d)))).

(** The statuses the script writes. *)
Definition known_status (status : string) : Prop :=
  status = "pending" \/ status = "in_progress" \/ status = "completed" \/
  status = "failed".

(** ** Notions used by the further properties of the processor *)

(** What no step of a call on (wid, jid) does: drop a row, rename a work
    item, change the source of a file, touch a row of another work item, or
    turn back the clock or the poll count. *)
Definition only_own_rows (wid jid : string) (w w' : World) : Prop :=
  (forall k r, workitems (db w) !! k = Some r ->
     exists r', workitems (db w') !! k = Some r' /\
                wi_workitem_name r' = wi_workitem_name r) /\
  (forall k r, files (db w) !! k = Some r ->
     exists r', files (db w') !! k = Some r' /\
                fr_source_uri r' = fr_source_uri r) /\
  (forall k, k <> (wid, jid) ->
     workitems (db w') !! k = workitems (db w) !! k) /\
  (forall k : FileKey, k.1 <> (wid, jid) ->
     files (db w') !! k = files (db w) !! k) /\
  (clock w <= clock w')%nat /\ (polls w <= polls w')%nat.

(** The status a return statement of [process_workitem] leaves in the row:
    [None] where the row is left as it was. *)
Definition status_left (e : Exit) : option string :=
  match e with
  | SkippedOnShutdown | AlreadyCompleted => None
  | QueryFailed | FilesFailed => Some "failed"
  | AbortedBeforeUploads | CancelledMidProcessing => Some "pending"
  | NoFiles | NothingClaimed | Processed => Some "completed"
  end.

(** The resolver times out; no SIGINT. *)
Definition env_query_fails : Env :=
  mkEnv (fun _ _ => inl "timeout") (fun _ => (true, None)) (fun l => l)
    (fun l => l) (fun _ => false).

(** SIGINT arrives while the resolver is queried. *)
Definition env_sigint_during_query : Env :=
  mkEnv (fun _ _ => inr sample_files) (fun _ => (true, None)) (fun l => l)
    (fun l => l) (fun n => (1 <=? n)%nat).



(** ** Start of [main]: the partition arguments (lines 855-866)

    [None] lets the run go on; [Some msg] is the line printed before
    [return 1]. *)
Definition check_partition_args (partition total_partitions : option Z)
    : option string :=
  if negb (Bool.eqb (bool_decide (is_Some partition))
             (bool_decide (is_Some total_partitions)))
  then Some "Error: --partition and --total-partitions must be used together"
  else
    match partition, total_partitions with
    | Some p, Some t =>
        if (p <? 0) || (t <=? p)
        then Some ("Error: --partition must be between 0 and " ++ pretty (t - 1))
        else if t <? 2
        then Some "Error: --total-partitions must be at least 2"
        else None
    | _, _ => None
    end.

(** ** load_workitems_from_csv

    A row of [csv.DictReader] is a dict from column names to text; a column
    the row lacks reads as [None]. *)
Abbreviation CsvRow := (gmap string string).

(** [a or b] on optional text: [a] when it is truthy (present and not
    empty), else [b]. *)
Definition py_or (a b : option string) : option string :=
  match a with
  | Some (String _ _) => a
  | _ => b
  end.

(** [not x] on optional text. *)
Definition falsy (x : option string) : bool :=
  match x with
  | Some (String _ _) => false
  | _ => true
  end.

Section LoadWorkitems.

Variable hash : string -> Z.

(** The loop over the rows (lines 745-766), on the list built so far, the
    count of rows left to other partitions, and the database.  [None] is the
    ZeroDivisionError of the partition test. *)
Fixpoint load_rows (partition total_partitions : option Z)
    (rows : list CsvRow) (loaded : list (string * string * string))
    (skipped_partition : nat) (d : DB)
    : option (list (string * string * string) * nat * DB) :=
  match rows with
  | [] => Some (loaded, skipped_partition, d)
  | row :: rest =>
      let workitem_id := py_or (row !! "WorkItemId") (row !! "workitem_id") in
      let workitem_name := py_or (row !! "WorkItemName") (row !! "workitem_name") in
      let job_id := py_or (row !! "JobId") (row !! "job_id") in
      if falsy workitem_id || falsy job_id
      then load_rows partition total_partitions rest loaded skipped_partition d
      else
        let wid := default "" workitem_id in
        let jid := default "" job_id in
        let keep :=
          let wname := if falsy workitem_name then wid
                       else default "" workitem_name in
          load_rows partition total_partitions rest
            (loaded ++ [(wid, wname, jid)]) skipped_partition
            (StateTracker.add_workitem wid wname jid d) in
        match partition, total_partitions with
        | Some p, Some t =>
            match belongs_to_partition hash wid p t with
            | None => None
            | Some false =>
                load_rows partition total_partitions rest loaded
                  (S skipped_partition) d
            | Some true => keep
            end
        | _, _ => keep
        end
  end.

(** [load_workitems_from_csv] on the rows read from the file: the list it
    returns and the database it leaves. *)
Definition load_workitems_from_csv (rows : list CsvRow)
    (partition total_partitions : option Z) (d : DB)
    : option (list (string * string * string) * DB) :=
  match load_rows partition total_partitions rows [] 0%nat d with
  | Some (loaded, _, d') => Some (loaded, d')
  | None => None
  end.

End LoadWorkitems.

(** The work item a row yields, when the row has an id and a job id. *)
Definition row_workitem (row : CsvRow) : option (string * string * string) :=
  let workitem_id := py_or (row !! "WorkItemId") (row !! "workitem_id") in
  let workitem_name := py_or (row !! "WorkItemName") (row !! "workitem_name") in
  let job_id := py_or (row !! "JobId") (row !! "job_id") in
  if falsy workitem_id || falsy job_id then None
  else Some (default "" workitem_id,
             (if falsy workitem_name then default "" workitem_id
              else default "" workitem_name),
             default "" job_id).

(** Whether a work item is kept by the partition test of the loader. *)
Definition in_partition (hash : string -> Z) (partition total_partitions : option Z)
    (item : string * string * string) : bool :=
  match partition, total_partitions with
  | Some p, Some t => hash item.1.1 mod t =? p
  | _, _ => true
  end.

(** The work items seeded one after the other. *)
Definition seed (d : DB) (items : list (string * string * string)) : DB :=
  foldl (fun d item => StateTracker.add_workitem item.1.1 item.1.2 item.2 d)
    d items.

(** A CSV with one row per spelling of the columns, one row without a job
    id and one without a name. *)
Definition sample_rows : list CsvRow :=
  [ {[ "WorkItemId" := "w1"; "WorkItemName" := "W1"; "JobId" := "j1" ]};
    {[ "workitem_id" := "w2"; "workitem_name" := "W2"; "job_id" := "j1" ]};
    {[ "WorkItemId" := "w3"; "WorkItemName" := "W3"; "JobId" := "" ]};
    {[ "WorkItemId" := "w4"; "JobId" := "j2" ]} ].
(** ** FileReuploader (lines 385-568)

    The blob and queue clients are collaborators: what each call answers is
    given by a [Storage], and a method returns, with its value, the calls it
    made on the clients, in order. *)
Module FileReuploader.

(** How [retry_on_exception(_upload, raise_exceptions=[ResourceExistsError])]
    ends: it returns, raises [ResourceExistsError], or raises another
    exception. *)
Inductive UploadOutcome :=
  | Uploaded
  | ResourceExistsError
  | UploadRaised.

Inductive Call :=
  | Exists (blob : string)
  | Download (uri : string)
  | Upload (blob : string) (file_data : list Byte.byte)
  | SendMessage (container_name blob : string).

Record Storage := mkStorage {
  target_container : string;
  (** [blob_client.exists()], [None] when the call raises. *)
  blob_exists : string -> option bool;
  (** [download_blob(...).readall()] on a source URI: the content, or the
      type name and text of the exception. *)
  download_blob : string -> (string * string) + list Byte.byte;
  upload_blob : list Byte.byte -> string -> UploadOutcome;
  (** [_queue_client], when a queue is configured: whether [send_message]
      on the message of (container, blob) gets through. *)
  queue_client : option (string -> string -> bool);
  (** The value [randint(1000, 9999)] draws. *)
  randint : Z
}.

(** [check_blob_exists] (lines 486-493). *)
Definition check_blob_exists (S : Storage) (blob : string) : bool * list Call :=
  (match blob_exists S blob with
   | Some b => b
   | None => false
   end, [Exists blob]).

(** [_download_file] (lines 450-484): the content, or the exception it
    raises again. *)
Definition _download_file (S : Storage) (uri : string)
    : ((string * string) + list Byte.byte) * list Call :=
  (download_blob S uri, [Download uri]).

(** [_upload_file] (lines 495-531). *)
Definition _upload_file (S : Storage) (file_data : list Byte.byte)
    (blob : string) : bool * list Call :=
  match upload_blob S file_data blob with
  | Uploaded =>
      match queue_client S with
      | Some send_message =>
          if send_message (target_container S) blob
          then (true, [Upload blob file_data;
                       SendMessage (target_container S) blob])
          else (true, [Upload blob file_data;
                       SendMessage (target_container S) blob])
      | None => (true, [Upload blob file_data])
      end
  | ResourceExistsError => (true, [Upload blob file_data])
  | UploadRaised => (false, [Upload blob file_data])
  end.

(** [len] of a str is its number of code points.  A text is held here as
    its UTF-8 bytes, in which every code point has exactly one byte that is
    not a continuation byte (10xxxxxx). *)
Definition is_continuation (c : ascii) : bool :=
  let n := nat_of_ascii c in (128 <=? n)%nat && (n <? 192)%nat.

Fixpoint len (s : string) : nat :=
  match s with
  | EmptyString => 0%nat
  | String c rest => if is_continuation c then len rest else S (len rest)
  end.

(** The name [reupload_file] settles on (lines 539-545). *)
Definition target_blob_name (S : Storage) (file_meta : FileMetadata) : string :=
  let blob_name := blob_name file_meta in
  if (1024 <? len blob_name)%nat
  then workitem_name file_meta ++ "-" ++ pretty (randint S)
         ++ "-perf-lab-report.json"
  else blob_name.

(** [reupload_file] (lines 533-568): (success, error_message) and the calls
    made. *)
Definition reupload_file (S : Storage) (file_meta : FileMetadata)
    : (bool * option string) * list Call :=
  let blob_name := target_blob_name S file_meta in
  let (found, c1) := check_blob_exists S blob_name in
  if found then ((true, None), c1)
  else
    match _download_file S (source_uri file_meta) with
    | (inl (type_name, text), c2) =>
        ((false, Some (type_name ++ ": " ++ text)), (c1 ++ c2)%list)
    | (inr file_data, c2) =>
        let (success, c3) := _upload_file S file_data blob_name in
        if success then ((true, None), (c1 ++ c2 ++ c3)%list)
        else ((false, Some "Upload failed"), (c1 ++ c2 ++ c3)%list)
    end.

End FileReuploader.

(** A target that has no blob yet, with a queue whose messages are lost. *)
Definition storage_fresh : FileReuploader.Storage :=
  FileReuploader.mkStorage "results" (fun _ => Some false)
    (fun _ => inr []) (fun _ _ => FileReuploader.Uploaded)
    (Some (fun _ _ => false)) 4242.

(** A file whose name has 1100 characters, of a work item with a short
    name. *)
Definition file_long_name : FileMetadata :=
  mkFileMetadata "j1" "w1" "W1" "https://src/a"
    (fold_right String.append "-perf-lab-report.json" (replicate 1100 "x")).
(** ** filter_completed_csv.py

    The script reads the state database of a run and copies the CSV without
    the rows of completed work items. *)
Module FilterCompleted.

(** [get_completed_workitems] (lines 14-26): the set of the [workitem_id]
    column over the rows of [workitems] with status 'completed'. *)
Definition get_completed_workitems (d : DB) : gset string :=
  list_to_set
    ((fun kr : WorkItemKey * WorkItemRow => kr.1.1) <$>
       filter (fun kr : WorkItemKey * WorkItemRow =>
                 wi_status kr.2 = "completed")
         (map_to_list (workitems d))).

(** [workitem_id in completed_ids], where the id read from a row may be
    [None]. *)
Definition id_in (workitem_id : option string) (completed_ids : gset string)
    : bool :=
  match workitem_id with
  | Some s => bool_decide (s ∈ completed_ids)
  | None => false
  end.

(** The loop of [filter_csv] (lines 42-50), on the rows handed to the
    writer so far and the three counters. *)
Fixpoint filter_rows (rows : list CsvRow) (completed_ids : gset string)
    (written : list CsvRow) (total filtered remaining : nat)
    : list CsvRow * (nat * nat * nat) :=
  match rows with
  | [] => (written, (total, filtered, remaining))
  | row :: rest =>
      let total := S total in
      let workitem_id := py_or (row !! "WorkItemId") (row !! "workitem_id") in
      if id_in workitem_id completed_ids
      then filter_rows rest completed_ids written total (S filtered) remaining
      else filter_rows rest completed_ids (written ++ [row]) total filtered
             (S remaining)
  end.

(** [filter_csv] (lines 29-52): the rows handed to [writer.writerow], in
    order, and (total, filtered, remaining). *)
Definition filter_csv (rows : list CsvRow) (completed_ids : gset string)
    : list CsvRow * (nat * nat * nat) :=
  filter_rows rows completed_ids [] 0%nat 0%nat 0%nat.

End FilterCompleted.

(** Whether some work item with this id, under any job, is stored
    'completed'. *)
Definition completed_under_some_job (d : DB) (wid : string) : Prop :=
  exists jid r, workitems d !! (wid, jid) = Some r /\ wi_status r = "completed".

(** A store in which w1 is completed under job j0 and pending under j1. *)
Definition db_two_jobs : DB :=
  StateTracker.update_workitem_status "w1" "j0" "completed" None 1%nat
    (StateTracker.add_workitem "w1" "W1" "j1"
       (StateTracker.add_workitem "w1" "W1" "j0" empty_db)).

(** * Properties *)

(** ** State store *)

Lemma update_workitem_row_lookup wid jid set d :
  workitems (StateTracker.update_workitem_row wid jid set d) !! (wid, jid) =
  set <$> workitems d !! (wid, jid).
Proof.
  unfold StateTracker.update_workitem_row.
  destruct (workitems d !! (wid, jid)) as [r|] eqn:Hr; simpl.
  - by rewrite lookup_insert_eq.
  - by rewrite Hr.
Qed.

Lemma update_workitem_row_lookup_ne wid jid set d k :
  k <> (wid, jid) ->
  workitems (StateTracker.update_workitem_row wid jid set d) !! k =
  workitems d !! k.
Proof.
  intros Hk. unfold StateTracker.update_workitem_row.
  destruct (workitems d !! (wid, jid)); simpl; [|done].
  by rewrite lookup_insert_ne.
Qed.

Lemma update_workitem_row_files wid jid set d :
  files (StateTracker.update_workitem_row wid jid set d) = files d.
Proof.
  unfold StateTracker.update_workitem_row.
  by destruct (workitems d !! (wid, jid)).
Qed.

Lemma update_file_row_lookup wid jid fname set d :
  files (StateTracker.update_file_row wid jid fname set d) !! (wid, jid, fname) =
  set <$> files d !! (wid, jid, fname).
Proof.
  unfold StateTracker.update_file_row.
  destruct (files d !! (wid, jid, fname)) as [r|] eqn:Hr; simpl.
  - by rewrite lookup_insert_eq.
  - by rewrite Hr.
Qed.

Lemma update_file_row_lookup_ne wid jid fname set d k :
  k <> (wid, jid, fname) ->
  files (StateTracker.update_file_row wid jid fname set d) !! k = files d !! k.
Proof.
  intros Hk. unfold StateTracker.update_file_row.
  destruct (files d !! (wid, jid, fname)); simpl; [|done].
  by rewrite lookup_insert_ne.
Qed.

Lemma update_file_row_workitems wid jid fname set d :
  workitems (StateTracker.update_file_row wid jid fname set d) = workitems d.
Proof.
  unfold StateTracker.update_file_row.
  by destruct (files d !! (wid, jid, fname)).
Qed.

Lemma bump_files_processed_spec wid jid d :
  files_processed_of wid jid (StateTracker.bump_files_processed wid jid d) =
  (fun n => n + 1) <$> files_processed_of wid jid d.
Proof.
  unfold files_processed_of, StateTracker.bump_files_processed.
  rewrite update_workitem_row_lookup. by destruct (workitems d !! (wid, jid)).
Qed.

Lemma claimable_test status :
  claimable status <->
  String.eqb status "pending" || String.eqb status "failed" = true.
Proof.
  unfold claimable. rewrite orb_true_iff, !String.eqb_eq. tauto.
Qed.

Lemma claim_file_hit wid jid fname ts d r :
  files d !! (wid, jid, fname) = Some r -> claimable (fr_status r) ->
  StateTracker.claim_file wid jid fname ts d =
    (true, with_files d (<[(wid, jid, fname) :=
             mkFileRow (fr_source_uri r) "in_progress" None (Some ts)]> (files d))).
Proof.
  intros Hr Hc. unfold StateTracker.claim_file. rewrite Hr.
  apply claimable_test in Hc. by rewrite Hc.
Qed.

Lemma claim_file_miss wid jid fname ts d :
  (forall r, files d !! (wid, jid, fname) = Some r -> ~ claimable (fr_status r)) ->
  StateTracker.claim_file wid jid fname ts d = (false, d).
Proof.
  intros Hn. unfold StateTracker.claim_file.
  destruct (files d !! (wid, jid, fname)) as [r|] eqn:Hr; [|done].
  destruct (String.eqb (fr_status r) "pending" || String.eqb (fr_status r) "failed")
    eqn:Ht; [|done].
  exfalso. apply (Hn r eq_refl). by apply claimable_test.
Qed.

Lemma claim_file_files_other wid jid fname ts d k :
  k <> (wid, jid, fname) ->
  files (StateTracker.claim_file wid jid fname ts d).2 !! k = files d !! k.
Proof.
  intros Hk. unfold StateTracker.claim_file.
  destruct (files d !! (wid, jid, fname)) as [r|]; [|done].
  destruct (_ || _); [|done]. simpl. by rewrite lookup_insert_ne.
Qed.

Lemma claim_file_workitems wid jid fname ts d :
  workitems (StateTracker.claim_file wid jid fname ts d).2 = workitems d.
Proof.
  unfold StateTracker.claim_file.
  destruct (files d !! (wid, jid, fname)) as [r|]; [|done].
  by destruct (_ || _).
Qed.

Lemma wins_cons k k' b answers :
  wins k ((k', b) :: answers) =
  ((if bool_decide ((k', b) = (k, true)) then 1 else 0) + wins k answers)%nat.
Proof.
  unfold wins. rewrite filter_cons. case_bool_decide; by case_decide.
Qed.

Lemma wins_locked k attempts d :
  (forall r, files d !! k = Some r -> ~ claimable (fr_status r)) ->
  wins k (claim_attempts attempts d).1 = 0%nat.
Proof.
  revert d. induction attempts as [|[k' ts] rest IH]; intros d Hn; [done|].
  destruct k as [[wid jid] fname], k' as [[wid' jid'] fname']. simpl.
  destruct (decide ((wid', jid', fname') = (wid, jid, fname))) as [He|Hne].
  - injection He as -> -> ->. rewrite claim_file_miss by done.
    specialize (IH d Hn). destruct (claim_attempts rest d) as [bs d2].
    simpl in *. rewrite wins_cons. case_bool_decide; [congruence|done].
  - pose proof (claim_file_files_other wid' jid' fname' ts d (wid, jid, fname)) as Ho.
    destruct (StateTracker.claim_file wid' jid' fname' ts d) as [b d1].
    simpl in Ho. specialize (IH d1).
    destruct (claim_attempts rest d1) as [bs d2]. simpl in *.
    rewrite wins_cons. case_bool_decide; [congruence|].
    apply IH. intros r. rewrite Ho by congruence. apply Hn.
Qed.

Lemma wins_claimable k attempts d r :
  files d !! k = Some r -> claimable (fr_status r) ->
  k ∈ attempts.*1 ->
  wins k (claim_attempts attempts d).1 = 1%nat.
Proof.
  revert d r. induction attempts as [|[k' ts] rest IH]; intros d r Hr Hc Hin.
  { by apply elem_of_nil in Hin. }
  destruct k as [[wid jid] fname], k' as [[wid' jid'] fname']. simpl.
  destruct (decide ((wid', jid', fname') = (wid, jid, fname))) as [He|Hne].
  - injection He as -> -> ->. rewrite (claim_file_hit _ _ _ _ _ _ Hr Hc).
    match goal with |- context [claim_attempts rest ?d1] =>
      pose proof (wins_locked (wid, jid, fname) rest d1) as Hl;
      destruct (claim_attempts rest d1) as [bs d2] end.
    simpl in *. rewrite wins_cons, bool_decide_eq_true_2 by done.
    rewrite Hl; [done|]. intros r'. rewrite lookup_insert_eq.
    intros [= <-]. simpl. intros [?|?]; discriminate.
  - pose proof (claim_file_files_other wid' jid' fname' ts d (wid, jid, fname)) as Ho.
    destruct (StateTracker.claim_file wid' jid' fname' ts d) as [b d1].
    simpl in Ho. specialize (IH d1 r).
    destruct (claim_attempts rest d1) as [bs d2]. simpl in *.
    rewrite wins_cons. case_bool_decide; [congruence|].
    apply IH; [rewrite Ho by congruence; done|done|].
    apply elem_of_cons in Hin as [Hin|Hin]; [congruence|done].
Qed.

(** C1. From a file row whose status is 'pending' or 'failed', [claim_file]
    answers true and leaves the row 'in_progress'; on the row so left, on the
    row once it is recorded 'completed', and on any row that is 'in_progress'
    or 'completed', a claim answers false and changes nothing; and in any
    serialised sequence of claim attempts (on this file and on others) that
    tries this file at least once, exactly one attempt on it is answered
    true. *)
Theorem claim_file_exactly_one_winner (d : DB) (wid jid fname : string)
    (r : FileRow) :
  files d !! (wid, jid, fname) = Some r ->
  claimable (fr_status r) ->
  (forall ts, exists d',
      StateTracker.claim_file wid jid fname ts d = (true, d') /\
      StateTracker.get_file_status wid jid fname d' = Some "in_progress" /\
      (forall ts', StateTracker.claim_file wid jid fname ts' d' = (false, d')) /\
      (forall ts1 ts',
          let d'' := StateTracker.update_file_status wid jid fname "completed"
                       None ts1 d' in
          StateTracker.claim_file wid jid fname ts' d'' = (false, d''))) /\
  (forall d0 r0 ts,
      files d0 !! (wid, jid, fname) = Some r0 ->
      fr_status r0 = "in_progress" \/ fr_status r0 = "completed" ->
      StateTracker.claim_file wid jid fname ts d0 = (false, d0)) /\
  (forall attempts,
      (wid, jid, fname) ∈ attempts.*1 ->
      wins (wid, jid, fname) (claim_attempts attempts d).1 = 1%nat).
Proof.
  intros Hr Hc. split; [|split].
  - intros ts. eexists. split; [by apply claim_file_hit|].
    split; [|split].
    + unfold StateTracker.get_file_status. simpl. by rewrite lookup_insert_eq.
    + intros ts'. apply claim_file_miss. intros r'. simpl.
      rewrite lookup_insert_eq. intros [= <-] [?|?]; discriminate.
    + intros ts1 ts'. apply claim_file_miss. intros r'.
      unfold StateTracker.update_file_status, StateTracker.bump_files_processed.
      simpl. rewrite update_workitem_row_files, update_file_row_lookup. simpl.
      rewrite lookup_insert_eq. intros [= <-] [?|?]; discriminate.
  - intros d0 r0 ts Hr0 Hs. apply claim_file_miss. intros r'.
    rewrite Hr0. intros [= <-] [?|?]; destruct Hs; congruence.
  - intros attempts Hin. by eapply wins_claimable.
Qed.

(** C10. When no row exists for the file, or its row is 'in_progress' or
    'completed', [claim_file] answers false and returns the database it was
    given. *)
Theorem claim_file_refused_unchanged (d : DB) (wid jid fname : string)
    (ts : Timestamp) :
  files d !! (wid, jid, fname) = None \/
  (exists r, files d !! (wid, jid, fname) = Some r /\
             (fr_status r = "in_progress" \/ fr_status r = "completed")) ->
  StateTracker.claim_file wid jid fname ts d = (false, d).
Proof.
  intros H. apply claim_file_miss. intros r Hr [Hc|Hc];
    destruct H as [H|(r' & H & [Hs|Hs])]; congruence.
Qed.


Lemma update_file_status_processed wid jid fname status error_message ts d :
  files_processed_of wid jid
    (StateTracker.update_file_status wid jid fname status error_message ts d) =
  (fun n => if bool_decide (status = "completed") then n + 1 else n)
    <$> files_processed_of wid jid d.
Proof.
  unfold StateTracker.update_file_status.
  destruct (String.eqb_spec status "completed") as [->|Hne].
  - rewrite bump_files_processed_spec. unfold files_processed_of.
    by rewrite update_file_row_workitems.
  - rewrite bool_decide_eq_false_2 by done. unfold files_processed_of.
    rewrite update_file_row_workitems.
    by destruct (workitems d !! (wid, jid)).
Qed.


(** ** Partition assigner *)

Section PartitionProperties.

Variable hash : string -> Z.

Lemma belongs_to_partition_true wid p n :
  n <> 0 ->
  belongs_to_partition hash wid p n = Some true <-> hash wid mod n = p.
Proof.
  intros Hn. unfold belongs_to_partition.
  destruct (Z.eqb_spec n 0); [done|].
  split.
  - intros [= H]. by apply Z.eqb_eq.
  - intros H. f_equal. by apply Z.eqb_eq.
Qed.

Lemma elem_of_partition_ids ids wid p n :
  wid ∈ partition_ids hash ids p n <->
  wid ∈ ids /\ belongs_to_partition hash wid p n = Some true.
Proof. unfold partition_ids. rewrite list_elem_of_filter. tauto. Qed.

End PartitionProperties.

(** C5. Each instance decides with the hash of its own process: instance q
    keeps an id of the list exactly when that hash, modulo the total, is q.
    For instances that hash alike (one PYTHONHASHSEED) the id is kept by
    exactly one index, which lies in 0..total_partitions-1, as the claim
    says.  For instances that do not, the id is kept by as many instances as
    have it hash to their own index: by none when no instance does, by two
    when two do. *)
Theorem salted_hash_breaks_partitions (hashes : Z -> string -> Z)
    (total_partitions : Z) (ids : list string) (x : string) :
  2 <= total_partitions ->
  x ∈ ids ->
  (forall q, x ∈ instance_ids hashes ids q total_partitions <->
             hashes q x mod total_partitions = q) /\
  ((forall q, hashes q x = hashes 0 x) ->
   exists p, 0 <= p < total_partitions /\
     forall q, x ∈ instance_ids hashes ids q total_partitions <-> q = p) /\
  ((forall q, 0 <= q < total_partitions ->
      hashes q x mod total_partitions <> q) ->
   forall q, x ∉ instance_ids hashes ids q total_partitions) /\
  (forall p q, p <> q ->
     hashes p x mod total_partitions = p ->
     hashes q x mod total_partitions = q ->
     x ∈ instance_ids hashes ids p total_partitions /\
     x ∈ instance_ids hashes ids q total_partitions).
Proof.
  intros Hn Hx. assert (Hn0 : total_partitions <> 0) by lia.
  assert (Hin : forall q, x ∈ instance_ids hashes ids q total_partitions <->
                          hashes q x mod total_partitions = q).
  { intros q. unfold instance_ids.
    rewrite elem_of_partition_ids, belongs_to_partition_true by done. tauto. }
  split; [done|]. split; [|split].
  - intros Hsame. exists (hashes 0 x mod total_partitions). split.
    + apply Z.mod_pos_bound. lia.
    + intros q. rewrite Hin, Hsame. split; by intros ->.
  - intros Hnone q Hq. apply Hin in Hq.
    apply (Hnone q); [|done]. rewrite <- Hq. apply Z.mod_pos_bound. lia.
  - intros p q _ Hp Hq. by rewrite !Hin.
Qed.



(** ** Processor: what every step preserves *)

Section Preserved.

Context (E : Env) (wid jid : string) (R : World -> World -> Prop).
Hypothesis R_refl : forall w, R w w.
Hypothesis R_trans : forall w1 w2 w3, R w1 w2 -> R w2 w3 -> R w1 w3.
Hypothesis R_poll : forall w, R w (is_set E w).2.
Hypothesis R_status : forall st e w,
  R w (write_at (StateTracker.update_workitem_status wid jid st e) w).2.
Hypothesis R_count : forall n w,
  R w (write (StateTracker.update_workitem_file_count wid jid n) w).2.
Hypothesis R_add : forall f u w,
  R w (write (StateTracker.add_file wid jid f u) w).2.
Hypothesis R_claim : forall f w, R w (claim_file wid jid f w).2.
Hypothesis R_file : forall f st e w,
  R w (write_at (StateTracker.update_file_status wid jid f st e) w).2.

Lemma bind_preserved {A B} (m : M A) (k : A -> M B) w :
  R w (m w).2 -> (forall a w1, R w1 (k a w1).2) -> R w (bind m k w).2.
Proof.
  intros Hm Hk. unfold bind. destruct (m w) as [a w1]. simpl in Hm.
  eapply R_trans; [exact Hm|apply Hk].
Qed.

Lemma claim_loop_preserved fs acc w : R w (claim_loop wid jid fs acc w).2.
Proof.
  revert acc w. induction fs as [|f rest IH]; intros acc w; simpl.
  - apply R_refl.
  - apply bind_preserved; [apply R_add|]. intros _ w1.
    apply bind_preserved; [apply R_refl|]. intros status w2.
    case_bool_decide; [apply IH|].
    apply bind_preserved; [apply R_claim|]. intros [] w3; apply IH.
Qed.

Lemma drain_preserved done ff w : R w (drain E wid jid done ff w).2.
Proof.
  revert ff w. induction done as [|f rest IH]; intros ff w; simpl.
  - apply R_refl.
  - apply bind_preserved; [apply R_poll|]. intros [] w1.
    + apply bind_preserved; [apply R_status|]. intros _ w2. apply R_refl.
    + destruct (reupload_file E f) as [[] err].
      * apply bind_preserved; [apply R_file|]. intros _ w2. apply IH.
      * apply bind_preserved; [apply R_file|]. intros _ w2. apply IH.
Qed.

Lemma process_files_preserved claimed w :
  R w (process_files E wid jid claimed w).2.
Proof.
  unfold process_files. apply bind_preserved; [apply drain_preserved|].
  intros [[|x l]|] w1.
  - apply bind_preserved; [apply R_status|]. intros _ w2. apply R_refl.
  - apply bind_preserved; [apply R_status|]. intros _ w2. apply R_refl.
  - apply R_refl.
Qed.

Lemma process_workitem_exit_preserved w :
  R w (process_workitem_exit E wid jid w).2.
Proof.
  unfold process_workitem_exit.
  apply bind_preserved; [apply R_poll|]. intros [] w1; [apply R_refl|].
  apply bind_preserved; [apply R_refl|]. intros status w2.
  case_bool_decide; [apply R_refl|].
  apply bind_preserved; [apply R_status|]. intros _ w3.
  destruct (query_files_for_workitem E wid jid) as [e|[|f fs]].
  - apply bind_preserved; [apply R_status|]. intros _ w4. apply R_refl.
  - apply bind_preserved; [apply R_status|]. intros _ w4. apply R_refl.
  - apply bind_preserved; [apply R_poll|]. intros [] w4.
    + apply bind_preserved; [apply R_status|]. intros _ w5. apply R_refl.
    + apply bind_preserved; [apply R_count|]. intros _ w5.
      apply bind_preserved; [apply claim_loop_preserved|]. intros [|x l] w6.
      * apply bind_preserved; [apply R_status|]. intros _ w7. apply R_refl.
      * apply process_files_preserved.
Qed.

Lemma process_workitem_preserved w : R w (process_workitem E wid jid w).2.
Proof.
  unfold process_workitem. apply bind_preserved;
    [apply process_workitem_exit_preserved|]. intros e w1. apply R_refl.
Qed.

End Preserved.

(** ** Hoare-style rules for the state monad *)

Lemma satisfies_ret {A} (a : A) w (Q : A -> World -> Prop) :
  Q a w -> satisfies (ret a) w Q.
Proof. done. Qed.

Lemma satisfies_bind {A B} (m : M A) (k : A -> M B) w (Q : B -> World -> Prop) :
  satisfies m w (fun a w1 => satisfies (k a) w1 Q) -> satisfies (bind m k) w Q.
Proof. unfold satisfies, bind. by destruct (m w). Qed.

Lemma satisfies_weaken {A} (m : M A) w (P Q : A -> World -> Prop) :
  satisfies m w P -> (forall a w1, P a w1 -> Q a w1) -> satisfies m w Q.
Proof. unfold satisfies. auto. Qed.

Lemma satisfies_and {A} (m : M A) w (P Q : A -> World -> Prop) :
  satisfies m w P -> satisfies m w Q ->
  satisfies m w (fun a w1 => P a w1 /\ Q a w1).
Proof. unfold satisfies. auto. Qed.

(** ** Effects of the tracker's methods on the work-item table *)

Lemma add_file_workitems wid jid f u d :
  workitems (StateTracker.add_file wid jid f u d) = workitems d.
Proof. unfold StateTracker.add_file. by destruct (files d !! (wid, jid, f)). Qed.

Lemma update_file_status_lookup_ne wid jid f st e ts d k :
  k <> (wid, jid) ->
  workitems (StateTracker.update_file_status wid jid f st e ts d) !! k =
  workitems d !! k.
Proof.
  intros Hk. unfold StateTracker.update_file_status, StateTracker.bump_files_processed.
  destruct (String.eqb st "completed").
  - by rewrite update_workitem_row_lookup_ne, update_file_row_workitems.
  - by rewrite update_file_row_workitems.
Qed.

Lemma update_file_status_is_Some wid jid f st e ts d :
  is_Some (workitems d !! (wid, jid)) ->
  is_Some (workitems (StateTracker.update_file_status wid jid f st e ts d)
             !! (wid, jid)).
Proof.
  intros Hs. unfold StateTracker.update_file_status, StateTracker.bump_files_processed.
  destruct (String.eqb st "completed").
  - rewrite update_workitem_row_lookup, update_file_row_workitems.
    by apply fmap_is_Some.
  - by rewrite update_file_row_workitems.
Qed.

Lemma update_workitem_status_status wid jid st e ts d :
  StateTracker.get_workitem_status wid jid
    (StateTracker.update_workitem_status wid jid st e ts d) =
  (fun _ => st) <$> StateTracker.get_workitem_status wid jid d.
Proof.
  unfold StateTracker.get_workitem_status, StateTracker.update_workitem_status.
  rewrite update_workitem_row_lookup.
  destruct (workitems d !! (wid, jid)) as [r|]; [|done]. simpl.
  destruct (String.eqb st "in_progress"); [done|]. by destruct (_ || _).
Qed.

Lemma update_workitem_status_counters wid jid st e ts d :
  files_processed_of wid jid (StateTracker.update_workitem_status wid jid st e ts d) =
    files_processed_of wid jid d /\
  files_total_of wid jid (StateTracker.update_workitem_status wid jid st e ts d) =
    files_total_of wid jid d.
Proof.
  unfold files_processed_of, files_total_of, StateTracker.update_workitem_status.
  rewrite update_workitem_row_lookup.
  destruct (workitems d !! (wid, jid)) as [r|]; [|done]. simpl.
  destruct (String.eqb st "in_progress"); [done|]. by destruct (_ || _).
Qed.

(** ** The frame of a call *)

Lemma frame_refl wid jid w : frame wid jid w w.
Proof. by repeat split. Qed.

Lemma frame_trans wid jid w1 w2 w3 :
  frame wid jid w1 w2 -> frame wid jid w2 w3 -> frame wid jid w1 w3.
Proof.
  intros (A1 & B1 & C1) (A2 & B2 & C2). repeat split.
  - intros k Hk. by rewrite A2, A1.
  - auto.
  - auto.
Qed.

Lemma frame_poll E wid jid w : frame wid jid w (is_set E w).2.
Proof. repeat split; simpl; auto. by intros ->. Qed.

Lemma frame_status wid jid st e w :
  frame wid jid w
    (write_at (StateTracker.update_workitem_status wid jid st e) w).2.
Proof.
  repeat split; simpl; auto.
  - intros k Hk. unfold StateTracker.update_workitem_status.
    by rewrite update_workitem_row_lookup_ne.
  - intros Hs. unfold StateTracker.update_workitem_status.
    rewrite update_workitem_row_lookup. by apply fmap_is_Some.
Qed.

Lemma frame_count wid jid n w :
  frame wid jid w
    (write (StateTracker.update_workitem_file_count wid jid n) w).2.
Proof.
  repeat split; simpl; auto.
  - intros k Hk. unfold StateTracker.update_workitem_file_count.
    by rewrite update_workitem_row_lookup_ne.
  - intros Hs. unfold StateTracker.update_workitem_file_count.
    rewrite update_workitem_row_lookup. by apply fmap_is_Some.
Qed.

Lemma frame_add wid jid f u w :
  frame wid jid w (write (StateTracker.add_file wid jid f u) w).2.
Proof. repeat split; simpl; auto; by rewrite add_file_workitems. Qed.

Lemma frame_claim wid jid f w : frame wid jid w (claim_file wid jid f w).2.
Proof.
  unfold claim_file.
  pose proof (claim_file_workitems wid jid f (clock w) (db w)) as Hw.
  destruct (StateTracker.claim_file wid jid f (clock w) (db w)) as [b d1].
  simpl in *. repeat split; simpl; auto; by rewrite Hw.
Qed.

Lemma frame_file wid jid f st e w :
  frame wid jid w
    (write_at (StateTracker.update_file_status wid jid f st e) w).2.
Proof.
  repeat split; simpl; auto.
  - intros k Hk. by apply update_file_status_lookup_ne.
  - apply update_file_status_is_Some.
Qed.

Ltac frame_step :=
  intros;
  first [ apply frame_refl | eapply frame_trans; eassumption | apply frame_poll
        | apply frame_status | apply frame_count | apply frame_add
        | apply frame_claim | apply frame_file ].

Lemma claim_loop_frame wid jid fs acc w :
  frame wid jid w (claim_loop wid jid fs acc w).2.
Proof.
  apply claim_loop_preserved; frame_step.
Qed.

Lemma drain_frame E wid jid done ff w :
  frame wid jid w (drain E wid jid done ff w).2.
Proof.
  apply drain_preserved; frame_step.
Qed.

Lemma process_workitem_exit_frame E wid jid w :
  frame wid jid w (process_workitem_exit E wid jid w).2.
Proof.
  apply process_workitem_exit_preserved; frame_step.
Qed.

Lemma process_workitem_exit_quiet E wid jid w :
  no_sigint E -> shutdown_event w = false ->
  shutdown_event (process_workitem_exit E wid jid w).2 = false.
Proof.
  intros Hq.
  apply (process_workitem_exit_preserved E wid jid
           (fun w w' => shutdown_event w = false -> shutdown_event w' = false));
    try (intros; simpl; auto; fail).
  - intros w0. simpl. intros ->. apply Hq.
  - intros f w0. unfold claim_file.
    by destruct (StateTracker.claim_file wid jid f (clock w0) (db w0)).
Qed.
Lemma finish_completed wid jid e w :
  is_Some (workitems (db w) !! (wid, jid)) ->
  StateTracker.get_workitem_status wid jid
    (db (write_at (StateTracker.update_workitem_status wid jid "completed" e) w).2)
  = Some "completed".
Proof.
  intros [r Hr]. simpl. rewrite update_workitem_status_status.
  unfold StateTracker.get_workitem_status. by rewrite Hr.
Qed.

Lemma frame_row wid jid w w' :
  frame wid jid w w' -> is_Some (workitems (db w) !! (wid, jid)) ->
  is_Some (workitems (db w') !! (wid, jid)).
Proof. intros (_ & H & _). exact H. Qed.

Lemma process_files_true E wid jid claimed w :
  is_Some (workitems (db w) !! (wid, jid)) ->
  satisfies (process_files E wid jid claimed) w (fun e w' =>
    exit_value e = true ->
    StateTracker.get_workitem_status wid jid (db w') = Some "completed").
Proof.
  intros Hs. unfold process_files. apply satisfies_bind.
  pose proof (drain_frame E wid jid (as_completed E claimed) [] w) as Hf.
  unfold satisfies at 1.
  destruct (drain E wid jid (as_completed E claimed) [] w) as [[[|x l]|] w1];
    simpl in Hf |- *; [|done|done].
  apply satisfies_bind. intros _. apply finish_completed.
  by eapply frame_row.
Qed.

Lemma process_workitem_exit_true E wid jid w :
  is_Some (workitems (db w) !! (wid, jid)) ->
  satisfies (process_workitem_exit E wid jid) w (fun e w' =>
    exit_value e = true ->
    StateTracker.get_workitem_status wid jid (db w') = Some "completed").
Proof.
  intros Hs. unfold process_workitem_exit.
  apply satisfies_bind. unfold satisfies at 1.
  pose proof (frame_row _ _ _ _ (frame_poll E wid jid w) Hs) as Hs1.
  destruct (is_set E w) as [[] w1]; [done|]. simpl in Hs1 |- *.
  apply satisfies_bind. unfold satisfies at 1. simpl.
  case_bool_decide as Hst; [by intros _|].
  apply satisfies_bind. unfold satisfies at 1.
  pose proof (frame_row _ _ _ _
    (frame_status wid jid "in_progress" None w1) Hs1) as Hs2.
  destruct (write_at _ w1) as [[] w2]. simpl in Hs2 |- *.
  destruct (query_files_for_workitem E wid jid) as [e|[|f fs]].
  - apply satisfies_bind. done.
  - apply satisfies_bind. intros _. by apply finish_completed.
  - apply satisfies_bind. unfold satisfies at 1.
    pose proof (frame_row _ _ _ _ (frame_poll E wid jid w2) Hs2) as Hs3.
    destruct (is_set E w2) as [[] w3]; simpl in Hs3 |- *.
    { apply satisfies_bind. done. }
    apply satisfies_bind. unfold satisfies at 1.
    pose proof (frame_row _ _ _ _
      (frame_count wid jid (Z.of_nat (length (dedupe (f :: fs)))) w3) Hs3) as Hs4.
    destruct (write _ w3) as [[] w4]. simpl in Hs4 |- *.
    apply satisfies_bind. unfold satisfies at 1.
    pose proof (frame_row _ _ _ _
      (claim_loop_frame wid jid (dedupe (f :: fs)) [] w4) Hs4) as Hs5.
    destruct (claim_loop wid jid (dedupe (f :: fs)) [] w4) as [[|x l] w5];
      simpl in Hs5 |- *.
    + apply satisfies_bind. intros _. by apply finish_completed.
    + by apply process_files_true.
Qed.
Lemma process_workitem_unfold E wid jid w :
  process_workitem E wid jid w =
  (exit_value (process_workitem_exit E wid jid w).1,
   (process_workitem_exit E wid jid w).2).
Proof.
  unfold process_workitem, bind. by destruct (process_workitem_exit E wid jid w).
Qed.

Lemma schedule_others E L c w k :
  k ∉ L ->
  workitems (db (schedule E L c w).2) !! k = workitems (db w) !! k.
Proof.
  revert c w. induction L as [|[wid jid] rest IH]; intros c w Hk; [done|].
  apply not_elem_of_cons in Hk as [Hne Hk]. simpl. unfold bind.
  rewrite process_workitem_unfold.
  pose proof (process_workitem_exit_frame E wid jid w) as (Ho & _ & _).
  destruct (process_workitem_exit E wid jid w) as [e w1]. simpl in *.
  destruct (shutdown_event w1 || sigint E (polls w1)); simpl.
  - by apply Ho.
  - rewrite IH by done. simpl. by apply Ho.
Qed.

Lemma schedule_failed_mono E L c w :
  (failed c <= failed (schedule E L c w).1)%nat.
Proof.
  revert c w. induction L as [|[wid jid] rest IH]; intros c w; [done|].
  simpl. unfold bind. rewrite process_workitem_unfold.
  destruct (process_workitem_exit E wid jid w) as [e w1]. simpl.
  destruct (shutdown_event w1 || sigint E (polls w1)); simpl; [done|].
  etrans; [|apply IH]. unfold count. destruct (exit_value e); simpl; lia.
Qed.

Lemma schedule_quiet_completed E L c w :
  no_sigint E -> shutdown_event w = false -> NoDup L ->
  (forall k, k ∈ L -> is_Some (workitems (db w) !! k)) ->
  failed (schedule E L c w).1 = failed c ->
  forall k, k ∈ L ->
    StateTracker.get_workitem_status k.1 k.2 (db (schedule E L c w).2)
    = Some "completed".
Proof.
  intros Hq. revert c w.
  induction L as [|[wid jid] rest IH]; intros c w Hsd Hnd Hrows Hfail k Hk.
  { by apply elem_of_nil in Hk. }
  apply NoDup_cons in Hnd as [Hnin Hnd].
  simpl in Hfail |- *. unfold bind in Hfail |- *.
  rewrite process_workitem_unfold in Hfail |- *.
  pose proof (process_workitem_exit_frame E wid jid w) as (Ho & _ & _).
  pose proof (process_workitem_exit_quiet E wid jid w Hq Hsd) as Hsd1.
  pose proof (process_workitem_exit_true E wid jid w
                (Hrows _ (list_elem_of_here _ _))) as Htrue.
  unfold satisfies in Htrue.
  destruct (process_workitem_exit E wid jid w) as [e w1]. simpl in *.
  rewrite Hsd1, Hq in Hfail |- *. simpl in Hfail |- *.
  set (w2 := mkWorld (db w1) (clock w1) false (S (polls w1))) in *.
  pose proof (schedule_failed_mono E rest (count (exit_value e) c) w2) as Hmono.
  assert (He : exit_value e = true).
  { revert Hmono Hfail. destruct (exit_value e); [done|].
    unfold count. simpl. lia. }
  rewrite He in *.
  assert (Hrows2 : forall k', k' ∈ rest -> is_Some (workitems (db w2) !! k')).
  { intros k' Hk'. simpl. rewrite Ho; [apply Hrows; by right|].
    intros ->. done. }
  apply elem_of_cons in Hk as [->|Hk].
  - unfold StateTracker.get_workitem_status. simpl.
    rewrite schedule_others by done. by apply Htrue.
  - by apply IH.
Qed.
(** ** Scheduler and exit status *)

Lemma elem_of_get_pending_workitems d k :
  k ∈ StateTracker.get_pending_workitems d <->
  exists r, workitems d !! k = Some r /\
            StateTracker.is_pending_status (wi_status r) = true.
Proof.
  unfold StateTracker.get_pending_workitems.
  rewrite merge_sort_Permutation, list_elem_of_fmap. split.
  - intros ([k' r] & -> & Hin). apply list_elem_of_filter in Hin as [Hp Hin].
    apply elem_of_map_to_list in Hin. exists r. split; [done|].
    simpl in Hp. by apply Is_true_true.
  - intros (r & Hr & Hp). exists (k, r). split; [done|].
    apply list_elem_of_filter. split; [by apply Is_true_true|].
    by apply elem_of_map_to_list.
Qed.

Lemma NoDup_get_pending_workitems d :
  NoDup (StateTracker.get_pending_workitems d).
Proof.
  unfold StateTracker.get_pending_workitems.
  rewrite merge_sort_Permutation.
  assert (Hsub : (filter (fun kr : WorkItemKey * WorkItemRow =>
                    Is_true (StateTracker.is_pending_status (wi_status kr.2)))
                    (map_to_list (workitems d))).*1
                 `sublist_of` (map_to_list (workitems d)).*1).
  { apply fmap_sublist, sublist_filter. }
  eapply sublist_NoDup in Hsub; [done|]. apply NoDup_fst_map_to_list.
Qed.

(** C7, as stated, fails: the resolver fails for the only work item, SIGINT
    arrives before the scheduler reads the result, and the run ends with the
    work item 'failed' and exit status 0. *)
Lemma exit_status_zero_with_failed_item :
  ~ exit_status_tells_all env_query_fails_then_sigint world_seeded.
Proof.
  intros [_ H]. apply (H ("w1", "j1")); vm_compute; reflexivity.
Qed.

(** C7, amended. In a run in which no shutdown is signalled, the exit status
    is 0 or 1; it is 0 only if every work item of the run's worklist is
    'completed' when the run ends, and it is 1 whenever some work item is
    'failed' when the run ends. *)
Theorem exit_status_without_shutdown (E : Env) (w : World) :
  no_sigint E ->
  shutdown_event w = false ->
  (forall l, workitems_as_completed E l ≡ₚ l) ->
  ((main E w).1 = 0 \/ (main E w).1 = 1) /\
  ((main E w).1 = 0 ->
   forall k, k ∈ StateTracker.get_pending_workitems (db w) ->
     StateTracker.get_workitem_status k.1 k.2 (db (main E w).2)
     = Some "completed") /\
  (forall k,
     StateTracker.get_workitem_status k.1 k.2 (db (main E w).2) = Some "failed" ->
     (main E w).1 = 1).
Proof.
  intros Hq Hsd Hperm.
  assert (Hzero : (main E w).1 = 0 ->
    forall k, k ∈ StateTracker.get_pending_workitems (db w) ->
      StateTracker.get_workitem_status k.1 k.2 (db (main E w).2)
      = Some "completed").
  { unfold main, bind, read. simpl.
    destruct (StateTracker.get_pending_workitems (db w)) as [|k0 l0] eqn:Hp.
    { intros _ k Hk. by apply elem_of_nil in Hk. }
    rewrite <- Hp. clear k0 l0 Hp.
    set (L := workitems_as_completed E (StateTracker.get_pending_workitems (db w))).
    pose proof (schedule_quiet_completed E L (mkCounters 0 0 0) w Hq Hsd) as Hall.
    destruct (schedule E L (mkCounters 0 0 0) w) as [c w'] eqn:Hs. simpl in *.
    destruct (0 <? failed c)%nat eqn:Hf; simpl; [done|]. intros _ k Hk.
    apply Nat.ltb_ge in Hf. apply Hall.
    - subst L. rewrite Hperm. apply NoDup_get_pending_workitems.
    - intros k'. subst L. rewrite Hperm. intros Hk'.
      apply elem_of_get_pending_workitems in Hk' as (r & -> & _). by eexists.
    - lia.
    - subst L. by rewrite Hperm. }
  assert (Hcode : (main E w).1 = 0 \/ (main E w).1 = 1).
  { unfold main, bind, read. simpl.
    destruct (StateTracker.get_pending_workitems (db w)); [by left|].
    destruct (schedule E _ _ w) as [c w']. simpl.
    destruct (0 <? failed c)%nat; simpl; auto. }
  split; [done|]. split; [done|].
  intros k Hfailed. destruct Hcode as [H0|H1]; [|done]. exfalso.
  destruct (decide (k ∈ StateTracker.get_pending_workitems (db w))) as [Hin|Hnin].
  { rewrite (Hzero H0 k Hin) in Hfailed. discriminate. }
  assert (Hsame : workitems (db (main E w).2) !! k = workitems (db w) !! k).
  { unfold main, bind, read. simpl.
    destruct (StateTracker.get_pending_workitems (db w)) as [|k0 l0] eqn:Hp; [done|].
    rewrite <- Hp in *. clear k0 l0 Hp.
    pose proof (schedule_others E
      (workitems_as_completed E (StateTracker.get_pending_workitems (db w)))
      (mkCounters 0 0 0) w k) as Ho.
    destruct (schedule E _ _ w) as [c w']. simpl in *.
    destruct (0 <? failed c)%nat; simpl; apply Ho; by rewrite Hperm. }
  apply Hnin, elem_of_get_pending_workitems.
  unfold StateTracker.get_workitem_status in Hfailed. destruct k as [wid jid].
  simpl in Hfailed. rewrite Hsame in Hfailed.
  destruct (workitems (db w) !! (wid, jid)) as [r|]; [|done].
  exists r. split; [done|]. injection Hfailed as ->. done.
Qed.
(** ** Early returns of [process_workitem] *)

(** C8. When the event is not set and the stored status is 'completed',
    [process_workitem] returns true by the return of line 590; the database
    and the clock are as before, only the poll of the event is counted. *)
Theorem completed_workitem_is_left_alone (E : Env) (wid jid : string)
    (w : World) :
  shutdown_event w = false ->
  sigint E (polls w) = false ->
  StateTracker.get_workitem_status wid jid (db w) = Some "completed" ->
  process_workitem_exit E wid jid w =
    (AlreadyCompleted, mkWorld (db w) (clock w) false (S (polls w))) /\
  process_workitem E wid jid w =
    (true, mkWorld (db w) (clock w) false (S (polls w))).
Proof.
  intros Hsd Hsig Hst.
  assert (He : process_workitem_exit E wid jid w =
    (AlreadyCompleted, mkWorld (db w) (clock w) false (S (polls w)))).
  { unfold process_workitem_exit, bind, is_set, read.
    rewrite Hsd, Hsig. simpl. rewrite Hst. done. }
  split; [done|]. rewrite process_workitem_unfold, He. done.
Qed.

(** C9, as stated, fails: a work item that an earlier run left 'failed' with
    files_total = 3 and files_processed = 1 keeps both numbers when the
    resolver now returns no file. *)
Lemma empty_resolution_keeps_counters :
  ~ empty_resolution_zeroes env_empty "w1" "j1" world_after_partial_run.
Proof.
  assert (Ht : files_total_of "w1" "j1"
                 (db (process_workitem env_empty "w1" "j1"
                        world_after_partial_run).2) = Some 3)
    by (vm_compute; reflexivity).
  intros (_ & _ & H & _). rewrite Ht in H. discriminate.
Qed.

(** C9, amended. For a work item that is not yet 'completed', with no
    shutdown seen at the start, whose resolution succeeds with an empty list,
    [process_workitem] sets the status to 'completed' and returns true; no
    file row is written, files_processed keeps its stored value and a stored
    files_total of 0 stays 0, so a row seeded with both counters at 0 ends
    with both at 0. *)
Theorem empty_resolution_completes (E : Env) (wid jid : string) (w : World)
    (r : WorkItemRow) :
  shutdown_event w = false ->
  sigint E (polls w) = false ->
  workitems (db w) !! (wid, jid) = Some r ->
  wi_status r <> "completed" ->
  query_files_for_workitem E wid jid = inr [] ->
  exists w' r',
    process_workitem_exit E wid jid w = (NoFiles, w') /\
    process_workitem E wid jid w = (true, w') /\
    workitems (db w') !! (wid, jid) = Some r' /\
    wi_status r' = "completed" /\
    wi_files_processed r' = wi_files_processed r /\
    (wi_files_total r = 0 -> wi_files_total r' = 0) /\
    files (db w') = files (db w).
Proof.
  intros Hsd Hsig Hr Hst Hq.
  assert (Hne : StateTracker.get_workitem_status wid jid (db w) <> Some "completed").
  { unfold StateTracker.get_workitem_status. rewrite Hr. simpl. congruence. }
  assert (He : exists w',
    process_workitem_exit E wid jid w = (NoFiles, w') /\
    db w' = StateTracker.update_workitem_status wid jid "completed" None
              (S (clock w))
              (StateTracker.update_workitem_status wid jid "in_progress" None
                 (clock w) (db w))).
  { eexists. unfold process_workitem_exit, bind, is_set, read.
    rewrite Hsd, Hsig. simpl. rewrite bool_decide_eq_false_2 by done.
    rewrite Hq. simpl. split; reflexivity. }
  destruct He as (w' & He & Hdb).
  exists w'. eexists. split; [exact He|].
  split; [by rewrite process_workitem_unfold, He|].
  rewrite Hdb. unfold StateTracker.update_workitem_status.
  rewrite !update_workitem_row_lookup, !update_workitem_row_files, Hr. simpl.
  done.
Qed.
(** ** De-duplication *)

Lemma key_in_true k (acc : list (string * FileMetadata)) :
  key_in k acc = true <-> k ∈ acc.*1.
Proof.
  unfold key_in. rewrite existsb_exists, list_elem_of_fmap. split.
  - intros ([k' f] & Hin & Heq). apply String.eqb_eq in Heq. simpl in Heq.
    subst. exists (k, f). split; [done|]. by apply list_elem_of_In.
  - intros ([k' f] & -> & Hin). exists (k', f). split.
    + by apply list_elem_of_In.
    + apply String.eqb_refl.
Qed.

Lemma dedupe_loop_inv fs acc n :
  Forall (fun kv => kv.1 = basename (filename kv.2)) acc ->
  NoDup acc.*1 ->
  exists extra,
    (dedupe_loop fs acc n).1 = (acc ++ extra)%list /\
    Forall (fun kv => kv.1 = basename (filename kv.2)) (acc ++ extra)%list /\
    NoDup (acc ++ extra)%list.*1 /\
    extra.*2 `sublist_of` fs /\
    (forall f, f ∈ fs -> basename (filename f) ∈ (acc ++ extra)%list.*1) /\
    (forall pre f post, fs = (pre ++ f :: post)%list ->
       basename (filename f) ∉ acc.*1 ->
       basename (filename f) ∉ (fun g => basename (filename g)) <$> pre ->
       f ∈ extra.*2).
Proof.
  revert acc n. induction fs as [|f rest IH]; intros acc n Hk Hnd.
  - exists []. rewrite app_nil_r. simpl. repeat split; try done.
    + intros f Hf. by apply elem_of_nil in Hf.
    + intros [|??] ???; discriminate.
  - simpl. destruct (key_in (basename (filename f)) acc) eqn:Hin.
    + apply key_in_true in Hin.
      destruct (IH acc (S n) Hk Hnd) as (extra & He & Hk' & Hnd' & Hsub & Hall & Hfirst).
      exists extra. repeat split; try done.
      * by apply sublist_cons.
      * intros g Hg. apply elem_of_cons in Hg as [->|Hg]; [|by apply Hall].
        rewrite fmap_app. apply elem_of_app. by left.
      * intros [|g pre] f' post Heq Hnacc Hnpre.
        -- injection Heq as -> ->. done.
        -- injection Heq as -> ->. eapply Hfirst; [done|done|].
           rewrite fmap_cons in Hnpre. by apply not_elem_of_cons in Hnpre as [_ ?].
    + assert (Hnin : basename (filename f) ∉ acc.*1).
      { intros H. apply key_in_true in H. congruence. }
      destruct (IH (acc ++ [(basename (filename f), f)])%list n)
        as (extra & He & Hk' & Hnd' & Hsub & Hall & Hfirst).
      { apply Forall_app. split; [done|]. by apply Forall_singleton. }
      { rewrite fmap_app. apply NoDup_app. split; [done|]. split.
        - intros x Hx Hx'. simpl in Hx'. apply list_elem_of_singleton in Hx'.
          by subst.
        - simpl. apply NoDup_singleton. }
      exists ((basename (filename f), f) :: extra).
      rewrite <- app_assoc in He, Hk', Hnd', Hall. simpl in He, Hk', Hnd', Hall.
      repeat split; try done.
      * simpl. by apply sublist_skip.
      * intros g Hg. apply elem_of_cons in Hg as [->|Hg]; [|by apply Hall].
        rewrite fmap_app. apply elem_of_app. right. simpl. by left.
      * intros [|g pre] f' post Heq Hnacc Hnpre.
        -- injection Heq as -> ->. simpl. by left.
        -- injection Heq as -> ->. simpl. right.
           rewrite fmap_cons in Hnpre.
           apply not_elem_of_cons in Hnpre as [Hne Hnpre].
           eapply Hfirst; [done| |done].
           rewrite fmap_app. simpl. intros H. apply elem_of_app in H as [H|H]; [done|].
           apply list_elem_of_singleton in H. done.
Qed.

(** What the loop of lines 609-625 keeps: one entry per base name, taken
    from the list in its order, and for every base name its first entry. *)
Lemma dedupe_by_basename fs :
  NoDup ((fun f => basename (filename f)) <$> dedupe fs) /\
  dedupe fs `sublist_of` fs /\
  (forall f, f ∈ fs ->
     basename (filename f) ∈ (fun g => basename (filename g)) <$> dedupe fs) /\
  (forall pre f post, fs = (pre ++ f :: post)%list ->
     basename (filename f) ∉ (fun g => basename (filename g)) <$> pre ->
     f ∈ dedupe fs).
Proof.
  destruct (dedupe_loop_inv fs [] 0%nat) as (extra & He & Hk & Hnd & Hsub & Hall & Hfirst).
  { constructor. } { constructor. }
  simpl in *. unfold dedupe. rewrite He.
  assert (Hkeys : extra.*1 = (fun g => basename (filename g)) <$> extra.*2).
  { clear -Hk. induction Hk as [|[k f] l Hkf Hl IH]; [done|].
    rewrite !fmap_cons. simpl in *. by f_equal. }
  rewrite <- Hkeys. repeat split; try done.
  intros pre f post Heq Hpre. eapply Hfirst; [done| |done].
  intros H. by apply elem_of_nil in H.
Qed.

Lemma dedupe_NoDup_filename fs : NoDup (filename <$> dedupe fs).
Proof.
  destruct (dedupe_by_basename fs) as [Hnd _].
  rewrite (list_fmap_compose filename basename) in Hnd.
  by apply NoDup_fmap_1 in Hnd.
Qed.
(** ** The claim loop *)

Lemma filter_cons_bool {A} (p : A -> bool) x (l : list A) :
  filter (fun y => p y = true) (x :: l) =
  if p x then x :: filter (fun y => p y = true) l
  else filter (fun y => p y = true) l.
Proof.
  rewrite filter_cons. destruct (p x) eqn:Hp; by case_decide.
Qed.

Lemma claim_loop_cons wid jid f rest acc w :
  claim_loop wid jid (f :: rest) acc w =
  let d1 := StateTracker.add_file wid jid (filename f) (source_uri f) (db w) in
  if bool_decide (StateTracker.get_file_status wid jid (filename f) d1
                  = Some "completed")
  then claim_loop wid jid rest acc (with_db w d1)
  else
    claim_loop wid jid rest
      (if (StateTracker.claim_file wid jid (filename f) (clock w) d1).1
       then acc ++ [f] else acc)%list
      (mkWorld (StateTracker.claim_file wid jid (filename f) (clock w) d1).2
         (S (clock w)) (shutdown_event w) (polls w)).
Proof.
  cbn [claim_loop]. unfold bind, write, read, claim_file. simpl.
  case_bool_decide; [done|].
  by destruct (StateTracker.claim_file _ _ _ _ _) as [[] d2].
Qed.

Lemma claim_loop_spec wid jid fs acc w d0 :
  NoDup (filename <$> fs) ->
  (forall g, g ∈ fs ->
     files (db w) !! (wid, jid, filename g) = files d0 !! (wid, jid, filename g)) ->
  (claim_loop wid jid fs acc w).1 =
    (acc ++ filter (fun f => will_claim wid jid d0 f = true) fs)%list /\
  workitems (db (claim_loop wid jid fs acc w).2) = workitems (db w).
Proof.
  revert acc w. induction fs as [|f rest IH]; intros acc w Hnd Hsame.
  { simpl. by rewrite app_nil_r. }
  rewrite fmap_cons in Hnd. apply NoDup_cons in Hnd as [Hnin Hnd].
  assert (Hrest : forall d', 
    (forall k, k <> (wid, jid, filename f) -> files d' !! k = files (db w) !! k) ->
    forall g, g ∈ rest ->
      files d' !! (wid, jid, filename g) = files d0 !! (wid, jid, filename g)).
  { intros d' Hd' g Hg. rewrite Hd'; [apply Hsame; by right|].
    intros [= Heq]. apply Hnin. rewrite <- Heq. by apply list_elem_of_fmap_2. }
  pose proof (Hsame f (list_elem_of_here _ _)) as Hf.
  assert (Hwc : will_claim wid jid d0 f =
    match files (db w) !! (wid, jid, filename f) with
    | None => true
    | Some r => String.eqb (fr_status r) "pending" || String.eqb (fr_status r) "failed"
    end).
  { unfold will_claim, StateTracker.get_file_status. rewrite <- Hf.
    by destruct (files (db w) !! (wid, jid, filename f)). }
  rewrite filter_cons_bool, Hwc, claim_loop_cons. clear Hwc. cbv zeta.
  unfold StateTracker.add_file, StateTracker.get_file_status.
  destruct (files (db w) !! (wid, jid, filename f)) as [r|] eqn:Hr.
  - rewrite Hr. cbn [fmap option_fmap option_map].
    case_bool_decide as Hc.
    + injection Hc as Hc. rewrite Hc. cbn [String.eqb orb]. simpl.
      destruct (IH acc (with_db w (db w))) as [H1 H2];
        [done|by apply Hrest|]. done.
    + unfold StateTracker.claim_file. rewrite Hr.
      destruct (String.eqb (fr_status r) "pending" || String.eqb (fr_status r) "failed")
        eqn:Ht; cbn [fst snd].
      * match goal with |- context [claim_loop wid jid rest ?a ?w1] =>
          destruct (IH a w1) as [H1 H2]; [done| |] end.
        { apply Hrest. intros k Hk. simpl. by rewrite lookup_insert_ne. }
        split; [|exact H2]. rewrite H1, <- app_assoc. done.
      * match goal with |- context [claim_loop wid jid rest ?a ?w1] =>
          destruct (IH a w1) as [H1 H2]; [done|by apply Hrest|] end.
        done.
  - cbn [files with_files].
    rewrite lookup_insert_eq. cbn [fmap option_fmap option_map fr_status].
    rewrite bool_decide_eq_false_2 by discriminate.
    erewrite claim_file_hit;
      [|cbn [files with_files]; apply lookup_insert_eq|by left].
    cbn [fst snd].
    match goal with |- context [claim_loop wid jid rest ?a ?w1] =>
      destruct (IH a w1) as [H1 H2]; [done| |] end.
    { apply Hrest. intros k Hk. simpl. by rewrite !lookup_insert_ne. }
    split; [|exact H2]. rewrite H1, <- app_assoc. done.
Qed.
(** ** The drain loop *)

Lemma drain_cons E wid jid f rest ff w :
  drain E wid jid (f :: rest) ff w =
  if shutdown_event w || sigint E (polls w)
  then (None,
        (write_at (StateTracker.update_workitem_status wid jid "pending"
                     (Some "Shutdown requested mid-processing"))
           (is_set E w).2).2)
  else if (reupload_file E f).1
  then drain E wid jid rest ff
         (write_at (StateTracker.update_file_status wid jid (filename f)
                      "completed" None) (is_set E w).2).2
  else drain E wid jid rest (ff ++ [filename f])%list
         (write_at (StateTracker.update_file_status wid jid (filename f)
                      "failed" (reupload_file E f).2) (is_set E w).2).2.
Proof.
  cbn [drain]. unfold bind. cbn [is_set fst snd].
  destruct (shutdown_event w || sigint E (polls w)); [done|].
  by destruct (reupload_file E f) as [[] err].
Qed.

Lemma update_file_status_files_ne wid jid f st e ts d k :
  k <> (wid, jid, f) ->
  files (StateTracker.update_file_status wid jid f st e ts d) !! k = files d !! k.
Proof.
  intros Hk. unfold StateTracker.update_file_status, StateTracker.bump_files_processed.
  destruct (String.eqb st "completed");
    rewrite ?update_workitem_row_files; by apply update_file_row_lookup_ne.
Qed.

Lemma update_file_status_total wid jid f st e ts d :
  files_total_of wid jid (StateTracker.update_file_status wid jid f st e ts d) =
  files_total_of wid jid d.
Proof.
  unfold files_total_of, StateTracker.update_file_status,
    StateTracker.bump_files_processed.
  destruct (String.eqb st "completed");
    rewrite ?update_workitem_row_lookup, update_file_row_workitems; [|done].
  by destruct (workitems d !! (wid, jid)).
Qed.

(** The loop writes no row of a file it was not handed. *)
Lemma drain_files_other E wid jid done ff w fname :
  fname ∉ filename <$> done ->
  files (db (drain E wid jid done ff w).2) !! (wid, jid, fname) =
  files (db w) !! (wid, jid, fname).
Proof.
  revert ff w. induction done as [|f rest IH]; intros ff w Hn; [done|].
  rewrite fmap_cons in Hn. apply not_elem_of_cons in Hn as [Hne Hn].
  rewrite drain_cons.
  destruct (shutdown_event w || sigint E (polls w)).
  - simpl. unfold StateTracker.update_workitem_status.
    by rewrite update_workitem_row_files.
  - destruct (reupload_file E f).1; rewrite IH by done; simpl;
      apply update_file_status_files_ne; congruence.
Qed.

(** Counting in the loop: files_total is not written; every completion
    handled either adds one to files_processed or one name to
    [failed_files]. *)
Lemma drain_counts E wid jid done ff w fp ft :
  files_processed_of wid jid (db w) = Some fp ->
  files_total_of wid jid (db w) = Some ft ->
  exists fp',
    files_processed_of wid jid (db (drain E wid jid done ff w).2) = Some fp' /\
    files_total_of wid jid (db (drain E wid jid done ff w).2) = Some ft /\
    fp <= fp' <= fp + Z.of_nat (length done) /\
    (forall ff', (drain E wid jid done ff w).1 = Some ff' ->
       fp' + Z.of_nat (length ff') =
       fp + Z.of_nat (length done) + Z.of_nat (length ff)).
Proof.
  revert ff w fp. induction done as [|f rest IH]; intros ff w fp Hfp Hft.
  { exists fp. simpl. repeat split; try done; try lia.
    intros ff' [= <-]. lia. }
  rewrite drain_cons.
  destruct (shutdown_event w || sigint E (polls w)).
  - exists fp. simpl.
    destruct (update_workitem_status_counters wid jid "pending"
      (Some "Shutdown requested mid-processing") (clock w) (db w)) as [-> ->].
    repeat split; try done; simpl length; lia.
  - destruct (reupload_file E f) as [[] err]; cbn [fst snd].
    + destruct (IH ff (write_at (StateTracker.update_file_status wid jid
                 (filename f) "completed" None) (is_set E w).2).2 (fp + 1))
        as (fp' & H1 & H2 & H3 & H4).
      { simpl.
        rewrite update_file_status_processed. by rewrite Hfp. }
      { simpl. by rewrite update_file_status_total. }
      exists fp'. repeat split; try done; simpl length; try lia.
      intros ff' Hff'. specialize (H4 ff' Hff'). lia.
    + destruct (IH (ff ++ [filename f])%list
                 (write_at (StateTracker.update_file_status wid jid
                 (filename f) "failed" err) (is_set E w).2).2 fp)
        as (fp' & H1 & H2 & H3 & H4).
      { simpl.
        rewrite update_file_status_processed. by rewrite Hfp. }
      { simpl. by rewrite update_file_status_total. }
      exists fp'. repeat split; try done; simpl length; try lia.
      intros ff' Hff'. specialize (H4 ff' Hff'). rewrite length_app in H4.
      simpl in H4. lia.
Qed.


Lemma drain_cancelled_inv E wid jid done ff w w' :
  drain E wid jid done ff w = (None, w') ->
  exists pre f post ff1 w1,
    done = (pre ++ f :: post)%list /\
    drain E wid jid pre ff w = (Some ff1, w1) /\
    (is_set E w1).1 = true /\
    w' = (write_at (StateTracker.update_workitem_status wid jid "pending"
                      (Some "Shutdown requested mid-processing"))
            (is_set E w1).2).2.
Proof.
  revert ff w. induction done as [|g rest IH]; intros ff w Hd; [discriminate|].
  rewrite drain_cons in Hd.
  destruct (shutdown_event w || sigint E (polls w)) eqn:Hs.
  - injection Hd as <-. exists [], g, rest, ff, w. done.
  - destruct (reupload_file E g).1 eqn:Hg.
    + apply IH in Hd as (pre & f & post & ff1 & w1 & -> & Hpre & Hset & ->).
      exists (g :: pre), f, post, ff1, w1. repeat split; try done.
      by rewrite drain_cons, Hs, Hg.
    + apply IH in Hd as (pre & f & post & ff1 & w1 & -> & Hpre & Hset & ->).
      exists (g :: pre), f, post, ff1, w1. repeat split; try done.
      by rewrite drain_cons, Hs, Hg.
Qed.
(** ** Shutdown while draining *)









Lemma update_workitem_status_pending wid jid e ts d r :
  workitems d !! (wid, jid) = Some r ->
  workitems (StateTracker.update_workitem_status wid jid "pending" e ts d)
    !! (wid, jid) =
  Some (mkWorkItemRow (wi_workitem_name r) "pending" (wi_files_total r)
          (wi_files_processed r) e (wi_started_at r) (wi_completed_at r)).
Proof.
  intros Hr. unfold StateTracker.update_workitem_status.
  by rewrite update_workitem_row_lookup, Hr.
Qed.

(** What the return of line 681 leaves, seen from the start of the
    dispatch. *)
Lemma process_files_cancelled E wid jid claimed w :
  (process_files E wid jid claimed w).1 = CancelledMidProcessing ->
  let w' := (process_files E wid jid claimed w).2 in
  shutdown_event w' = true /\
  (is_Some (workitems (db w) !! (wid, jid)) ->
   exists r', workitems (db w') !! (wid, jid) = Some r' /\
              wi_status r' = "pending" /\
              wi_error_message r' = Some "Shutdown requested mid-processing") /\
  (forall fname, fname ∉ filename <$> as_completed E claimed ->
     files (db w') !! (wid, jid, fname) = files (db w) !! (wid, jid, fname)).
Proof.
  unfold process_files, bind.
  pose proof (drain_files_other E wid jid (as_completed E claimed) [] w) as Hother.
  destruct (drain E wid jid (as_completed E claimed) [] w) as [[[|x l]|] w1] eqn:Hd;
    simpl; try discriminate.
  intros _. simpl in Hother.
  apply drain_cancelled_inv in Hd as (pre & f & post & ff1 & w0 & Hl & Hpre & Hset & ->).
  split; [|split].
  - simpl in *. done.
  - intros Hs.
    pose proof (drain_frame E wid jid pre [] w) as (_ & Hrow & _).
    rewrite Hpre in Hrow. simpl in Hrow. destruct (Hrow Hs) as [r0 Hr0].
    eexists. split.
    + simpl. by apply update_workitem_status_pending.
    + done.
  - done.
Qed.



(** ** Counters *)

Lemma filter_lengths_le {A} (p q : A -> bool) (l : list A) :
  (forall x, x ∈ l -> p x = true -> q x = false) ->
  (length (filter (fun x => p x = true) l)
   + length (filter (fun x => q x = true) l) <= length l)%nat.
Proof.
  induction l as [|x l IH]; intros H; [done|].
  rewrite !filter_cons_bool.
  assert (IH' := IH (fun y Hy => H y (list_elem_of_further _ _ _ Hy))).
  pose proof (H x (list_elem_of_here _ _)) as Hx.
  destruct (p x); [rewrite Hx by done|destruct (q x)]; simpl; lia.
Qed.

Lemma filter_lengths_eq {A} (p q : A -> bool) (l : list A) :
  (forall x, x ∈ l -> p x = true -> q x = false) ->
  (forall x, x ∈ l -> p x = true \/ q x = true) ->
  (length (filter (fun x => p x = true) l)
   + length (filter (fun x => q x = true) l) = length l)%nat.
Proof.
  induction l as [|x l IH]; intros H H'; [done|].
  rewrite !filter_cons_bool.
  assert (IH' := IH (fun y Hy => H y (list_elem_of_further _ _ _ Hy))
                    (fun y Hy => H' y (list_elem_of_further _ _ _ Hy))).
  pose proof (H x (list_elem_of_here _ _)) as Hx.
  pose proof (H' x (list_elem_of_here _ _)) as Hx'.
  destruct (p x); [rewrite Hx by done|destruct (q x)]; simpl; try lia.
Qed.

Lemma stored_completed_not_claimed wid jid d f :
  stored_completed wid jid d f = true -> will_claim wid jid d f = false.
Proof.
  unfold stored_completed, will_claim. intros H.
  apply bool_decide_eq_true in H. by rewrite H.
Qed.

Lemma update_workitem_file_count_spec wid jid n d :
  files (StateTracker.update_workitem_file_count wid jid n d) = files d /\
  files_processed_of wid jid (StateTracker.update_workitem_file_count wid jid n d)
    = files_processed_of wid jid d /\
  files_total_of wid jid (StateTracker.update_workitem_file_count wid jid n d)
    = (fun _ => n) <$> files_total_of wid jid d.
Proof.
  unfold StateTracker.update_workitem_file_count, files_processed_of, files_total_of.
  rewrite update_workitem_row_files, update_workitem_row_lookup.
  by destruct (workitems d !! (wid, jid)).
Qed.

Lemma update_workitem_status_spec wid jid st e ts d :
  files (StateTracker.update_workitem_status wid jid st e ts d) = files d /\
  files_processed_of wid jid (StateTracker.update_workitem_status wid jid st e ts d)
    = files_processed_of wid jid d /\
  files_total_of wid jid (StateTracker.update_workitem_status wid jid st e ts d)
    = files_total_of wid jid d.
Proof.
  split; [|apply update_workitem_status_counters].
  unfold StateTracker.update_workitem_status. apply update_workitem_row_files.
Qed.

Lemma process_files_counters E wid jid claimed w fp ft :
  length (as_completed E claimed) = length claimed ->
  files_processed_of wid jid (db w) = Some fp ->
  files_total_of wid jid (db w) = Some ft ->
  satisfies (process_files E wid jid claimed) w (fun e w' =>
    exists fp',
      files_processed_of wid jid (db w') = Some fp' /\
      files_total_of wid jid (db w') = Some ft /\
      fp <= fp' <= fp + Z.of_nat (length claimed) /\
      (e = Processed -> fp' = fp + Z.of_nat (length claimed)) /\
      e <> NothingClaimed /\ e <> NoFiles).
Proof.
  intros Hlen Hfp Hft. unfold process_files. apply satisfies_bind.
  unfold satisfies at 1.
  destruct (drain_counts E wid jid (as_completed E claimed) [] w fp ft Hfp Hft)
    as (fp' & H1 & H2 & H3 & H4).
  rewrite Hlen in H3, H4.
  destruct (drain E wid jid (as_completed E claimed) [] w) as [[[|x l]|] w1];
    simpl in H1, H2, H4 |- *.
  - apply satisfies_bind. unfold satisfies. simpl.
    destruct (update_workitem_status_spec wid jid "completed" None (clock w1) (db w1))
      as (_ & -> & ->).
    exists fp'. specialize (H4 [] eq_refl). simpl in H4.
    repeat split; try done; lia.
  - apply satisfies_bind. unfold satisfies. simpl.
    destruct (update_workitem_status_spec wid jid "failed"
                (Some (failure_message (x :: l))) (clock w1) (db w1))
      as (_ & -> & ->).
    exists fp'. repeat split; try done; lia.
  - unfold satisfies. simpl. exists fp'. repeat split; try done; lia.
Qed.

Lemma process_workitem_exit_counters E wid jid w fp ft :
  (forall l, length (as_completed E l) = length l) ->
  files_processed_of wid jid (db w) = Some fp ->
  files_total_of wid jid (db w) = Some ft ->
  fp <= ft ->
  (forall fs, query_files_for_workitem E wid jid = inr fs ->
     counters_consistent wid jid (dedupe fs) (db w)) ->
  satisfies (process_workitem_exit E wid jid) w (fun e w' =>
    exists fp' ft',
      files_processed_of wid jid (db w') = Some fp' /\
      files_total_of wid jid (db w') = Some ft' /\
      fp' <= ft' /\
      (e = NothingClaimed \/ e = Processed -> fp' = ft') /\
      (e = NoFiles -> ft = 0 -> fp' = ft')).
Proof.
  intros Hlen Hfp Hft Hle Hcons. unfold process_workitem_exit.
  apply satisfies_bind. unfold satisfies at 1.
  assert (D1 : db (is_set E w).2 = db w) by done.
  destruct (is_set E w) as [[] w1]; simpl in D1 |- *.
  { unfold satisfies. simpl. rewrite D1. exists fp, ft. repeat split; try done; by intros [|]. }
  apply satisfies_bind. unfold satisfies at 1. simpl.
  case_bool_decide as Hst.
  { unfold satisfies. simpl. rewrite D1. exists fp, ft. repeat split; try done; by intros [|]. }
  apply satisfies_bind. unfold satisfies at 1.
  destruct (update_workitem_status_spec wid jid "in_progress" None (clock w1) (db w1))
    as (F2 & P2 & T2).
  change (StateTracker.update_workitem_status wid jid "in_progress" None
            (clock w1) (db w1))
    with (db (write_at (StateTracker.update_workitem_status wid jid
                          "in_progress" None) w1).2) in F2, P2, T2.
  destruct (write_at _ w1) as [[] w2]. simpl in F2, P2, T2 |- *.
  rewrite D1 in F2, P2, T2. rewrite Hfp in P2. rewrite Hft in T2.
  destruct (query_files_for_workitem E wid jid) as [e|[|f fs]] eqn:Hq.
  { apply satisfies_bind. unfold satisfies. simpl.
    destruct (update_workitem_status_spec wid jid "failed"
                (Some ("Kusto query failed: " ++ e)) (clock w2) (db w2))
      as (_ & -> & ->).
    exists fp, ft. repeat split; try done; by intros [|]. }
  { apply satisfies_bind. unfold satisfies. simpl.
    destruct (update_workitem_status_spec wid jid "completed" None (clock w2) (db w2))
      as (_ & -> & ->).
    exists fp, ft. repeat split; try done.
    - by intros [|].
    - intros _ ->. destruct (Hcons [] eq_refl) as [Hc _].
      rewrite Hfp in Hc. by injection Hc. }
  destruct (Hcons _ eq_refl) as [Hcount Hstat].
  set (U := dedupe (f :: fs)) in *.
  rewrite Hfp in Hcount. injection Hcount as Hcount.
  apply satisfies_bind. unfold satisfies at 1.
  assert (D3 : db (is_set E w2).2 = db w2) by done.
  destruct (is_set E w2) as [[] w3]; simpl in D3 |- *.
  { apply satisfies_bind. unfold satisfies. simpl.
    destruct (update_workitem_status_spec wid jid "pending" None (clock w3) (db w3))
      as (_ & -> & ->).
    rewrite D3. exists fp, ft. repeat split; try done; by intros [|]. }
  apply satisfies_bind. unfold satisfies at 1.
  destruct (update_workitem_file_count_spec wid jid (Z.of_nat (length U)) (db w3))
    as (F4 & P4 & T4).
  change (StateTracker.update_workitem_file_count wid jid (Z.of_nat (length U))
            (db w3))
    with (db (write (StateTracker.update_workitem_file_count wid jid
                       (Z.of_nat (length U))) w3).2) in F4, P4, T4.
  destruct (write _ w3) as [[] w4]. simpl in F4, P4, T4 |- *.
  rewrite D3 in F4, P4, T4. rewrite F2 in F4. rewrite P2 in P4.
  rewrite T2 in T4. simpl in T4.
  apply satisfies_bind. unfold satisfies at 1.
  destruct (claim_loop_spec wid jid U [] w4 (db w))
    as [Hcl Hwi].
  { apply dedupe_NoDup_filename. }
  { intros g _. by rewrite F4. }
  destruct (claim_loop wid jid U [] w4) as [claimed w5].
  simpl in Hcl, Hwi |- *.
  assert (P5 : files_processed_of wid jid (db w5) = Some fp).
  { unfold files_processed_of. rewrite Hwi. exact P4. }
  assert (T5 : files_total_of wid jid (db w5) = Some (Z.of_nat (length U))).
  { unfold files_total_of. rewrite Hwi. exact T4. }
  pose proof (filter_lengths_le (stored_completed wid jid (db w))
                (will_claim wid jid (db w)) U
                (fun x _ => stored_completed_not_claimed wid jid (db w) x)) as Hsum.
  pose proof (filter_lengths_eq (stored_completed wid jid (db w))
                (will_claim wid jid (db w)) U
                (fun x _ => stored_completed_not_claimed wid jid (db w) x)
                (proj1 (Forall_forall _ _) Hstat)) as Hall.
  rewrite <- Hcl in Hsum, Hall.
  destruct claimed as [|c0 cl].
  { apply satisfies_bind. unfold satisfies. simpl.
    destruct (update_workitem_status_spec wid jid "completed" None (clock w5) (db w5))
      as (_ & -> & ->).
    rewrite P5, T5. eexists _, _. split; [done|]. split; [done|].
    simpl in Hall. repeat split; try done; lia. }
  eapply satisfies_weaken; [by apply process_files_counters|].
  intros e w' (fp' & Hp' & Ht' & Hb & Hproc & Hn1 & Hn2).
  exists fp', (Z.of_nat (length U)). repeat split; try done; try lia.
  intros [? | ->]; [done|]. rewrite Hproc by done. lia.
Qed.

(** C2, amended. Let the stored files_processed of a work item not exceed
    its files_total and, whenever its files resolve, be the number of the
    de-duplicated resolved files stored 'completed', none of these files
    being stored 'in_progress'.  Then files_processed <= files_total holds in
    the row at every return of [process_workitem], the return on shutdown
    after any number of drained completions included; and when the call sets
    the status to 'completed' after the claim loop (nothing claimed, or all
    claimed files transferred) files_processed equals files_total.  On the
    path for an empty resolved list this holds when the stored files_total
    is 0. *)
Theorem counters_after_processing (E : Env) (wid jid : string) (w : World)
    (fp ft : Z) :
  (forall l, as_completed E l ≡ₚ l) ->
  files_processed_of wid jid (db w) = Some fp ->
  files_total_of wid jid (db w) = Some ft ->
  fp <= ft ->
  (forall fs, query_files_for_workitem E wid jid = inr fs ->
     counters_consistent wid jid (dedupe fs) (db w)) ->
  exists fp' ft',
    files_processed_of wid jid (db (process_workitem_exit E wid jid w).2)
      = Some fp' /\
    files_total_of wid jid (db (process_workitem_exit E wid jid w).2)
      = Some ft' /\
    fp' <= ft' /\
    ((process_workitem_exit E wid jid w).1 = NothingClaimed \/
     (process_workitem_exit E wid jid w).1 = Processed -> fp' = ft') /\
    ((process_workitem_exit E wid jid w).1 = NoFiles -> ft = 0 -> fp' = ft').
Proof.
  intros Hperm Hfp Hft Hle Hcons.
  apply (process_workitem_exit_counters E wid jid w fp ft); try done.
  intros l. by rewrite Hperm.
Qed.

(** C2, as stated, fails: a run cancelled while draining leaves two claimed
    files 'in_progress'; the resumed call claims nothing and sets the work
    item 'completed' with files_processed = 1 and files_total = 3. *)
Lemma completed_with_files_in_flight :
  ~ completed_means_all_processed env_resume "w1" "j1" world_after_cancelled_run.
Proof.
  assert (He : (process_workitem_exit env_resume "w1" "j1"
                  world_after_cancelled_run).1 = NothingClaimed)
    by (vm_compute; reflexivity).
  assert (Hp : files_processed_of "w1" "j1"
                 (db (process_workitem_exit env_resume "w1" "j1"
                        world_after_cancelled_run).2) = Some 1)
    by (vm_compute; reflexivity).
  assert (Ht : files_total_of "w1" "j1"
                 (db (process_workitem_exit env_resume "w1" "j1"
                        world_after_cancelled_run).2) = Some 3)
    by (vm_compute; reflexivity).
  intros [_ H]. specialize (H (or_intror (or_introl He))).
  rewrite Hp, Ht in H. discriminate.
Qed.
(** C2 at work: the first processing of a seeded work item with three
    files. *)
Lemma counters_after_processing_witness :
  exists fp' ft',
    files_processed_of "w1" "j1"
      (db (process_workitem_exit env_resume "w1" "j1" world_seeded).2) = Some fp' /\
    files_total_of "w1" "j1"
      (db (process_workitem_exit env_resume "w1" "j1" world_seeded).2) = Some ft' /\
    fp' <= ft' /\
    ((process_workitem_exit env_resume "w1" "j1" world_seeded).1 = NothingClaimed \/
     (process_workitem_exit env_resume "w1" "j1" world_seeded).1 = Processed ->
     fp' = ft') /\
    ((process_workitem_exit env_resume "w1" "j1" world_seeded).1 = NoFiles ->
     0 = 0 -> fp' = ft').
Proof.
  apply (counters_after_processing env_resume "w1" "j1" world_seeded 0 0).
  - reflexivity.
  - vm_compute. reflexivity.
  - vm_compute. reflexivity.
  - lia.
  - intros fs [= <-].
    replace (dedupe sample_files) with sample_files by (vm_compute; reflexivity).
    split.
    + vm_compute. reflexivity.
    + unfold sample_files.
      repeat (apply Forall_cons; split; [right; vm_compute; reflexivity|]).
      apply Forall_nil. exact I.
Defined.
(** ** De-duplication and the destination of a file *)









(** ** The theorems at work *)

(** A pending file of w1 is claimed. *)
Lemma claim_file_exactly_one_winner_witness :
  (forall ts, exists d',
      StateTracker.claim_file "w1" "j1" "report.json" ts db_one_pending = (true, d') /\
      StateTracker.get_file_status "w1" "j1" "report.json" d' = Some "in_progress" /\
      (forall ts', StateTracker.claim_file "w1" "j1" "report.json" ts' d' = (false, d')) /\
      (forall ts1 ts',
          let d'' := StateTracker.update_file_status "w1" "j1" "report.json"
                       "completed" None ts1 d' in
          StateTracker.claim_file "w1" "j1" "report.json" ts' d'' = (false, d''))) /\
  (forall d0 r0 ts,
      files d0 !! ("w1", "j1", "report.json") = Some r0 ->
      fr_status r0 = "in_progress" \/ fr_status r0 = "completed" ->
      StateTracker.claim_file "w1" "j1" "report.json" ts d0 = (false, d0)) /\
  (forall attempts,
      ("w1", "j1", "report.json") ∈ attempts.*1 ->
      wins ("w1", "j1", "report.json") (claim_attempts attempts db_one_pending).1
      = 1%nat).
Proof.
  apply (claim_file_exactly_one_winner db_one_pending "w1" "j1" "report.json"
           (mkFileRow "https://src/report.json" "pending" None None)).
  - vm_compute. reflexivity.
  - left. reflexivity.
Defined.

(** A claim on a file that is already 'completed'. *)
Lemma claim_file_refused_unchanged_witness :
  StateTracker.claim_file "w1" "j1" "report.json" 5%nat db_one_completed
  = (false, db_one_completed).
Proof.
  apply claim_file_refused_unchanged. right.
  exists (mkFileRow "https://src/report.json" "completed" None (Some 1%nat)).
  split; [vm_compute; reflexivity|right; reflexivity].
Defined.

(** C5 at work: the instance of partition 0 runs with PYTHONHASHSEED=2, the
    instance of partition 1 with PYTHONHASHSEED=1, and 'w1' is kept by
    neither. *)
Lemma salted_hash_breaks_partitions_witness :
  belongs_to_partition (hashes_two_seeds 0) "w1" 0 2 = Some false /\
  belongs_to_partition (hashes_two_seeds 1) "w1" 1 2 = Some false /\
  forall q, "w1" ∉ instance_ids hashes_two_seeds ["w1"] q 2.
Proof.
  split; [vm_compute; reflexivity|]. split; [vm_compute; reflexivity|].
  destruct (salted_hash_breaks_partitions hashes_two_seeds 2 ["w1"] "w1")
    as (_ & _ & H & _).
  - lia.
  - apply list_elem_of_here.
  - apply H. intros q Hq.
    assert (Hq' : q = 0 \/ q = 1) by lia.
    destruct Hq' as [-> | ->]; vm_compute; discriminate.
Defined.

(** A run without SIGINT in which two of three transfers fail. *)
Lemma exit_status_without_shutdown_witness :
  ((main env_partial world_seeded).1 = 0 \/ (main env_partial world_seeded).1 = 1) /\
  ((main env_partial world_seeded).1 = 0 ->
   forall k, k ∈ StateTracker.get_pending_workitems (db world_seeded) ->
     StateTracker.get_workitem_status k.1 k.2 (db (main env_partial world_seeded).2)
     = Some "completed") /\
  (forall k,
     StateTracker.get_workitem_status k.1 k.2 (db (main env_partial world_seeded).2)
       = Some "failed" ->
     (main env_partial world_seeded).1 = 1).
Proof.
  apply (exit_status_without_shutdown env_partial world_seeded).
  - intros n. reflexivity.
  - reflexivity.
  - intros l. reflexivity.
Defined.

(** A resumed run meets a work item that is already 'completed'. *)
Lemma completed_workitem_is_left_alone_witness :
  process_workitem_exit env_resume "w1" "j1" world_completed =
    (AlreadyCompleted,
     mkWorld (db world_completed) (clock world_completed) false
       (S (polls world_completed))) /\
  process_workitem env_resume "w1" "j1" world_completed =
    (true,
     mkWorld (db world_completed) (clock world_completed) false
       (S (polls world_completed))).
Proof.
  apply (completed_workitem_is_left_alone env_resume "w1" "j1" world_completed).
  - reflexivity.
  - reflexivity.
  - vm_compute. reflexivity.
Defined.

(** A freshly seeded work item for which the resolver finds no file. *)
Lemma empty_resolution_completes_witness :
  exists w' r',
    process_workitem_exit env_empty "w1" "j1" world_seeded = (NoFiles, w') /\
    process_workitem env_empty "w1" "j1" world_seeded = (true, w') /\
    workitems (db w') !! ("w1", "j1") = Some r' /\
    wi_status r' = "completed" /\
    wi_files_processed r' = 0 /\
    (0 = 0 -> wi_files_total r' = 0) /\
    files (db w') = files (db world_seeded).
Proof.
  apply (empty_resolution_completes env_empty "w1" "j1" world_seeded
           (mkWorkItemRow "W1" "pending" 0 0 None None None)).
  - reflexivity.
  - reflexivity.
  - vm_compute. reflexivity.
  - discriminate.
  - reflexivity.
Defined.
(** * Further properties of the state tracker *)

Lemma add_workitem_present wid wname jid d r :
  workitems d !! (wid, jid) = Some r ->
  StateTracker.add_workitem wid wname jid d = d.
Proof. intros Hr. unfold StateTracker.add_workitem. by rewrite Hr. Qed.

(** X1. [add_workitem] inserts only when the key is free: a row that is
    already stored (whatever its name, status and counters) is left as it
    is, a free key gets a 'pending' row with both counters 0, the other rows
    and the files table are not touched, and adding a second time, even
    under another name, changes nothing. *)
Theorem add_workitem_insert_if_absent (wid wname wname' jid : string) (d : DB) :
  (forall r, workitems d !! (wid, jid) = Some r ->
     StateTracker.add_workitem wid wname jid d = d) /\
  (workitems d !! (wid, jid) = None ->
     workitems (StateTracker.add_workitem wid wname jid d) !! (wid, jid) =
     Some (mkWorkItemRow wname "pending" 0 0 None None None)) /\
  (forall k, k <> (wid, jid) ->
     workitems (StateTracker.add_workitem wid wname jid d) !! k =
     workitems d !! k) /\
  files (StateTracker.add_workitem wid wname jid d) = files d /\
  StateTracker.add_workitem wid wname' jid
    (StateTracker.add_workitem wid wname jid d) =
  StateTracker.add_workitem wid wname jid d.
Proof.
  split; [intros r; apply add_workitem_present|].
  destruct (workitems d !! (wid, jid)) as [r|] eqn:Hr.
  - rewrite (add_workitem_present _ _ _ _ _ Hr).
    repeat split; try done. by eapply add_workitem_present.
  - assert (Ha : StateTracker.add_workitem wid wname jid d =
      with_workitems d
        (<[(wid, jid) := mkWorkItemRow wname "pending" 0 0 None None None]>
           (workitems d))).
    { unfold StateTracker.add_workitem. by rewrite Hr. }
    rewrite Ha. simpl. rewrite lookup_insert_eq. repeat split; try done.
    + intros k Hk. by rewrite lookup_insert_ne.
    + eapply add_workitem_present. simpl. apply lookup_insert_eq.
Qed.

Lemma add_file_present wid jid fname uri d r :
  files d !! (wid, jid, fname) = Some r ->
  StateTracker.add_file wid jid fname uri d = d.
Proof. intros Hr. unfold StateTracker.add_file. by rewrite Hr. Qed.

(** X2. [add_file] never resets a file: the stored status after the call is
    the status stored before, or 'pending' when the file had no row; the
    work-item table and the other file rows are not touched; and adding the
    same file again, even with another source URI, changes nothing. *)
Theorem add_file_keeps_stored_status (wid jid fname uri uri' : string) (d : DB) :
  StateTracker.get_file_status wid jid fname
    (StateTracker.add_file wid jid fname uri d) =
    Some (default "pending" (StateTracker.get_file_status wid jid fname d)) /\
  (forall k, k <> (wid, jid, fname) ->
     files (StateTracker.add_file wid jid fname uri d) !! k = files d !! k) /\
  workitems (StateTracker.add_file wid jid fname uri d) = workitems d /\
  StateTracker.add_file wid jid fname uri'
    (StateTracker.add_file wid jid fname uri d) =
  StateTracker.add_file wid jid fname uri d.
Proof.
  unfold StateTracker.get_file_status.
  destruct (files d !! (wid, jid, fname)) as [r|] eqn:Hr.
  - rewrite (add_file_present _ _ _ _ _ _ Hr), Hr.
    repeat split; try done. by eapply add_file_present.
  - assert (Ha : StateTracker.add_file wid jid fname uri d =
      with_files d
        (<[(wid, jid, fname) := mkFileRow uri "pending" None None]> (files d))).
    { unfold StateTracker.add_file. by rewrite Hr. }
    rewrite Ha. simpl. rewrite lookup_insert_eq. repeat split; try done.
    + intros k Hk. by rewrite lookup_insert_ne.
    + eapply add_file_present. simpl. apply lookup_insert_eq.
Qed.

(** X3. [update_workitem_status] on a key without a row changes nothing and
    the status read back is still none; on a stored row the status read back
    is the one written, the name and both counters are kept, started_at is
    stamped only by 'in_progress' and completed_at only by 'completed' and
    'failed', and 'in_progress' keeps the error message of the previous
    attempt while every other status stores the one given. *)
Theorem update_workitem_status_written (wid jid status : string)
    (error_message : option string) (ts : Timestamp) (d : DB) :
  (workitems d !! (wid, jid) = None ->
     StateTracker.update_workitem_status wid jid status error_message ts d = d) /\
  (forall r, workitems d !! (wid, jid) = Some r ->
     exists r',
       workitems (StateTracker.update_workitem_status wid jid status
                    error_message ts d) !! (wid, jid) = Some r' /\
       wi_status r' = status /\
       wi_workitem_name r' = wi_workitem_name r /\
       wi_files_total r' = wi_files_total r /\
       wi_files_processed r' = wi_files_processed r /\
       wi_started_at r' =
         (if bool_decide (status = "in_progress") then Some ts
          else wi_started_at r) /\
       wi_completed_at r' =
         (if bool_decide (status = "completed" \/ status = "failed")
          then Some ts else wi_completed_at r) /\
       wi_error_message r' =
         (if bool_decide (status = "in_progress") then wi_error_message r
          else error_message)) /\
  StateTracker.get_workitem_status wid jid
    (StateTracker.update_workitem_status wid jid status error_message ts d) =
    (fun _ => status) <$> StateTracker.get_workitem_status wid jid d.
Proof.
  split; [|split].
  - intros Hn. unfold StateTracker.update_workitem_status,
      StateTracker.update_workitem_row. by rewrite Hn.
  - intros r Hr. unfold StateTracker.update_workitem_status.
    rewrite update_workitem_row_lookup, Hr. simpl. eexists. split; [done|].
    destruct (String.eqb_spec status "in_progress") as [->|Hip].
    { simpl. repeat split; try done. }
    rewrite (bool_decide_eq_false_2 (status = "in_progress")) by done.
    destruct (String.eqb_spec status "completed") as [->|Hc].
    { simpl. repeat split; try done. }
    destruct (String.eqb_spec status "failed") as [->|Hf].
    { simpl. repeat split; try done. }
    simpl. rewrite bool_decide_eq_false_2 by (intros [?|?]; done).
    repeat split; done.
  - apply update_workitem_status_status.
Qed.

(** X4. [update_workitem_file_count], for counts within SQLite's signed
    64-bit INTEGER: the call does not raise, the count read back is the one
    written when the row exists, a second write replaces the first (last
    write wins), and neither files_processed, the status nor the files table
    is touched.  For any other count the call raises OverflowError and
    writes nothing. *)
Theorem update_workitem_file_count_last_write_wins (wid jid : string)
    (n1 n2 : Z) (d : DB) :
  StateTracker.sqlite_integer n1 ->
  StateTracker.sqlite_integer n2 ->
  files_total_of wid jid (StateTracker.update_workitem_file_count wid jid n1 d) =
    (fun _ => n1) <$> files_total_of wid jid d /\
  StateTracker.update_workitem_file_count wid jid n2
    (StateTracker.update_workitem_file_count wid jid n1 d) =
  StateTracker.update_workitem_file_count wid jid n2 d /\
  files_processed_of wid jid (StateTracker.update_workitem_file_count wid jid n1 d) =
    files_processed_of wid jid d /\
  StateTracker.get_workitem_status wid jid
    (StateTracker.update_workitem_file_count wid jid n1 d) =
    StateTracker.get_workitem_status wid jid d /\
  files (StateTracker.update_workitem_file_count wid jid n1 d) = files d /\
  StateTracker.update_workitem_file_count_of_int wid jid n1 d =
    Some (StateTracker.update_workitem_file_count wid jid n1 d) /\
  (forall n, ~ StateTracker.sqlite_integer n ->
     StateTracker.update_workitem_file_count_of_int wid jid n d = None).
Proof.
  intros Hn1 _.
  assert (Hcall : forall n,
    StateTracker.update_workitem_file_count_of_int wid jid n d =
    if bool_decide (- 2 ^ 63 <= n < 2 ^ 63)
    then Some (StateTracker.update_workitem_file_count wid jid n d) else None).
  { intros n. unfold StateTracker.update_workitem_file_count_of_int.
    case_bool_decide as Hn.
    - destruct Hn as [H1 H2].
      apply Z.leb_le in H1. apply Z.ltb_lt in H2. by rewrite H1, H2.
    - destruct (Z.leb_spec (- 2 ^ 63) n), (Z.ltb_spec n (2 ^ 63)); try done.
      destruct Hn. by split. }
  destruct (update_workitem_file_count_spec wid jid n1 d) as (Hf & Hp & Ht).
  split_and!; try done.
  3: { rewrite Hcall. by rewrite bool_decide_eq_true_2. }
  3: { intros n Hn. rewrite Hcall. by rewrite bool_decide_eq_false_2. }
  - unfold StateTracker.update_workitem_file_count, StateTracker.update_workitem_row.
    destruct (workitems d !! (wid, jid)) as [r|] eqn:Hr; simpl.
    + rewrite lookup_insert_eq. unfold with_workitems. simpl.
      by rewrite insert_insert_eq.
    + by rewrite Hr.
  - unfold StateTracker.get_workitem_status, StateTracker.update_workitem_file_count.
    rewrite update_workitem_row_lookup. by destruct (workitems d !! (wid, jid)).
Qed.

(** X4 at work: 3 and then 2 are written to the seeded work item. *)
Lemma update_workitem_file_count_last_write_wins_witness :
  files_total_of "w1" "j1"
    (StateTracker.update_workitem_file_count "w1" "j1" 3 (db world_seeded)) =
    (fun _ => 3) <$> files_total_of "w1" "j1" (db world_seeded) /\
  StateTracker.update_workitem_file_count "w1" "j1" 2
    (StateTracker.update_workitem_file_count "w1" "j1" 3 (db world_seeded)) =
  StateTracker.update_workitem_file_count "w1" "j1" 2 (db world_seeded) /\
  files_processed_of "w1" "j1"
    (StateTracker.update_workitem_file_count "w1" "j1" 3 (db world_seeded)) =
    files_processed_of "w1" "j1" (db world_seeded) /\
  StateTracker.get_workitem_status "w1" "j1"
    (StateTracker.update_workitem_file_count "w1" "j1" 3 (db world_seeded)) =
    StateTracker.get_workitem_status "w1" "j1" (db world_seeded) /\
  files (StateTracker.update_workitem_file_count "w1" "j1" 3 (db world_seeded)) =
    files (db world_seeded) /\
  StateTracker.update_workitem_file_count_of_int "w1" "j1" 3 (db world_seeded) =
    Some (StateTracker.update_workitem_file_count "w1" "j1" 3 (db world_seeded)) /\
  (forall n, ~ StateTracker.sqlite_integer n ->
     StateTracker.update_workitem_file_count_of_int "w1" "j1" n (db world_seeded)
     = None).
Proof.
  apply (update_workitem_file_count_last_write_wins "w1" "j1" 3 2
           (db world_seeded)); unfold StateTracker.sqlite_integer; lia.
Defined.

(** X5. [update_file_status]: the status read back is the one written when
    the file has a row; when it has none the files table is left as it is,
    and yet a 'completed' write still adds 1 to the parent's files_processed;
    the rows of the other files, the parent's status and its files_total are
    never touched. *)
Theorem update_file_status_written (wid jid fname status : string)
    (error_message : option string) (ts : Timestamp) (d : DB) :
  StateTracker.get_file_status wid jid fname
    (StateTracker.update_file_status wid jid fname status error_message ts d) =
    (fun _ => status) <$> StateTracker.get_file_status wid jid fname d /\
  (files d !! (wid, jid, fname) = None ->
     files (StateTracker.update_file_status wid jid fname status error_message
              ts d) = files d /\
     files_processed_of wid jid
       (StateTracker.update_file_status wid jid fname "completed" error_message
          ts d) = (fun n => n + 1) <$> files_processed_of wid jid d) /\
  (forall k, k <> (wid, jid, fname) ->
     files (StateTracker.update_file_status wid jid fname status error_message
              ts d) !! k = files d !! k) /\
  StateTracker.get_workitem_status wid jid
    (StateTracker.update_file_status wid jid fname status error_message ts d) =
    StateTracker.get_workitem_status wid jid d /\
  files_total_of wid jid
    (StateTracker.update_file_status wid jid fname status error_message ts d) =
    files_total_of wid jid d.
Proof.
  assert (Hfiles : forall st,
    files (StateTracker.update_file_status wid jid fname st error_message ts d) =
    files (StateTracker.update_file_row wid jid fname (fun r =>
             mkFileRow (fr_source_uri r) st error_message (Some ts)) d)).
  { intros st. unfold StateTracker.update_file_status,
      StateTracker.bump_files_processed.
    destruct (String.eqb st "completed"); [|done].
    by rewrite update_workitem_row_files. }
  split; [|split; [|split; [|split]]].
  - unfold StateTracker.get_file_status. rewrite Hfiles, update_file_row_lookup.
    by destruct (files d !! (wid, jid, fname)).
  - intros Hn. split.
    + rewrite Hfiles. unfold StateTracker.update_file_row. by rewrite Hn.
    + rewrite update_file_status_processed. by destruct (files_processed_of wid jid d).
  - intros k Hk. by apply update_file_status_files_ne.
  - unfold StateTracker.get_workitem_status, StateTracker.update_file_status,
      StateTracker.bump_files_processed.
    destruct (String.eqb status "completed");
      rewrite ?update_workitem_row_lookup, update_file_row_workitems; [|done].
    by destruct (workitems d !! (wid, jid)).
  - apply update_file_status_total.
Qed.

(** X6. A failed transfer can be retried and a finished one cannot: after a
    claim and a 'failed' write the next claim is answered true again and
    leaves the row 'in_progress' with the error message cleared, whereas
    after a claim and a 'completed' write every claim is answered false. *)
Theorem failed_file_is_claimable_again (wid jid fname : string)
    (error_message : option string) (ts1 ts2 ts3 : Timestamp) (d : DB)
    (r : FileRow) :
  files d !! (wid, jid, fname) = Some r ->
  claimable (fr_status r) ->
  let claimed := (StateTracker.claim_file wid jid fname ts1 d).2 in
  let failed :=
    StateTracker.update_file_status wid jid fname "failed" error_message ts2
      claimed in
  let completed :=
    StateTracker.update_file_status wid jid fname "completed" None ts2 claimed in
  (StateTracker.claim_file wid jid fname ts3 failed).1 = true /\
  files (StateTracker.claim_file wid jid fname ts3 failed).2 !! (wid, jid, fname) =
    Some (mkFileRow (fr_source_uri r) "in_progress" None (Some ts3)) /\
  StateTracker.claim_file wid jid fname ts3 completed = (false, completed).
Proof.
  intros Hr Hc. cbv zeta. rewrite (claim_file_hit _ _ _ _ _ _ Hr Hc). simpl.
  set (d1 := with_files d _).
  assert (Hf : files (StateTracker.update_file_status wid jid fname "failed"
                        error_message ts2 d1) !! (wid, jid, fname) =
               Some (mkFileRow (fr_source_uri r) "failed" error_message (Some ts2))).
  { unfold StateTracker.update_file_status. simpl.
    rewrite update_file_row_lookup. subst d1. simpl. by rewrite lookup_insert_eq. }
  split; [|split].
  - by rewrite (claim_file_hit _ _ _ _ _ _ Hf (or_intror eq_refl)).
  - rewrite (claim_file_hit _ _ _ _ _ _ Hf (or_intror eq_refl)). simpl.
    by rewrite lookup_insert_eq.
  - apply claim_file_miss. intros r'.
    unfold StateTracker.update_file_status, StateTracker.bump_files_processed.
    simpl. rewrite update_workitem_row_files, update_file_row_lookup.
    subst d1. simpl. rewrite lookup_insert_eq. intros [= <-] [?|?]; discriminate.
Qed.

(** A pending file of w1 is claimed, fails, and is claimed again. *)
Lemma failed_file_is_claimable_again_witness :
  (StateTracker.claim_file "w1" "j1" "report.json" 3%nat
     (StateTracker.update_file_status "w1" "j1" "report.json" "failed"
        (Some "Upload failed") 2%nat
        (StateTracker.claim_file "w1" "j1" "report.json" 1%nat db_one_pending).2)).1
  = true.
Proof.
  apply (failed_file_is_claimable_again "w1" "j1" "report.json"
           (Some "Upload failed") 1%nat 2%nat 3%nat db_one_pending
           (mkFileRow "https://src/report.json" "pending" None None)).
  - vm_compute. reflexivity.
  - left. reflexivity.
Defined.
(** X7. [get_pending_workitems] returns exactly the keys whose row is
    'pending', 'failed' or 'in_progress' (so never a 'completed' one), each
    once, in ascending order of workitem_id. *)
Theorem get_pending_workitems_worklist (d : DB) :
  (forall k, k ∈ StateTracker.get_pending_workitems d <->
     exists r, workitems d !! k = Some r /\
       (wi_status r = "pending" \/ wi_status r = "failed" \/
        wi_status r = "in_progress")) /\
  NoDup (StateTracker.get_pending_workitems d) /\
  Sorted (fun a b : WorkItemKey => Is_true (String.leb a.1 b.1))
    (StateTracker.get_pending_workitems d).
Proof.
  split; [|split].
  - intros k. rewrite elem_of_get_pending_workitems.
    unfold StateTracker.is_pending_status.
    split; intros (r & Hr & Hs); exists r; (split; [done|]).
    + rewrite !orb_true_iff, !String.eqb_eq in Hs. tauto.
    + rewrite !orb_true_iff, !String.eqb_eq. tauto.
  - apply NoDup_get_pending_workitems.
  - unfold StateTracker.get_pending_workitems. apply Sorted_merge_sort.
    intros a b. destruct (String.leb_total a.1 b.1) as [H|H]; rewrite H; simpl; auto.
Qed.

Lemma group_by_status_lookup rows st :
  group_by_status rows !! st =
  let n := length (filter (fun kr : WorkItemKey * WorkItemRow =>
                             wi_status kr.2 = st) rows) in
  if decide (n = 0%nat) then None else Some (Z.of_nat n).
Proof.
  induction rows as [|[k r] rows IH]; [done|].
  simpl in *. rewrite filter_cons. simpl.
  destruct (decide (wi_status r = st)) as [->|Hne].
  - rewrite lookup_insert_eq, IH. simpl.
    case_decide as Hn; [rewrite Hn; simpl; done|]. simpl. f_equal. lia.
  - rewrite lookup_insert_ne by done. apply IH.
Qed.

Lemma length_by_known_status (rows : list (WorkItemKey * WorkItemRow)) :
  Forall (fun kr => known_status (wi_status kr.2)) rows ->
  length rows =
  (length (filter (fun kr : WorkItemKey * WorkItemRow => wi_status kr.2 = "completed") rows)
   + length (filter (fun kr : WorkItemKey * WorkItemRow => wi_status kr.2 = "failed") rows)
   + length (filter (fun kr : WorkItemKey * WorkItemRow => wi_status kr.2 = "in_progress") rows)
   + length (filter (fun kr : WorkItemKey * WorkItemRow => wi_status kr.2 = "pending") rows))%nat.
Proof.
  induction 1 as [|[k r] rows Hk _ IH]; [done|].
  rewrite !filter_cons. simpl in *.
  destruct Hk as [-> | [-> | [-> | ->]]]; simpl; lia.
Qed.

Lemma map_to_list_filter_files (P : FileKey * FileRow -> Prop)
    `{!forall x, Decision (P x)} (m : gmap FileKey FileRow) :
  map_to_list (filter P m) ≡ₚ filter P (map_to_list m).
Proof.
  apply NoDup_Permutation.
  - apply NoDup_map_to_list.
  - apply NoDup_filter, NoDup_map_to_list.
  - intros [k a]. rewrite elem_of_map_to_list, map_lookup_filter_Some,
      list_elem_of_filter, elem_of_map_to_list. tauto.
Qed.

(** X8. [get_summary]: 'total' is the number of work-item rows,
    'total_files' the number of file rows and 'processed_files' the number of
    'completed' file rows, never more than 'total_files'; for each of the four
    statuses the script writes, the entry read with a default of 0 is the
    number of rows with that status; and when every row has one of these four
    statuses, the four entries add up to 'total'. *)
Theorem get_summary_counts (d : DB) :
  summary_get "total" (get_summary d) = Z.of_nat (size (workitems d)) /\
  summary_get "total_files" (get_summary d) = Z.of_nat (size (files d)) /\
  summary_get "processed_files" (get_summary d) =
    Z.of_nat (size (filter (fun kr : FileKey * FileRow =>
                              fr_status kr.2 = "completed") (files d))) /\
  0 <= summary_get "processed_files" (get_summary d)
    <= summary_get "total_files" (get_summary d) /\
  (forall st, known_status st ->
     summary_get st (get_summary d) = count_status st d) /\
  ((forall k r, workitems d !! k = Some r -> known_status (wi_status r)) ->
   summary_get "completed" (get_summary d) + summary_get "failed" (get_summary d)
   + summary_get "in_progress" (get_summary d)
   + summary_get "pending" (get_summary d)
   = summary_get "total" (get_summary d)).
Proof.
  assert (Hknown : forall st, known_status st ->
            summary_get st (get_summary d) = count_status st d).
  { intros st Hst. unfold summary_get, get_summary, count_status.
    rewrite !lookup_insert_ne by (destruct Hst as [-> | [-> | [-> | ->]]]; done).
    rewrite group_by_status_lookup. simpl. by case_decide as Hn; [rewrite Hn|]. }
  assert (Htotal : summary_get "total" (get_summary d) = Z.of_nat (size (workitems d))).
  { unfold summary_get, get_summary.
    rewrite !lookup_insert_ne by done. by rewrite lookup_insert_eq. }
  assert (Hfiles : summary_get "total_files" (get_summary d) = Z.of_nat (size (files d))).
  { unfold summary_get, get_summary.
    rewrite lookup_insert_ne by done. by rewrite lookup_insert_eq. }
  split; [done|]. split; [done|]. split; [|split; [|split; [done|]]].
  - unfold summary_get, get_summary. rewrite lookup_insert_eq. simpl.
    f_equal. rewrite <- length_map_to_list.
    apply Permutation_length. symmetry. apply map_to_list_filter_files.
  - rewrite Hfiles. unfold summary_get, get_summary. rewrite lookup_insert_eq.
    simpl. split; [lia|]. apply inj_le.
    rewrite <- length_map_to_list.
    apply length_filter.
  - intros Hall. rewrite Htotal, !Hknown by (unfold known_status; auto).
    unfold count_status. rewrite <- length_map_to_list.
    rewrite (length_by_known_status (map_to_list (workitems d))); [lia|].
    apply Forall_forall. intros [k r] Hin. apply elem_of_map_to_list in Hin.
    by eapply Hall.
Qed.
(** * Further properties of the processor *)

(** X9. When the event is set at the first poll (set before, or SIGINT
    delivered by then) [process_workitem] returns false at once: the database
    and the clock are as before, whatever the stored status, and the event is
    left set. *)
Theorem shutdown_at_start_skips (E : Env) (wid jid : string) (w : World) :
  shutdown_event w = true \/ sigint E (polls w) = true ->
  process_workitem_exit E wid jid w =
    (SkippedOnShutdown, mkWorld (db w) (clock w) true (S (polls w))) /\
  process_workitem E wid jid w =
    (false, mkWorld (db w) (clock w) true (S (polls w))).
Proof.
  intros Hs.
  assert (Hb : shutdown_event w || sigint E (polls w) = true).
  { apply orb_true_iff. tauto. }
  assert (He : process_workitem_exit E wid jid w =
    (SkippedOnShutdown, mkWorld (db w) (clock w) true (S (polls w)))).
  { unfold process_workitem_exit, bind, is_set. by rewrite Hb. }
  split; [done|]. by rewrite process_workitem_unfold, He.
Qed.

(** A work item met after SIGINT. *)
Lemma shutdown_at_start_skips_witness :
  process_workitem env_resume "w1" "j1"
    (mkWorld (db world_seeded) 0 true 0) =
  (false, mkWorld (db world_seeded) 0 true 1).
Proof.
  apply (shutdown_at_start_skips env_resume "w1" "j1"
           (mkWorld (db world_seeded) 0 true 0)).
  left. reflexivity.
Defined.

(** X10. When the resolver raises, the work item is stored 'failed' with the
    message 'Kusto query failed: ' followed by the exception text, started_at
    and completed_at are stamped, both counters and the name are kept, no
    file row is written, and the call returns false. *)
Theorem query_failure_marks_failed (E : Env) (wid jid : string) (w : World)
    (r : WorkItemRow) (e : string) :
  shutdown_event w = false ->
  sigint E (polls w) = false ->
  workitems (db w) !! (wid, jid) = Some r ->
  wi_status r <> "completed" ->
  query_files_for_workitem E wid jid = inl e ->
  exists w',
    process_workitem_exit E wid jid w = (QueryFailed, w') /\
    process_workitem E wid jid w = (false, w') /\
    workitems (db w') !! (wid, jid) =
      Some (mkWorkItemRow (wi_workitem_name r) "failed" (wi_files_total r)
              (wi_files_processed r) (Some ("Kusto query failed: " ++ e))
              (Some (clock w)) (Some (S (clock w)))) /\
    files (db w') = files (db w).
Proof.
  intros Hsd Hsig Hr Hst Hq.
  assert (Hne : StateTracker.get_workitem_status wid jid (db w) <> Some "completed").
  { unfold StateTracker.get_workitem_status. rewrite Hr. simpl. congruence. }
  assert (He : exists w',
    process_workitem_exit E wid jid w = (QueryFailed, w') /\
    db w' = StateTracker.update_workitem_status wid jid "failed"
              (Some ("Kusto query failed: " ++ e)) (S (clock w))
              (StateTracker.update_workitem_status wid jid "in_progress" None
                 (clock w) (db w))).
  { eexists. unfold process_workitem_exit, bind, is_set, read.
    rewrite Hsd, Hsig. simpl. rewrite bool_decide_eq_false_2 by done.
    rewrite Hq. simpl. split; reflexivity. }
  destruct He as (w' & He & Hdb). exists w'.
  split; [exact He|]. split; [by rewrite process_workitem_unfold, He|].
  rewrite Hdb. unfold StateTracker.update_workitem_status.
  rewrite !update_workitem_row_lookup, !update_workitem_row_files, Hr. done.
Qed.

(** The resolver times out for a seeded work item. *)
Lemma query_failure_marks_failed_witness :
  exists w',
    process_workitem_exit env_query_fails "w1" "j1" world_seeded = (QueryFailed, w') /\
    process_workitem env_query_fails "w1" "j1" world_seeded = (false, w') /\
    workitems (db w') !! ("w1", "j1") =
      Some (mkWorkItemRow "W1" "failed" 0 0 (Some "Kusto query failed: timeout")
              (Some 0%nat) (Some 1%nat)) /\
    files (db w') = files (db world_seeded).
Proof.
  apply (query_failure_marks_failed env_query_fails "w1" "j1" world_seeded
           (mkWorkItemRow "W1" "pending" 0 0 None None None) "timeout").
  - reflexivity.
  - reflexivity.
  - vm_compute. reflexivity.
  - discriminate.
  - reflexivity.
Defined.

(** X11. When the event is found set at the poll before the uploads (after
    a resolution that returned files), the work item is put back to 'pending'
    with its error message cleared, files_total is not written, no file row
    is added or claimed, and the call returns false. *)
Theorem shutdown_before_uploads_reverts (E : Env) (wid jid : string)
    (w : World) (r : WorkItemRow) (f : FileMetadata) (fs : list FileMetadata) :
  shutdown_event w = false ->
  sigint E (polls w) = false ->
  sigint E (S (polls w)) = true ->
  workitems (db w) !! (wid, jid) = Some r ->
  wi_status r <> "completed" ->
  query_files_for_workitem E wid jid = inr (f :: fs) ->
  exists w',
    process_workitem_exit E wid jid w = (AbortedBeforeUploads, w') /\
    process_workitem E wid jid w = (false, w') /\
    workitems (db w') !! (wid, jid) =
      Some (mkWorkItemRow (wi_workitem_name r) "pending" (wi_files_total r)
              (wi_files_processed r) None (Some (clock w)) (wi_completed_at r)) /\
    files (db w') = files (db w) /\
    shutdown_event w' = true.
Proof.
  intros Hsd Hsig Hsig2 Hr Hst Hq.
  assert (Hne : StateTracker.get_workitem_status wid jid (db w) <> Some "completed").
  { unfold StateTracker.get_workitem_status. rewrite Hr. simpl. congruence. }
  assert (He : exists w',
    process_workitem_exit E wid jid w = (AbortedBeforeUploads, w') /\
    shutdown_event w' = true /\
    db w' = StateTracker.update_workitem_status wid jid "pending" None
              (S (clock w))
              (StateTracker.update_workitem_status wid jid "in_progress" None
                 (clock w) (db w))).
  { eexists. unfold process_workitem_exit, bind, is_set, read.
    rewrite Hsd, Hsig. simpl. rewrite bool_decide_eq_false_2 by done.
    rewrite Hq. simpl. rewrite Hsig2. simpl. repeat split; reflexivity. }
  destruct He as (w' & He & Hsd' & Hdb). exists w'.
  split; [exact He|]. split; [by rewrite process_workitem_unfold, He|].
  rewrite Hdb. unfold StateTracker.update_workitem_status.
  rewrite !update_workitem_row_lookup, !update_workitem_row_files, Hr. done.
Qed.

(** SIGINT arrives while the three files of w1 are being resolved. *)
Lemma shutdown_before_uploads_reverts_witness :
  exists w',
    process_workitem_exit env_sigint_during_query "w1" "j1" world_seeded
      = (AbortedBeforeUploads, w') /\
    process_workitem env_sigint_during_query "w1" "j1" world_seeded = (false, w') /\
    workitems (db w') !! ("w1", "j1") =
      Some (mkWorkItemRow "W1" "pending" 0 0 None (Some 0%nat) None) /\
    files (db w') = files (db world_seeded) /\
    shutdown_event w' = true.
Proof.
  apply (shutdown_before_uploads_reverts env_sigint_during_query "w1" "j1"
           world_seeded (mkWorkItemRow "W1" "pending" 0 0 None None None)
           (mkFileMetadata "j1" "w1" "W1" "https://src/a"
              "run/a-perf-lab-report.json")
           [mkFileMetadata "j1" "w1" "W1" "https://src/b"
              "run/b-perf-lab-report.json";
            mkFileMetadata "j1" "w1" "W1" "https://src/c"
              "run/c-perf-lab-report.json"]).
  - reflexivity.
  - reflexivity.
  - reflexivity.
  - vm_compute. reflexivity.
  - discriminate.
  - reflexivity.
Defined.
Lemma only_own_rows_refl wid jid w : only_own_rows wid jid w w.
Proof. repeat split; eauto. Qed.

Lemma only_own_rows_trans wid jid w1 w2 w3 :
  only_own_rows wid jid w1 w2 -> only_own_rows wid jid w2 w3 ->
  only_own_rows wid jid w1 w3.
Proof.
  intros (A1 & B1 & C1 & D1 & E1 & F1) (A2 & B2 & C2 & D2 & E2 & F2).
  repeat split; try lia.
  - intros k r Hr. destruct (A1 k r Hr) as (r1 & Hr1 & Hn1).
    destruct (A2 k r1 Hr1) as (r2 & Hr2 & Hn2). exists r2. split; congruence.
  - intros k r Hr. destruct (B1 k r Hr) as (r1 & Hr1 & Hn1).
    destruct (B2 k r1 Hr1) as (r2 & Hr2 & Hn2). exists r2. split; congruence.
  - intros k Hk. by rewrite C2, C1.
  - intros k Hk. by rewrite D2, D1.
Qed.

Lemma only_own_rows_workitem_row wid jid set w w' :
  (forall r, wi_workitem_name (set r) = wi_workitem_name r) ->
  db w' = StateTracker.update_workitem_row wid jid set (db w) ->
  (clock w <= clock w')%nat -> (polls w <= polls w')%nat ->
  only_own_rows wid jid w w'.
Proof.
  intros Hset Hdb Hc Hp. repeat split; try done; rewrite Hdb.
  - intros k r Hr. destruct (decide (k = (wid, jid))) as [->|Hk].
    + rewrite update_workitem_row_lookup, Hr. eexists. split; [done|]. apply Hset.
    + rewrite update_workitem_row_lookup_ne by done. by exists r.
  - intros k r Hr. rewrite update_workitem_row_files. by exists r.
  - intros k Hk. by apply update_workitem_row_lookup_ne.
  - intros k Hk. by rewrite update_workitem_row_files.
Qed.

Lemma only_own_rows_file_row wid jid fname set w w' :
  (forall r, fr_source_uri (set r) = fr_source_uri r) ->
  db w' = StateTracker.update_file_row wid jid fname set (db w) ->
  (clock w <= clock w')%nat -> (polls w <= polls w')%nat ->
  only_own_rows wid jid w w'.
Proof.
  intros Hset Hdb Hc Hp. repeat split; try done; rewrite Hdb.
  - intros k r Hr. rewrite update_file_row_workitems. by exists r.
  - intros k r Hr. destruct (decide (k = (wid, jid, fname))) as [->|Hk].
    + rewrite update_file_row_lookup, Hr. eexists. split; [done|]. apply Hset.
    + rewrite update_file_row_lookup_ne by done. by exists r.
  - intros k Hk. by rewrite update_file_row_workitems.
  - intros [k1 k2] Hk. apply update_file_row_lookup_ne. simpl in Hk. congruence.
Qed.

Lemma only_own_rows_status wid jid st e w :
  only_own_rows wid jid w
    (write_at (StateTracker.update_workitem_status wid jid st e) w).2.
Proof.
  eapply only_own_rows_workitem_row; [|reflexivity|simpl; lia|simpl; lia].
  intros r. destruct (String.eqb st "in_progress"); [done|]. by destruct (_ || _).
Qed.

Lemma only_own_rows_count wid jid n w :
  only_own_rows wid jid w
    (write (StateTracker.update_workitem_file_count wid jid n) w).2.
Proof. eapply only_own_rows_workitem_row; [|reflexivity|simpl; lia|simpl; lia]. done. Qed.

Lemma only_own_rows_add wid jid f u w :
  only_own_rows wid jid w (write (StateTracker.add_file wid jid f u) w).2.
Proof.
  simpl. unfold StateTracker.add_file.
  destruct (files (db w) !! (wid, jid, f)) as [r|] eqn:Hf.
  { repeat split; simpl; eauto. }
  repeat split; simpl; try done.
  - intros k r Hr. by exists r.
  - intros k r Hr. exists r. split; [|done].
    rewrite lookup_insert_ne; [done|]. intros <-. congruence.
  - intros [k1 k2] Hk. apply lookup_insert_ne. simpl in Hk. congruence.
Qed.

Lemma only_own_rows_claim wid jid f w :
  only_own_rows wid jid w (claim_file wid jid f w).2.
Proof.
  unfold claim_file, StateTracker.claim_file.
  destruct (files (db w) !! (wid, jid, f)) as [r|] eqn:Hf.
  2:{ repeat split; simpl; eauto. }
  destruct (_ || _).
  2:{ repeat split; simpl; eauto. }
  eapply (only_own_rows_file_row wid jid f
            (fun r => mkFileRow (fr_source_uri r) "in_progress" None (Some (clock w))));
    [done| |simpl; lia|simpl; lia].
  simpl. unfold StateTracker.update_file_row. by rewrite Hf.
Qed.

Lemma only_own_rows_file wid jid f st e w :
  only_own_rows wid jid w
    (write_at (StateTracker.update_file_status wid jid f st e) w).2.
Proof.
  simpl. unfold StateTracker.update_file_status.
  set (w1 := mkWorld (StateTracker.update_file_row wid jid f (fun r =>
                mkFileRow (fr_source_uri r) st e (Some (clock w))) (db w))
               (S (clock w)) (shutdown_event w) (polls w)).
  assert (H1 : only_own_rows wid jid w w1).
  { eapply only_own_rows_file_row; [|reflexivity|simpl; lia|simpl; lia]. done. }
  destruct (String.eqb st "completed").
  - eapply only_own_rows_trans; [exact H1|].
    eapply only_own_rows_workitem_row; [|reflexivity|simpl; lia|simpl; lia]. done.
  - exact H1.
Qed.

(** X12. A call of [process_workitem] on one work item, whichever way it
    returns, drops no row of either table, renames no work item, changes the
    source URI of no file, and leaves the rows of every other work item and
    the file rows of every other work item exactly as they were; the clock
    and the poll count only advance. *)
Theorem process_workitem_touches_only_own_rows (E : Env) (wid jid : string)
    (w : World) :
  only_own_rows wid jid w (process_workitem E wid jid w).2.
Proof.
  rewrite process_workitem_unfold. simpl.
  apply process_workitem_exit_preserved; intros;
    first [ apply only_own_rows_refl
          | eapply only_own_rows_trans; eassumption
          | apply only_own_rows_status | apply only_own_rows_count
          | apply only_own_rows_add | apply only_own_rows_claim
          | apply only_own_rows_file
          | repeat split; simpl; eauto ].
Qed.

Lemma status_after_write wid jid st e w :
  is_Some (workitems (db w) !! (wid, jid)) ->
  StateTracker.get_workitem_status wid jid
    (db (write_at (StateTracker.update_workitem_status wid jid st e) w).2)
  = Some st.
Proof.
  intros [r Hr]. simpl. rewrite update_workitem_status_status.
  unfold StateTracker.get_workitem_status. by rewrite Hr.
Qed.

Lemma process_files_status_left E wid jid claimed w :
  is_Some (workitems (db w) !! (wid, jid)) ->
  satisfies (process_files E wid jid claimed) w (fun e w' =>
    exists st, status_left e = Some st /\
      StateTracker.get_workitem_status wid jid (db w') = Some st).
Proof.
  intros Hs. unfold process_files. apply satisfies_bind.
  pose proof (drain_frame E wid jid (as_completed E claimed) [] w) as Hf.
  pose proof (process_files_cancelled E wid jid claimed w) as Hc.
  unfold process_files, bind in Hc. unfold satisfies at 1.
  destruct (drain E wid jid (as_completed E claimed) [] w) as [[[|x l]|] w1];
    simpl in Hf, Hc |- *.
  - apply satisfies_bind. eexists. split; [done|].
    apply status_after_write. by eapply frame_row.
  - apply satisfies_bind. eexists. split; [done|].
    apply status_after_write. by eapply frame_row.
  - unfold satisfies. simpl. eexists. split; [done|].
    destruct (Hc eq_refl) as (_ & Hrow & _).
    destruct (Hrow Hs) as (r' & Hr' & Hst' & _).
    unfold StateTracker.get_workitem_status. by rewrite Hr', <- Hst'.
Qed.

Lemma process_workitem_exit_status_left E wid jid w r :
  workitems (db w) !! (wid, jid) = Some r ->
  satisfies (process_workitem_exit E wid jid) w (fun e w' =>
    match status_left e with
    | None => workitems (db w') !! (wid, jid) = Some r
    | Some st => StateTracker.get_workitem_status wid jid (db w') = Some st
    end).
Proof.
  intros Hr. assert (Hs : is_Some (workitems (db w) !! (wid, jid))) by eauto.
  unfold process_workitem_exit.
  apply satisfies_bind. unfold satisfies at 1.
  pose proof (frame_row _ _ _ _ (frame_poll E wid jid w) Hs) as Hs1.
  assert (D1 : db (is_set E w).2 = db w) by done.
  destruct (is_set E w) as [[] w1]; simpl in Hs1, D1 |- *.
  { unfold satisfies. simpl. by rewrite D1. }
  apply satisfies_bind. unfold satisfies at 1. simpl.
  case_bool_decide as Hst.
  { unfold satisfies. simpl. by rewrite D1. }
  apply satisfies_bind. unfold satisfies at 1.
  pose proof (frame_row _ _ _ _
    (frame_status wid jid "in_progress" None w1) Hs1) as Hs2.
  destruct (write_at _ w1) as [[] w2]. simpl in Hs2 |- *.
  destruct (query_files_for_workitem E wid jid) as [e|[|f fs]].
  - apply satisfies_bind. by apply status_after_write.
  - apply satisfies_bind. by apply status_after_write.
  - apply satisfies_bind. unfold satisfies at 1.
    pose proof (frame_row _ _ _ _ (frame_poll E wid jid w2) Hs2) as Hs3.
    destruct (is_set E w2) as [[] w3]; simpl in Hs3 |- *.
    { apply satisfies_bind. by apply status_after_write. }
    apply satisfies_bind. unfold satisfies at 1.
    pose proof (frame_row _ _ _ _
      (frame_count wid jid (Z.of_nat (length (dedupe (f :: fs)))) w3) Hs3) as Hs4.
    destruct (write _ w3) as [[] w4]. simpl in Hs4 |- *.
    apply satisfies_bind. unfold satisfies at 1.
    pose proof (frame_row _ _ _ _
      (claim_loop_frame wid jid (dedupe (f :: fs)) [] w4) Hs4) as Hs5.
    destruct (claim_loop wid jid (dedupe (f :: fs)) [] w4) as [[|x l] w5];
      simpl in Hs5 |- *.
    + apply satisfies_bind. by apply status_after_write.
    + eapply satisfies_weaken; [by apply process_files_status_left|].
      intros e w' (st & Hsl & He). simpl. by rewrite Hsl.
Qed.
(** X13. The return statement a call leaves by fixes the stored status of a
    work item that has a row: the two returns before any write leave the row
    as it was, a failed resolution and failed files leave 'failed', the two
    shutdown returns leave 'pending', and the three remaining returns leave
    'completed'.  So a call that returns true leaves the item 'completed',
    and a call that returns false after its first poll leaves it 'failed' or
    'pending'. *)
Theorem exit_fixes_stored_status (E : Env) (wid jid : string) (w : World)
    (r : WorkItemRow) :
  workitems (db w) !! (wid, jid) = Some r ->
  match status_left (process_workitem_exit E wid jid w).1 with
  | None => workitems (db (process_workitem_exit E wid jid w).2) !! (wid, jid)
            = Some r
  | Some st =>
      StateTracker.get_workitem_status wid jid
        (db (process_workitem_exit E wid jid w).2) = Some st
  end /\
  ((process_workitem E wid jid w).1 = true ->
   StateTracker.get_workitem_status wid jid (db (process_workitem E wid jid w).2)
   = Some "completed") /\
  ((process_workitem E wid jid w).1 = false ->
   (process_workitem_exit E wid jid w).1 <> SkippedOnShutdown ->
   StateTracker.get_workitem_status wid jid (db (process_workitem E wid jid w).2)
   = Some "failed" \/
   StateTracker.get_workitem_status wid jid (db (process_workitem E wid jid w).2)
   = Some "pending").
Proof.
  intros Hr.
  pose proof (process_workitem_exit_status_left E wid jid w r Hr) as Hleft.
  pose proof (process_workitem_exit_true E wid jid w (ex_intro _ r Hr)) as Htrue.
  unfold satisfies in Hleft, Htrue. rewrite process_workitem_unfold. simpl.
  split; [exact Hleft|]. split; [exact Htrue|].
  destruct (process_workitem_exit E wid jid w).1; simpl in *;
    try discriminate; intros _ Hne; try done; auto.
Qed.

(** The run in which two of three transfers fail. *)
Lemma exit_fixes_stored_status_witness :
  match status_left (process_workitem_exit env_partial "w1" "j1" world_seeded).1 with
  | None =>
      workitems (db (process_workitem_exit env_partial "w1" "j1" world_seeded).2)
        !! ("w1", "j1") = Some (mkWorkItemRow "W1" "pending" 0 0 None None None)
  | Some st =>
      StateTracker.get_workitem_status "w1" "j1"
        (db (process_workitem_exit env_partial "w1" "j1" world_seeded).2) = Some st
  end /\
  ((process_workitem env_partial "w1" "j1" world_seeded).1 = true ->
   StateTracker.get_workitem_status "w1" "j1"
     (db (process_workitem env_partial "w1" "j1" world_seeded).2)
   = Some "completed") /\
  ((process_workitem env_partial "w1" "j1" world_seeded).1 = false ->
   (process_workitem_exit env_partial "w1" "j1" world_seeded).1
     <> SkippedOnShutdown ->
   StateTracker.get_workitem_status "w1" "j1"
     (db (process_workitem env_partial "w1" "j1" world_seeded).2)
   = Some "failed" \/
   StateTracker.get_workitem_status "w1" "j1"
     (db (process_workitem env_partial "w1" "j1" world_seeded).2)
   = Some "pending").
Proof.
  apply (exit_fixes_stored_status env_partial "w1" "j1" world_seeded
           (mkWorkItemRow "W1" "pending" 0 0 None None None)).
  vm_compute. reflexivity.
Defined.

Lemma process_completed_workitem E wid jid w :
  shutdown_event w = false ->
  sigint E (polls w) = false ->
  StateTracker.get_workitem_status wid jid (db w) = Some "completed" ->
  process_workitem_exit E wid jid w =
    (AlreadyCompleted, mkWorld (db w) (clock w) false (S (polls w))).
Proof.
  intros Hsd Hsig Hst. unfold process_workitem_exit, bind, is_set, read.
  rewrite Hsd, Hsig. simpl. by rewrite Hst.
Qed.

(** X14. Processing is idempotent on a finished work item: once a call has
    returned true for a work item that has a row, a later call on the
    resulting database (with the event clear, as in a resumed run) returns
    true again without writing anything, whatever the resolver or the
    transfers would now answer. *)
Theorem reprocessing_completed_is_noop (E E' : Env) (wid jid : string)
    (w : World) :
  is_Some (workitems (db w) !! (wid, jid)) ->
  (process_workitem E wid jid w).1 = true ->
  sigint E' 0%nat = false ->
  let w1 := restart (process_workitem E wid jid w).2 in
  process_workitem_exit E' wid jid w1 =
    (AlreadyCompleted, mkWorld (db w1) (clock w1) false 1) /\
  process_workitem E' wid jid w1 = (true, mkWorld (db w1) (clock w1) false 1).
Proof.
  intros Hs Htrue Hsig w1.
  pose proof (process_workitem_exit_true E wid jid w Hs) as Hc.
  unfold satisfies in Hc. rewrite process_workitem_unfold in Htrue. simpl in Htrue.
  specialize (Hc Htrue).
  assert (Hst : StateTracker.get_workitem_status wid jid (db w1) = Some "completed").
  { subst w1. rewrite process_workitem_unfold. exact Hc. }
  assert (He : process_workitem_exit E' wid jid w1 =
    (AlreadyCompleted, mkWorld (db w1) (clock w1) false 1)).
  { by apply (process_completed_workitem E' wid jid w1). }
  split; [exact He|]. by rewrite process_workitem_unfold, He.
Qed.

(** All three files are transferred; the resumed run would find the resolver
    down. *)
Lemma reprocessing_completed_is_noop_witness :
  process_workitem env_query_fails "w1" "j1"
    (restart (process_workitem env_resume "w1" "j1" world_seeded).2) =
  (true,
   mkWorld (db (restart (process_workitem env_resume "w1" "j1" world_seeded).2))
     (clock (restart (process_workitem env_resume "w1" "j1" world_seeded).2))
     false 1).
Proof.
  apply (reprocessing_completed_is_noop env_resume env_query_fails "w1" "j1"
           world_seeded).
  - vm_compute. eauto.
  - vm_compute. reflexivity.
  - reflexivity.
Defined.

(** * Further properties of the scheduler *)

Lemma schedule_cons E wid jid rest c w :
  schedule E ((wid, jid) :: rest) c w =
  let w1 := (process_workitem_exit E wid jid w).2 in
  if shutdown_event w1 || sigint E (polls w1)
  then (c, (is_set E w1).2)
  else schedule E rest
         (count (exit_value (process_workitem_exit E wid jid w).1) c)
         (is_set E w1).2.
Proof.
  cbn [schedule]. unfold bind. rewrite process_workitem_unfold.
  cbn [fst snd is_set].
  by destruct (shutdown_event _ || sigint E _).
Qed.

(** X15. The scheduler counts a result at most once and never as skipped:
    over any list of work items the counters of completed and failed grow
    together by at most the number of items, [skipped] stays as it was, and
    in a run without shutdown every item is counted, so the two grow by
    exactly that number. *)
Theorem schedule_counts_each_result (E : Env) (futures : list WorkItemKey)
    (c : Counters) (w : World) :
  let c' := (schedule E futures c w).1 in
  skipped c' = skipped c /\
  (completed c <= completed c')%nat /\ (failed c <= failed c')%nat /\
  (completed c' + failed c' <= completed c + failed c + length futures)%nat /\
  (no_sigint E -> shutdown_event w = false ->
   (completed c' + failed c' = completed c + failed c + length futures)%nat).
Proof.
  revert c w. induction futures as [|[wid jid] rest IH]; intros c w.
  { simpl. repeat split; lia. }
  cbv zeta. rewrite schedule_cons. cbv zeta.
  pose proof (process_workitem_exit_quiet E wid jid w) as Hq.
  destruct (process_workitem_exit E wid jid w) as [e w1]. simpl in *.
  destruct (shutdown_event w1 || sigint E (polls w1)) eqn:Hs.
  - simpl. repeat split; try lia. intros Hn Hsd.
    rewrite (Hq Hn Hsd), Hn in Hs. discriminate.
  - specialize (IH (count (exit_value e) c)
                  (mkWorld (db w1) (clock w1) false (S (polls w1)))).
    cbv zeta in IH. destruct IH as (H1 & H2 & H3 & H4 & H5).
    unfold count in *. destruct (exit_value e); simpl in *;
      repeat split; try lia; intros Hn Hsd; specialize (H5 Hn eq_refl); lia.
Qed.

(** X16. Once the event is set the scheduler starts nothing new: run on any
    list of work items from a world whose event is set, it writes nothing to
    the database and counts nothing. *)
Theorem schedule_after_shutdown_is_inert (E : Env) (futures : list WorkItemKey)
    (c : Counters) (w : World) :
  shutdown_event w = true ->
  (schedule E futures c w).1 = c /\
  db (schedule E futures c w).2 = db w /\
  clock (schedule E futures c w).2 = clock w.
Proof.
  intros Hsd. destruct futures as [|[wid jid] rest]; [done|].
  rewrite schedule_cons. cbv zeta. unfold process_workitem_exit, bind, is_set.
  rewrite Hsd. simpl. done.
Qed.

(** The scheduler is started after SIGINT. *)
Lemma schedule_after_shutdown_is_inert_witness :
  (schedule env_resume [("w1", "j1")] (mkCounters 0 0 0)
     (mkWorld (db world_seeded) 0 true 0)).1 = mkCounters 0 0 0 /\
  db (schedule env_resume [("w1", "j1")] (mkCounters 0 0 0)
        (mkWorld (db world_seeded) 0 true 0)).2 = db world_seeded /\
  clock (schedule env_resume [("w1", "j1")] (mkCounters 0 0 0)
           (mkWorld (db world_seeded) 0 true 0)).2 = 0%nat.
Proof.
  apply (schedule_after_shutdown_is_inert env_resume [("w1", "j1")]
           (mkCounters 0 0 0) (mkWorld (db world_seeded) 0 true 0)).
  reflexivity.
Defined.
Lemma main_zero_all_completed E w :
  no_sigint E -> shutdown_event w = false ->
  (forall l, workitems_as_completed E l ≡ₚ l) ->
  (main E w).1 = 0 ->
  forall k, k ∈ StateTracker.get_pending_workitems (db w) ->
    StateTracker.get_workitem_status k.1 k.2 (db (main E w).2) = Some "completed".
Proof.
  intros Hq Hsd Hperm. unfold main, bind, read. simpl.
  destruct (StateTracker.get_pending_workitems (db w)) as [|k0 l0] eqn:Hp.
  { intros _ k Hk. by apply elem_of_nil in Hk. }
  rewrite <- Hp. clear k0 l0 Hp.
  set (L := workitems_as_completed E (StateTracker.get_pending_workitems (db w))).
  pose proof (schedule_quiet_completed E L (mkCounters 0 0 0) w Hq Hsd) as Hall.
  destruct (schedule E L (mkCounters 0 0 0) w) as [c w'] eqn:Hs. simpl in *.
  destruct (0 <? failed c)%nat eqn:Hf; simpl; [done|]. intros _ k Hk.
  apply Nat.ltb_ge in Hf. apply Hall.
  - subst L. rewrite Hperm. apply NoDup_get_pending_workitems.
  - intros k'. subst L. rewrite Hperm. intros Hk'.
    apply elem_of_get_pending_workitems in Hk' as (r & -> & _). by eexists.
  - lia.
  - subst L. by rewrite Hperm.
Qed.

Lemma main_leaves_other_rows E w k :
  (forall l, workitems_as_completed E l ≡ₚ l) ->
  k ∉ StateTracker.get_pending_workitems (db w) ->
  workitems (db (main E w).2) !! k = workitems (db w) !! k.
Proof.
  intros Hperm Hnin. unfold main, bind, read. simpl.
  destruct (StateTracker.get_pending_workitems (db w)) as [|k0 l0] eqn:Hp; [done|].
  rewrite <- Hp in *. clear k0 l0 Hp.
  pose proof (schedule_others E
    (workitems_as_completed E (StateTracker.get_pending_workitems (db w)))
    (mkCounters 0 0 0) w k) as Ho.
  destruct (schedule E _ _ w) as [c w']. simpl in *.
  destruct (0 <? failed c)%nat; simpl; apply Ho; by rewrite Hperm.
Qed.

(** X17. A run that ends with exit status 0, no shutdown having been
    signalled, leaves no work item for a later run: the worklist read from
    the resulting database is empty, and a resumed run on it returns 0 at
    once and writes nothing, whatever the collaborators would now answer.
    The rows that were not on the worklist are as the run found them. *)
Theorem successful_run_leaves_nothing_pending (E E' : Env) (w : World) :
  no_sigint E ->
  shutdown_event w = false ->
  (forall l, workitems_as_completed E l ≡ₚ l) ->
  (main E w).1 = 0 ->
  StateTracker.get_pending_workitems (db (main E w).2) = [] /\
  main E' (restart (main E w).2) = (0, restart (main E w).2) /\
  (forall k, k ∉ StateTracker.get_pending_workitems (db w) ->
     workitems (db (main E w).2) !! k = workitems (db w) !! k).
Proof.
  intros Hq Hsd Hperm Hzero.
  assert (Hempty : StateTracker.get_pending_workitems (db (main E w).2) = []).
  { apply elem_of_nil_inv. intros k Hk.
    apply elem_of_get_pending_workitems in Hk as (r & Hr & Hp).
    destruct (decide (k ∈ StateTracker.get_pending_workitems (db w))) as [Hin|Hnin].
    - pose proof (main_zero_all_completed E w Hq Hsd Hperm Hzero k Hin) as Hc.
      unfold StateTracker.get_workitem_status in Hc. destruct k as [wid jid].
      simpl in Hc. rewrite Hr in Hc. injection Hc as Hc. by rewrite Hc in Hp.
    - apply Hnin, elem_of_get_pending_workitems. exists r. split; [|done].
      by rewrite <- (main_leaves_other_rows E w k Hperm Hnin). }
  split; [done|]. split.
  - unfold main at 1, bind, read. simpl. by rewrite Hempty.
  - intros k Hk. by apply main_leaves_other_rows.
Qed.

(** A run in which the three files of w1 are transferred. *)
Lemma successful_run_leaves_nothing_pending_witness :
  StateTracker.get_pending_workitems (db (main env_resume world_seeded).2) = [] /\
  main env_query_fails (restart (main env_resume world_seeded).2) =
    (0, restart (main env_resume world_seeded).2) /\
  (forall k, k ∉ StateTracker.get_pending_workitems (db world_seeded) ->
     workitems (db (main env_resume world_seeded).2) !! k =
     workitems (db world_seeded) !! k).
Proof.
  apply (successful_run_leaves_nothing_pending env_resume env_query_fails
           world_seeded).
  - intros n. reflexivity.
  - reflexivity.
  - intros l. reflexivity.
  - vm_compute. reflexivity.
Defined.
(** * Further properties of the claim loop and of the dispatch *)

Lemma get_file_status_eq wid jid fname d d' :
  files d' !! (wid, jid, fname) = files d !! (wid, jid, fname) ->
  StateTracker.get_file_status wid jid fname d' =
  StateTracker.get_file_status wid jid fname d.
Proof. unfold StateTracker.get_file_status. by intros ->. Qed.

Lemma will_claim_eq wid jid f d d' :
  files d' !! (wid, jid, filename f) = files d !! (wid, jid, filename f) ->
  will_claim wid jid d' f = will_claim wid jid d f.
Proof. unfold will_claim, StateTracker.get_file_status. by intros ->. Qed.

(** One round of the claim loop, on the database. *)
Lemma claim_round wid jid f rest acc w :
  exists acc' w1,
    claim_loop wid jid (f :: rest) acc w = claim_loop wid jid rest acc' w1 /\
    (forall k, k <> (wid, jid, filename f) ->
       files (db w1) !! k = files (db w) !! k) /\
    StateTracker.get_file_status wid jid (filename f) (db w1) =
      (if will_claim wid jid (db w) f then Some "in_progress"
       else StateTracker.get_file_status wid jid (filename f) (db w)).
Proof.
  rewrite claim_loop_cons. cbv zeta.
  unfold will_claim, StateTracker.get_file_status, StateTracker.add_file.
  destruct (files (db w) !! (wid, jid, filename f)) as [r|] eqn:Hr.
  - rewrite Hr. cbn [fmap option_fmap option_map].
    case_bool_decide as Hc.
    + injection Hc as Hc. eexists _, _. split; [reflexivity|]. simpl.
      rewrite Hr. simpl. rewrite Hc. split; [done|reflexivity].
    + unfold StateTracker.claim_file. rewrite Hr.
      destruct (String.eqb (fr_status r) "pending" || String.eqb (fr_status r) "failed")
        eqn:Ht; cbn [fst snd]; eexists _, _; (split; [reflexivity|]); simpl.
      * rewrite lookup_insert_eq. split; [|done].
        intros k Hk. by rewrite lookup_insert_ne.
      * by rewrite Hr.
  - cbn [files with_files]. rewrite lookup_insert_eq.
    cbn [fmap option_fmap option_map fr_status].
    rewrite bool_decide_eq_false_2 by discriminate.
    erewrite claim_file_hit;
      [|cbn [files with_files]; apply lookup_insert_eq|by left].
    cbn [fst snd]. eexists _, _. split; [reflexivity|]. simpl.
    rewrite lookup_insert_eq. split; [|done].
    intros k Hk. by rewrite !lookup_insert_ne.
Qed.

Lemma claim_loop_statuses wid jid fs acc w :
  NoDup (filename <$> fs) ->
  (forall f, f ∈ fs ->
     StateTracker.get_file_status wid jid (filename f)
       (db (claim_loop wid jid fs acc w).2) =
     (if will_claim wid jid (db w) f then Some "in_progress"
      else StateTracker.get_file_status wid jid (filename f) (db w))) /\
  (forall fname, fname ∉ filename <$> fs ->
     files (db (claim_loop wid jid fs acc w).2) !! (wid, jid, fname) =
     files (db w) !! (wid, jid, fname)).
Proof.
  revert acc w. induction fs as [|f rest IH]; intros acc w Hnd.
  { split; [|done]. intros f Hf. by apply elem_of_nil in Hf. }
  rewrite fmap_cons in Hnd. apply NoDup_cons in Hnd as [Hnin Hnd].
  destruct (claim_round wid jid f rest acc w) as (acc' & w1 & -> & Hother & Hown).
  destruct (IH acc' w1 Hnd) as [IH1 IH2]. split.
  - intros g Hg. apply elem_of_cons in Hg as [->|Hg].
    + rewrite (get_file_status_eq _ _ _ (db w1)) by (by apply IH2). exact Hown.
    + assert (Hne : (wid, jid, filename g) <> (wid, jid, filename f)).
      { intros [= Heq]. apply Hnin. rewrite <- Heq. by apply list_elem_of_fmap_2. }
      rewrite IH1 by done.
      rewrite (will_claim_eq _ _ _ (db w)) by (by apply Hother).
      by rewrite (get_file_status_eq _ _ _ (db w) (db w1)) by (by apply Hother).
  - intros fname Hn. rewrite fmap_cons in Hn.
    apply not_elem_of_cons in Hn as [Hne Hn].
    rewrite IH2 by done. apply Hother. congruence.
Qed.

(** X18. The claim loop over files with distinct names returns, in their
    order, exactly the files that had no row or a 'pending' or 'failed' row;
    afterwards each of them is stored 'in_progress' and every other file of
    the list keeps the status it had (a 'completed' file is never claimed, a
    file in progress elsewhere is never taken over); no other file row and no
    work-item row is written. *)
Theorem claim_loop_claims_what_is_claimable (wid jid : string)
    (fs : list FileMetadata) (w : World) :
  NoDup (filename <$> fs) ->
  (claim_loop wid jid fs [] w).1 =
    filter (fun f => will_claim wid jid (db w) f = true) fs /\
  (forall f, f ∈ fs ->
     StateTracker.get_file_status wid jid (filename f)
       (db (claim_loop wid jid fs [] w).2) =
     (if will_claim wid jid (db w) f then Some "in_progress"
      else StateTracker.get_file_status wid jid (filename f) (db w))) /\
  (forall fname, fname ∉ filename <$> fs ->
     files (db (claim_loop wid jid fs [] w).2) !! (wid, jid, fname) =
     files (db w) !! (wid, jid, fname)) /\
  workitems (db (claim_loop wid jid fs [] w).2) = workitems (db w).
Proof.
  intros Hnd.
  destruct (claim_loop_spec wid jid fs [] w (db w) Hnd (fun _ _ => eq_refl))
    as [H1 H2].
  destruct (claim_loop_statuses wid jid fs [] w Hnd) as [H3 H4].
  done.
Qed.

(** Three files: one new, one already 'completed', one in progress
    elsewhere. *)
Lemma claim_loop_claims_what_is_claimable_witness :
  (claim_loop "w1" "j1" sample_files [] world_after_cancelled_run).1 =
    filter (fun f => will_claim "w1" "j1" (db world_after_cancelled_run) f = true)
      sample_files.
Proof.
  apply (claim_loop_claims_what_is_claimable "w1" "j1" sample_files
           world_after_cancelled_run).
  apply (bool_decide_unpack (NoDup (filename <$> sample_files))).
  vm_compute. exact I.
Defined.



(** * Further properties of the de-duplication *)

Lemma dedupe_loop_count fs acc n :
  (length (dedupe_loop fs acc n).1 + (dedupe_loop fs acc n).2
   = length acc + n + length fs)%nat.
Proof.
  revert acc n. induction fs as [|f rest IH]; intros acc n; simpl; [lia|].
  destruct (key_in _ acc); rewrite IH; [lia|]. rewrite length_app. simpl. lia.
Qed.

Lemma dedupe_loop_distinct fs acc n :
  NoDup ((fun f => basename (filename f)) <$> fs) ->
  (forall f, f ∈ fs -> basename (filename f) ∉ acc.*1) ->
  (dedupe_loop fs acc n).1 =
    (acc ++ ((fun f => (basename (filename f), f)) <$> fs))%list /\
  (dedupe_loop fs acc n).2 = n.
Proof.
  revert acc n. induction fs as [|f rest IH]; intros acc n Hnd Hacc.
  { simpl. by rewrite app_nil_r. }
  rewrite fmap_cons in Hnd. apply NoDup_cons in Hnd as [Hnin Hnd]. simpl.
  destruct (key_in (basename (filename f)) acc) eqn:Hin.
  { apply key_in_true in Hin. by apply Hacc in Hin; [|left]. }
  destruct (IH (acc ++ [(basename (filename f), f)])%list n Hnd) as [H1 H2].
  - intros g Hg. rewrite fmap_app. simpl. intros Hin'.
    apply elem_of_app in Hin' as [Hin'|Hin'].
    + by apply (Hacc g); [right|].
    + apply list_elem_of_singleton in Hin'. apply Hnin. rewrite <- Hin'.
      by apply (list_elem_of_fmap_2 (fun f => basename (filename f))).
  - rewrite H1, H2, <- app_assoc. done.
Qed.

Lemma dedupe_distinct fs :
  NoDup ((fun f => basename (filename f)) <$> fs) -> dedupe fs = fs.
Proof.
  intros Hnd. unfold dedupe.
  destruct (dedupe_loop_distinct fs [] 0%nat Hnd) as [-> _].
  { intros f _ H. by apply elem_of_nil in H. }
  simpl. rewrite <- list_fmap_compose. by rewrite list_fmap_id.
Qed.

(** X20. The de-duplication loop drops nothing but duplicates and counts
    each one: the number of files kept plus [duplicate_count] is the number
    of resolved files; the files kept appear in the order they were
    resolved; a list whose base names are all different is kept whole;
    de-duplicating twice is de-duplicating once; and a list that is not
    empty stays not empty, its first file always being kept. *)
Theorem dedupe_drops_only_counted_duplicates (fs : list FileMetadata) :
  (length (dedupe fs) + (dedupe_loop fs [] 0%nat).2 = length fs)%nat /\
  dedupe fs `sublist_of` fs /\
  (NoDup ((fun f => basename (filename f)) <$> fs) -> dedupe fs = fs) /\
  dedupe (dedupe fs) = dedupe fs /\
  (forall f rest, fs = f :: rest -> exists rest', dedupe fs = f :: rest').
Proof.
  destruct (dedupe_by_basename fs) as (Hnd & Hsub & _ & _).
  split; [|split; [done|split; [apply dedupe_distinct|split]]].
  - pose proof (dedupe_loop_count fs [] 0%nat) as H. unfold dedupe.
    rewrite length_fmap. simpl in H. lia.
  - by apply dedupe_distinct.
  - intros f rest ->. unfold dedupe. simpl.
    destruct (dedupe_loop_inv rest [(basename (filename f), f)] 0%nat)
      as (extra & -> & _).
    + by apply Forall_singleton.
    + simpl. apply NoDup_singleton.
    + simpl. eauto.
Qed.

(** * Further properties of [basename] *)

Lemma has_slash_app a b : has_slash (a ++ b) = has_slash a || has_slash b.
Proof. induction a as [|c a IH]; simpl; [done|]. by rewrite IH, orb_assoc. Qed.

Lemma basename_no_slash p : has_slash p = false -> basename p = p.
Proof.
  destruct p as [|c p]; simpl; [done|].
  intros H. apply orb_false_iff in H as [Hc Hp]. by rewrite Hp, Hc.
Qed.

Lemma has_slash_basename p : has_slash (basename p) = false.
Proof.
  induction p as [|c p IH]; simpl; [done|].
  destruct (has_slash p) eqn:Hp; [done|].
  destruct (Ascii.eqb c "/") eqn:Hc; [done|]. simpl. by rewrite Hc, Hp.
Qed.

Lemma basename_append dir base :
  has_slash base = false -> basename (dir ++ "/" ++ base) = base.
Proof.
  intros Hb. induction dir as [|c dir IH]; simpl.
  - change ("" +:+ base) with base. by rewrite Hb.
  - rewrite has_slash_app. simpl. by rewrite orb_true_r.
Qed.

(** X21. The key of the de-duplication is the part of the file name after
    its last slash: it holds no slash, a name without a slash is its own key,
    the key of 'dir/base' is 'base' for every directory when 'base' holds no
    slash (so files of different directories with one base name share a key),
    and taking the key twice changes nothing. *)
Theorem basename_is_last_component (p dir base : string) :
  has_slash (basename p) = false /\
  (has_slash p = false -> basename p = p) /\
  (has_slash base = false -> basename (dir ++ "/" ++ base) = base) /\
  basename (basename p) = basename p.
Proof.
  split; [apply has_slash_basename|]. split; [apply basename_no_slash|].
  split; [apply basename_append|]. apply basename_no_slash, has_slash_basename.
Qed.

(** * Further properties of the partition assigner *)

Section PartitionEdges.

Variable hash : string -> Z.

(** X22. Outside its validated range the partition test degrades silently
    except for a zero modulus: with total_partitions = 0 it raises for every
    id; with a positive total and an index outside 0..total-1 no id belongs,
    so such an instance would load nothing; and with total_partitions = 1
    every id belongs to partition 0. *)
Theorem belongs_to_partition_outside_range (wid : string)
    (partition total_partitions : Z) (ids : list string) :
  belongs_to_partition hash wid partition 0 = None /\
  (0 < total_partitions ->
   ~ (0 <= partition < total_partitions) ->
   belongs_to_partition hash wid partition total_partitions = Some false /\
   partition_ids hash ids partition total_partitions = []) /\
  belongs_to_partition hash wid 0 1 = Some true /\
  partition_ids hash ids 0 1 = ids.
Proof.
  split; [done|]. split; [|split].
  - intros Hpos Hout.
    assert (Hall : forall x, belongs_to_partition hash x partition total_partitions
                             = Some false).
    { intros x. unfold belongs_to_partition.
      destruct (Z.eqb_spec total_partitions 0); [lia|]. f_equal.
      apply Z.eqb_neq. intros Heq.
      pose proof (Z.mod_pos_bound (hash x) total_partitions Hpos). lia. }
    split; [apply Hall|]. unfold partition_ids.
    apply elem_of_nil_inv. intros x Hx. apply list_elem_of_filter in Hx as [Hx _].
    rewrite Hall in Hx. discriminate.
  - unfold belongs_to_partition. simpl. by rewrite Z.mod_1_r.
  - unfold partition_ids. induction ids as [|x l IH]; [done|].
    rewrite filter_cons, IH. unfold belongs_to_partition. simpl.
    rewrite Z.mod_1_r. done.
Qed.

End PartitionEdges.
(** * The partition arguments and the loader *)

(** X23. The partition arguments pass the check of [main] exactly when both
    are absent, or both are given with 0 <= partition < total_partitions and
    total_partitions >= 2; the message about total_partitions is printed only
    for partition 0 of 1; and for arguments that pass, the partition test is
    defined for every id and hash. *)
Theorem check_partition_args_accepts (partition total_partitions : option Z) :
  (check_partition_args partition total_partitions = None <->
   (partition = None /\ total_partitions = None) \/
   (exists p t, partition = Some p /\ total_partitions = Some t /\
                0 <= p < t /\ 2 <= t)) /\
  (check_partition_args partition total_partitions =
     Some "Error: --total-partitions must be at least 2" <->
   partition = Some 0 /\ total_partitions = Some 1) /\
  (forall p t hash wid,
     check_partition_args partition total_partitions = None ->
     partition = Some p -> total_partitions = Some t ->
     belongs_to_partition hash wid p t <> None).
Proof.
  assert (Hmsg : forall t, ("Error: --partition must be between 0 and " ++ pretty (t - 1))%string
                           <> "Error: --total-partitions must be at least 2").
  { intros t. cbn [String.append]. intros [= ]. }
  assert (Hacc : check_partition_args partition total_partitions = None <->
   (partition = None /\ total_partitions = None) \/
   (exists p t, partition = Some p /\ total_partitions = Some t /\
                0 <= p < t /\ 2 <= t)).
  { unfold check_partition_args.
    destruct partition as [p|], total_partitions as [t|]; simpl.
    - destruct (Z.ltb_spec p 0), (Z.leb_spec t p), (Z.ltb_spec t 2); simpl;
        (split; [try discriminate; intros _; right; exists p, t; repeat split; lia
                |intros [[? ?]|(p' & t' & [= <-] & [= <-] & ? & ?)];
                 try discriminate; try lia; done]).
    - split; [discriminate|]. intros [[? ?]|(? & ? & ? & ? & _)]; discriminate.
    - split; [discriminate|]. intros [[? ?]|(? & ? & ? & ? & _)]; discriminate.
    - split; [by left|done]. }
  split; [exact Hacc|]. split.
  - unfold check_partition_args.
    destruct partition as [p|], total_partitions as [t|]; simpl;
      try (split; [discriminate|intros [? ?]; discriminate]).
    destruct (Z.ltb_spec p 0), (Z.leb_spec t p), (Z.ltb_spec t 2); simpl;
      (split; [intros Hm; try discriminate;
               try (injection Hm as Hm; by apply Hmsg in Hm);
               try (split; f_equal; lia)
              |intros [[= ->] [= ->]]; try lia; try done]).
  - intros p t hash wid Hok -> ->. apply Hacc in Hok as [[? _]|(p' & t' & [= <-] & [= <-] & ? & ?)];
      [discriminate|].
    unfold belongs_to_partition. destruct (Z.eqb_spec t 0); [lia|done].
Qed.
Section LoadProperties.

Variable hash : string -> Z.

Lemma load_rows_cons part tot row rest loaded sk d :
  load_rows hash part tot (row :: rest) loaded sk d =
  match row_workitem row with
  | None => load_rows hash part tot rest loaded sk d
  | Some item =>
      match part, tot with
      | Some p, Some t =>
          if t =? 0 then None
          else if in_partition hash part tot item
          then load_rows hash part tot rest (loaded ++ [item]) sk
                 (StateTracker.add_workitem item.1.1 item.1.2 item.2 d)
          else load_rows hash part tot rest loaded (S sk) d
      | _, _ =>
          load_rows hash part tot rest (loaded ++ [item]) sk
            (StateTracker.add_workitem item.1.1 item.1.2 item.2 d)
      end
  end.
Proof.
  cbn [load_rows]. unfold row_workitem.
  destruct (falsy _ || falsy _); [done|].
  destruct part as [p|], tot as [t|]; try done.
  unfold belongs_to_partition, in_partition. simpl.
  destruct (t =? 0); [done|]. by destruct (_ =? p).
Qed.

Lemma load_rows_spec part tot rows loaded sk d :
  (forall p, part = Some p -> tot <> Some 0) ->
  let items := omap row_workitem rows in
  load_rows hash part tot rows loaded sk d =
  Some ((loaded ++ filter (fun i => in_partition hash part tot i = true) items)%list,
        (sk + length (filter (fun i => in_partition hash part tot i = false) items))%nat,
        seed d (filter (fun i => in_partition hash part tot i = true) items)).
Proof.
  intros Hz. revert loaded sk d.
  induction rows as [|row rest IH]; intros loaded sk d.
  { simpl. by rewrite app_nil_r, Nat.add_0_r. }
  rewrite load_rows_cons. cbn [omap list_omap].
  destruct (row_workitem row) as [item|]; [|apply IH].
  rewrite !filter_cons.
  assert (Hkeep : load_rows hash part tot rest (loaded ++ [item]) sk
                    (StateTracker.add_workitem item.1.1 item.1.2 item.2 d) =
    Some ((loaded ++ item :: filter (fun i => in_partition hash part tot i = true)
                               (omap row_workitem rest))%list,
          (sk + length (filter (fun i => in_partition hash part tot i = false)
                          (omap row_workitem rest)))%nat,
          seed d (item :: filter (fun i => in_partition hash part tot i = true)
                            (omap row_workitem rest)))).
  { rewrite IH, <- app_assoc. done. }
  destruct part as [p|], tot as [t|]; cbn [in_partition] in *;
    try (rewrite decide_True by done; rewrite decide_False by done; exact Hkeep).
  destruct (Z.eqb_spec t 0) as [->|_]; [by destruct (Hz p eq_refl)|].
  destruct (hash item.1.1 mod t =? p) eqn:Hp.
  - rewrite decide_True by done. rewrite decide_False by done. exact Hkeep.
  - rewrite decide_False by done. rewrite decide_True by done.
    rewrite IH. simpl. by rewrite Nat.add_succ_r.
Qed.

Lemma seed_keeps d items :
  files (seed d items) = files d /\
  (forall k r, workitems d !! k = Some r -> workitems (seed d items) !! k = Some r) /\
  (forall i, i ∈ items -> is_Some (workitems (seed d items) !! (i.1.1, i.2))) /\
  (forall k r, workitems (seed d items) !! k = Some r ->
     workitems d !! k = Some r \/
     exists i, i ∈ items /\ k = (i.1.1, i.2) /\
       r = mkWorkItemRow i.1.2 "pending" 0 0 None None None).
Proof.
  revert d. induction items as [|[[wid wname] jid] rest IH]; intros d.
  { simpl. repeat split; auto. intros i Hi. by apply elem_of_nil in Hi. }
  simpl. destruct (IH (StateTracker.add_workitem wid wname jid d))
    as (H1 & H2 & H3 & H4).
  assert (Hadd : forall k r, workitems d !! k = Some r ->
            workitems (StateTracker.add_workitem wid wname jid d) !! k = Some r).
  { intros k r Hr. unfold StateTracker.add_workitem.
    destruct (workitems d !! (wid, jid)) eqn:Hw; [done|]. simpl.
    rewrite lookup_insert_ne; [done|]. intros <-. congruence. }
  split; [|split; [|split]].
  - rewrite H1. unfold StateTracker.add_workitem.
    by destruct (workitems d !! (wid, jid)).
  - intros k r Hr. by apply H2, Hadd.
  - intros i Hi. apply elem_of_cons in Hi as [->|Hi]; [|by apply H3].
    simpl. destruct (workitems d !! (wid, jid)) as [r|] eqn:Hw.
    + exists r. by apply H2, Hadd.
    + eexists. apply H2. unfold StateTracker.add_workitem. rewrite Hw.
      simpl. apply lookup_insert_eq.
  - intros k r Hr. destruct (H4 k r Hr) as [Hr'|(i & Hi & -> & ->)].
    + unfold StateTracker.add_workitem in Hr'.
      destruct (workitems d !! (wid, jid)) as [r0|] eqn:Hw; [by left|].
      simpl in Hr'. destruct (decide (k = (wid, jid))) as [->|Hk].
      * rewrite lookup_insert_eq in Hr'. injection Hr' as <-.
        right. exists (wid, wname, jid). split; [by left|done].
      * rewrite lookup_insert_ne in Hr' by done. by left.
    + right. exists i. split; [by right|done].
Qed.

Lemma row_workitem_nonempty row wid wname jid :
  row_workitem row = Some (wid, wname, jid) ->
  wid <> "" /\ wname <> "" /\ jid <> "".
Proof.
  unfold row_workitem.
  destruct (py_or (row !! "WorkItemId") (row !! "workitem_id")) as [[|c1 s1]|];
    simpl; try discriminate.
  destruct (py_or (row !! "JobId") (row !! "job_id")) as [[|c2 s2]|];
    simpl; try discriminate.
  destruct (py_or (row !! "WorkItemName") (row !! "workitem_name")) as [[|c3 s3]|];
    simpl; intros [= <- <- <-]; done.
Qed.

(** X24. Loading a CSV without partitioning never fails; it returns, in
    file order, one work item for every row that has a non-empty id and job
    id (in either spelling of the columns), named by the row's name or, when
    that is missing or empty, by its id; every returned work item has a row
    afterwards; a work item that was already stored keeps its row as it was,
    so loading again never resets progress; every new row is 'pending' with
    both counters 0; and the files table is not touched. *)
Theorem load_workitems_from_csv_seeds (rows : list CsvRow) (d : DB) :
  exists d',
    load_workitems_from_csv hash rows None None d =
      Some (omap row_workitem rows, d') /\
    (forall wid wname jid, (wid, wname, jid) ∈ omap row_workitem rows ->
       wid <> "" /\ wname <> "" /\ jid <> "" /\
       is_Some (workitems d' !! (wid, jid))) /\
    (forall k r, workitems d !! k = Some r -> workitems d' !! k = Some r) /\
    (forall k r, workitems d' !! k = Some r ->
       workitems d !! k = Some r \/
       exists wname, (k.1, wname, k.2) ∈ omap row_workitem rows /\
         r = mkWorkItemRow wname "pending" 0 0 None None None) /\
    files d' = files d.
Proof.
  exists (seed d (omap row_workitem rows)).
  pose proof (load_rows_spec None None rows [] 0%nat d) as Hspec.
  cbv zeta in Hspec. simpl in Hspec.
  assert (Hall : forall l : list (string * string * string),
            filter (fun _ => true = true) l = l).
  { induction l as [|x l IH]; [done|].
    rewrite filter_cons, decide_True by done. by rewrite IH. }
  rewrite Hall in Hspec.
  destruct (seed_keeps d (omap row_workitem rows)) as (H1 & H2 & H3 & H4).
  split; [|split; [|split; [done|split; [|done]]]].
  - unfold load_workitems_from_csv. rewrite Hspec; [done|discriminate].
  - intros wid wname jid Hin. pose proof (H3 _ Hin) as Hrow.
    apply list_elem_of_omap in Hin as (row & _ & Hrow').
    apply row_workitem_nonempty in Hrow'. tauto.
  - intros k r Hr. destruct (H4 k r Hr) as [?|([[wid wname] jid] & Hi & -> & ->)];
      [by left|]. right. by exists wname.
Qed.

End LoadProperties.

(** X25. Loading with validated partition arguments returns exactly the
    work items of the valid rows whose id, under the hash of the loading
    process, falls in this partition, in file order, and seeds no other.
    When the instances hash alike (one PYTHONHASHSEED), every valid row is
    returned for exactly one partition of 0..total-1; when no instance's
    hash puts a row at that instance's index, no instance returns it.  With
    total_partitions = 0 the load raises at the first valid row. *)
Theorem load_workitems_from_csv_partitions (hashes : Z -> string -> Z)
    (rows : list CsvRow) (t : Z) (d : DB) :
  2 <= t ->
  (forall p, exists d',
     load_workitems_from_csv (hashes p) rows (Some p) (Some t) d =
       Some (filter (fun i => hashes p i.1.1 mod t = p)
               (omap row_workitem rows), d') /\
     forall k r, workitems d' !! k = Some r ->
       workitems d !! k = Some r \/ hashes p k.1 mod t = p) /\
  (forall i, i ∈ omap row_workitem rows ->
     (forall q, hashes q i.1.1 = hashes 0 i.1.1) ->
     exists q, 0 <= q < t /\
       forall q' loaded d',
         load_workitems_from_csv (hashes q') rows (Some q') (Some t) d
           = Some (loaded, d') ->
         (i ∈ loaded <-> q' = q)) /\
  (forall i, i ∈ omap row_workitem rows ->
     (forall q, 0 <= q < t -> hashes q i.1.1 mod t <> q) ->
     forall q loaded d',
       load_workitems_from_csv (hashes q) rows (Some q) (Some t) d
         = Some (loaded, d') ->
       i ∉ loaded) /\
  (forall p i, i ∈ omap row_workitem rows ->
     load_workitems_from_csv (hashes p) rows (Some p) (Some 0) d = None).
Proof.
  intros Ht.
  assert (Hfilter : forall q (l : list (string * string * string)),
    filter (fun i => in_partition (hashes q) (Some q) (Some t) i = true) l =
    filter (fun i => hashes q i.1.1 mod t = q) l).
  { intros q l. induction l as [|x l IH]; [done|].
    rewrite !filter_cons, IH. simpl.
    destruct (Z.eqb_spec (hashes q x.1.1 mod t) q);
      [by rewrite !decide_True|by rewrite !decide_False]. }
  assert (Hload : forall q,
    load_workitems_from_csv (hashes q) rows (Some q) (Some t) d =
    Some (filter (fun i => hashes q i.1.1 mod t = q) (omap row_workitem rows),
          seed d (filter (fun i => hashes q i.1.1 mod t = q)
                    (omap row_workitem rows)))).
  { intros q. unfold load_workitems_from_csv.
    rewrite load_rows_spec by (intros ? _ [= ?]; lia). cbv zeta.
    by rewrite !Hfilter. }
  split; [|split; [|split]].
  - intros p. eexists. split; [apply Hload|]. intros k r Hr.
    destruct (seed_keeps d (filter (fun i => hashes p i.1.1 mod t = p)
                              (omap row_workitem rows))) as (_ & _ & _ & H4).
    destruct (H4 k r Hr) as [? | (i & Hi & -> & _)]; [by left|].
    apply list_elem_of_filter in Hi as [Hi _]. by right.
  - intros i Hi Hsame. exists (hashes 0 i.1.1 mod t). split.
    { apply Z.mod_pos_bound. lia. }
    intros q' loaded d' Hq'. rewrite Hload in Hq'. injection Hq' as <- _.
    rewrite list_elem_of_filter, Hsame.
    split; [intros [? _]; done|intros ->; done].
  - intros i Hi Hnone q loaded d' Hq. rewrite Hload in Hq. injection Hq as <- _.
    intros Hin. apply list_elem_of_filter in Hin as [Hin _].
    apply (Hnone q); [|done]. rewrite <- Hin. apply Z.mod_pos_bound. lia.
  - intros p i Hi. unfold load_workitems_from_csv.
    assert (Hnone : forall loaded sk d0,
      load_rows (hashes p) (Some p) (Some 0) rows loaded sk d0 = None).
    { clear Hload. induction rows as [|row rest IH]; intros loaded sk d0.
      { by apply elem_of_nil in Hi. }
      rewrite load_rows_cons. cbn [omap list_omap] in Hi.
      destruct (row_workitem row) as [item|]; [done|]. by apply IH. }
    by rewrite Hnone.
Qed.

(** The sample rows, loaded for partition 0 of 2 under [length_hash]. *)
Lemma load_workitems_from_csv_partitions_witness :
  exists d',
    load_workitems_from_csv length_hash sample_rows (Some 0) (Some 2) empty_db =
      Some (filter (fun i => length_hash i.1.1 mod 2 = 0)
              (omap row_workitem sample_rows), d') /\
    forall k r, workitems d' !! k = Some r ->
      workitems empty_db !! k = Some r \/ length_hash k.1 mod 2 = 0.
Proof.
  destruct (load_workitems_from_csv_partitions (fun _ => length_hash)
              sample_rows 2 empty_db) as [H _]; [lia|].
  exact (H 0).
Defined.
Lemma len_pretty_four_digits (r : Z) :
  1000 <= r <= 9999 -> FileReuploader.len (pretty r) = 4%nat.
Proof.
  intros Hr.
  assert (Hall : forallb (fun n => (FileReuploader.len (pretty (Z.of_nat n))
                                    =? 4)%nat)
                   (seq (Z.to_nat 1000) (Z.to_nat 9000)) = true)
    by (vm_compute; reflexivity).
  rewrite forallb_forall in Hall.
  specialize (Hall (Z.to_nat r)). rewrite Z2Nat.id in Hall by lia.
  apply Nat.eqb_eq, Hall, in_seq. lia.
Qed.

Lemma len_app (s1 s2 : string) :
  FileReuploader.len (s1 ++ s2) =
  (FileReuploader.len s1 + FileReuploader.len s2)%nat.
Proof.
  induction s1 as [|c s1 IH]; simpl; [done|].
  destruct (FileReuploader.is_continuation c); by rewrite IH.
Qed.

(** [len] counts code points, not bytes: U+00E9 is the two bytes C3 A9. *)
Example len_e_acute :
  FileReuploader.len
    (String (ascii_of_nat 195) (String (ascii_of_nat 169) "")) = 1%nat /\
  String.length
    (String (ascii_of_nat 195) (String (ascii_of_nat 169) "")) = 2%nat.
Proof. split; reflexivity. Qed.

Ltac in_calls H :=
  repeat (apply elem_of_cons in H as [H | H]; try discriminate);
  try (by apply elem_of_nil in H).

(** X26. A transfer succeeds exactly when the destination already exists,
    or the source could be downloaded and the upload did not raise anything
    but 'already exists'; it has a message exactly when it failed.  When the
    destination exists nothing is downloaded or uploaded.  Every upload and
    every queue message names the one destination; nothing is uploaded that
    was not downloaded from the file's source; a queue message is sent only
    for a blob this call uploaded itself, never for one that existed; and
    whether the message gets through changes neither the result nor the
    calls. *)
Theorem reupload_file_outcome (S : FileReuploader.Storage) (f : FileMetadata) :
  let name := FileReuploader.target_blob_name S f in
  let r := FileReuploader.reupload_file S f in
  (r.1.1 = true <->
     FileReuploader.blob_exists S name = Some true \/
     exists data,
       FileReuploader.download_blob S (source_uri f) = inr data /\
       FileReuploader.upload_blob S data name <> FileReuploader.UploadRaised) /\
  (r.1.2 = None <-> r.1.1 = true) /\
  (FileReuploader.blob_exists S name = Some true ->
     r.2 = [FileReuploader.Exists name]) /\
  (forall b data, FileReuploader.Upload b data ∈ r.2 ->
     b = name /\
     FileReuploader.blob_exists S name <> Some true /\
     FileReuploader.download_blob S (source_uri f) = inr data) /\
  (forall c b, FileReuploader.SendMessage c b ∈ r.2 ->
     c = FileReuploader.target_container S /\ b = name /\
     exists data,
       FileReuploader.Upload name data ∈ r.2 /\
       FileReuploader.upload_blob S data name = FileReuploader.Uploaded) /\
  (forall q q',
     FileReuploader.reupload_file
       (FileReuploader.mkStorage (FileReuploader.target_container S)
          (FileReuploader.blob_exists S) (FileReuploader.download_blob S)
          (FileReuploader.upload_blob S) (Some q) (FileReuploader.randint S)) f =
     FileReuploader.reupload_file
       (FileReuploader.mkStorage (FileReuploader.target_container S)
          (FileReuploader.blob_exists S) (FileReuploader.download_blob S)
          (FileReuploader.upload_blob S) (Some q') (FileReuploader.randint S)) f).
Proof.
  intros name r.
  assert (Hqueue : forall q q',
    FileReuploader.reupload_file
      (FileReuploader.mkStorage (FileReuploader.target_container S)
         (FileReuploader.blob_exists S) (FileReuploader.download_blob S)
         (FileReuploader.upload_blob S) (Some q) (FileReuploader.randint S)) f =
    FileReuploader.reupload_file
      (FileReuploader.mkStorage (FileReuploader.target_container S)
         (FileReuploader.blob_exists S) (FileReuploader.download_blob S)
         (FileReuploader.upload_blob S) (Some q') (FileReuploader.randint S)) f).
  { intros q q'.
    unfold FileReuploader.reupload_file, FileReuploader.check_blob_exists,
      FileReuploader._download_file, FileReuploader._upload_file.
    cbn [FileReuploader.target_container FileReuploader.blob_exists
      FileReuploader.download_blob FileReuploader.upload_blob
      FileReuploader.queue_client].
    change (FileReuploader.target_blob_name _ f) with name.
    destruct (FileReuploader.blob_exists S name) as [[|]|]; [done|..].
    all: destruct (FileReuploader.download_blob S (source_uri f))
           as [[ty msg]|data]; [done|].
    all: destruct (FileReuploader.upload_blob S data name); [|done..].
    all: by destruct (q _ _), (q' _ _). }
  revert Hqueue.
  generalize (forall q q' : string -> string -> bool,
    FileReuploader.reupload_file
      (FileReuploader.mkStorage (FileReuploader.target_container S)
         (FileReuploader.blob_exists S) (FileReuploader.download_blob S)
         (FileReuploader.upload_blob S) (Some q) (FileReuploader.randint S)) f =
    FileReuploader.reupload_file
      (FileReuploader.mkStorage (FileReuploader.target_container S)
         (FileReuploader.blob_exists S) (FileReuploader.download_blob S)
         (FileReuploader.upload_blob S) (Some q') (FileReuploader.randint S)) f).
  intros P HP. subst r.
  unfold FileReuploader.reupload_file, FileReuploader.check_blob_exists,
    FileReuploader._download_file, FileReuploader._upload_file.
  fold name.
  destruct (FileReuploader.blob_exists S name) as [[|]|] eqn:Hex.
  { cbn [fst snd app]. split_and!; try done;
      try (by split; [intros _; left|]); intros ? ? Hin; in_calls Hin. }
  all: destruct (FileReuploader.download_blob S (source_uri f))
         as [[ty msg]|data] eqn:Hdl.
  1, 3: cbn [fst snd app]; split_and!; try done;
    try (by split; [|intros [?|(data & ? & _)]]);
    intros ? ? Hin; in_calls Hin.
  all: destruct (FileReuploader.upload_blob S data name) eqn:Hup.
  all: destruct (FileReuploader.queue_client S) as [send|] eqn:Hq.
  all: try destruct (send (FileReuploader.target_container S) name).
  all: cbn [fst snd app]; split_and!; try done.
  all: try (by split; [intros _; right; exists data; rewrite Hup|]).
  all: try (by split; [|intros [?|(data' & [= <-] & Hne)]; [|rewrite Hup in Hne]]).
  all: try (intros b data' Hin; in_calls Hin; by injection Hin as -> ->).
  all: intros c b Hin; in_calls Hin; injection Hin as -> ->;
       split_and!; try done; exists data; split; [|done];
       apply list_elem_of_further, list_elem_of_further, list_elem_of_here.
Qed.

(** X27. The destination is the work item's name, a dash and the base name
    of the file whenever that has at most 1024 characters (code points).
    Otherwise it is the fallback name, which is 26 characters longer than the
    work item's name: it is within 1024 characters exactly when the work
    item's name has at most 998, so the destination of a work item with such
    a name is always within 1024 characters, and the fallback of one with a
    longer name is not. *)
Theorem target_blob_name_length (S : FileReuploader.Storage) (f : FileMetadata) :
  1000 <= FileReuploader.randint S <= 9999 ->
  ((FileReuploader.len (blob_name f) <= 1024)%nat ->
     FileReuploader.target_blob_name S f = blob_name f) /\
  ((1024 < FileReuploader.len (blob_name f))%nat ->
     FileReuploader.len (FileReuploader.target_blob_name S f) =
       (FileReuploader.len (workitem_name f) + 26)%nat /\
     ((FileReuploader.len (FileReuploader.target_blob_name S f) <= 1024)%nat <->
      (FileReuploader.len (workitem_name f) <= 998)%nat)) /\
  ((FileReuploader.len (workitem_name f) <= 998)%nat ->
     (FileReuploader.len (FileReuploader.target_blob_name S f) <= 1024)%nat).
Proof.
  intros Hr. pose proof (len_pretty_four_digits _ Hr) as H4.
  assert (Hfb : FileReuploader.len (workitem_name f ++ "-" ++
                  pretty (FileReuploader.randint S) ++ "-perf-lab-report.json")
                = (FileReuploader.len (workitem_name f) + 26)%nat).
  { rewrite !len_app, H4. simpl. lia. }
  assert (Hbn : (FileReuploader.len (workitem_name f)
                 <= FileReuploader.len (blob_name f))%nat).
  { unfold blob_name. rewrite !len_app. lia. }
  unfold FileReuploader.target_blob_name.
  destruct (Nat.ltb_spec 1024 (FileReuploader.len (blob_name f))) as [Hlong|Hshort].
  - rewrite Hfb. split_and!; intros; try split; lia.
  - split_and!; [done|lia|lia].
Qed.

(** A 1100-character file name under a short work item name, with 4242
    drawn. *)
Lemma target_blob_name_length_witness :
  FileReuploader.len (FileReuploader.target_blob_name storage_fresh file_long_name)
    = (FileReuploader.len (workitem_name file_long_name) + 26)%nat.
Proof.
  apply (target_blob_name_length storage_fresh file_long_name).
  - vm_compute. split; discriminate.
  - apply Nat.ltb_lt. vm_compute. reflexivity.
Defined.
Lemma elem_of_get_completed_workitems (d : DB) (wid : string) :
  wid ∈ FilterCompleted.get_completed_workitems d <->
  completed_under_some_job d wid.
Proof.
  unfold FilterCompleted.get_completed_workitems, completed_under_some_job.
  rewrite elem_of_list_to_set, list_elem_of_fmap. split.
  - intros ([[w j] r] & -> & Hin). apply list_elem_of_filter in Hin as [Hst Hin].
    apply elem_of_map_to_list in Hin. by exists j, r.
  - intros (jid & r & Hr & Hst). exists ((wid, jid), r). split; [done|].
    apply list_elem_of_filter. split; [done|]. by apply elem_of_map_to_list.
Qed.

Lemma filter_rows_spec (rows : list CsvRow) (c : gset string)
    (written : list CsvRow) (t f r : nat) :
  let keep := fun row : CsvRow =>
    FilterCompleted.id_in
      (py_or (row !! "WorkItemId") (row !! "workitem_id")) c = false in
  FilterCompleted.filter_rows rows c written t f r =
  ((written ++ filter keep rows)%list,
   ((t + length rows)%nat,
    (f + (length rows - length (filter keep rows)))%nat,
    (r + length (filter keep rows))%nat)).
Proof.
  intros keep. revert written t f r.
  induction rows as [|row rest IH]; intros written t f r.
  { simpl. by rewrite app_nil_r, !Nat.add_0_r. }
  cbn [FilterCompleted.filter_rows]. rewrite filter_cons.
  pose proof (length_filter keep rest) as Hle.
  destruct (decide (keep row)) as [Hk|Hk]; unfold keep in Hk.
  - rewrite Hk, IH, <- app_assoc. simpl. do 3 f_equal; [f_equal|]; lia.
  - apply not_false_iff_true in Hk.
    rewrite Hk, IH. simpl. do 3 f_equal; [f_equal|]; lia.
Qed.

Lemma row_workitem_id (row : CsvRow) (wid wname jid : string) :
  row_workitem row = Some (wid, wname, jid) ->
  py_or (row !! "WorkItemId") (row !! "workitem_id") = Some wid.
Proof.
  unfold row_workitem.
  destruct (py_or (row !! "WorkItemId") (row !! "workitem_id")) as [[|c1 s1]|];
    simpl; try discriminate.
  destruct (falsy _); [discriminate|]. by intros [= <- _ _].
Qed.

(** X28. The filter hands to the writer, in their order, exactly the rows
    whose work item id is not the id of a work item stored 'completed' under
    any job; the three counts are the number of rows read, dropped and
    written.  So a work item that the loader would read from the original
    file is read from the filtered one exactly when no work item with its id
    is completed under any job: a row whose own (id, job) is not completed
    is dropped when the same id is completed under another job. *)
Theorem filter_csv_drops_completed_ids (rows : list CsvRow) (d : DB) :
  let out := FilterCompleted.filter_csv rows
               (FilterCompleted.get_completed_workitems d) in
  let dropped := fun row : CsvRow =>
    exists wid, py_or (row !! "WorkItemId") (row !! "workitem_id") = Some wid /\
                completed_under_some_job d wid in
  out.1 `sublist_of` rows /\
  (forall row, row ∈ out.1 <-> row ∈ rows /\ ~ dropped row) /\
  out.2 = (length rows, (length rows - length out.1)%nat, length out.1) /\
  omap row_workitem out.1 `sublist_of` omap row_workitem rows /\
  (forall wid wname jid,
     (wid, wname, jid) ∈ omap row_workitem out.1 <->
     (wid, wname, jid) ∈ omap row_workitem rows /\
     ~ completed_under_some_job d wid).
Proof.
  intros out dropped. subst out. unfold FilterCompleted.filter_csv.
  rewrite filter_rows_spec. cbn [fst snd app Nat.add].
  set (keep := fun row : CsvRow =>
    FilterCompleted.id_in
      (py_or (row !! "WorkItemId") (row !! "workitem_id"))
      (FilterCompleted.get_completed_workitems d) = false).
  assert (Hkeep : forall row, keep row <-> ~ dropped row).
  { intros row. unfold keep, dropped, FilterCompleted.id_in.
    destruct (py_or _ _) as [s|].
    - rewrite bool_decide_eq_false, elem_of_get_completed_workitems. split.
      + intros Hn (wid & [= <-] & Hc). done.
      + intros Hn Hc. apply Hn. by exists s.
    - split; [|done]. by intros _ (wid & ? & _). }
  split_and!.
  - apply sublist_filter.
  - intros row. rewrite list_elem_of_filter, Hkeep. tauto.
  - done.
  - induction rows as [|row rest IH]; [done|].
    rewrite filter_cons. destruct (decide (keep row)); cbn [omap list_omap].
    + destruct (row_workitem row); [by apply sublist_skip|done].
    + destruct (row_workitem row); [by apply sublist_cons|done].
  - intros wid wname jid. rewrite !list_elem_of_omap. split.
    + intros (row & Hin & Hrow). apply list_elem_of_filter in Hin as [Hk Hin].
      split; [by exists row|]. intros Hc. apply Hkeep in Hk. apply Hk.
      exists wid. split; [|done]. by eapply row_workitem_id.
    + intros [(row & Hin & Hrow) Hn]. exists row. split; [|done].
      apply list_elem_of_filter. split; [|done]. apply Hkeep.
      intros (wid' & Hid & Hc). rewrite (row_workitem_id _ _ _ _ Hrow) in Hid.
      by injection Hid as <-.
Qed.

(** The first sample row, (w1, j1), is dropped although it is stored
    'pending': w1 is completed under job j0. *)
Example filter_csv_drops_row_of_other_job :
  StateTracker.get_workitem_status "w1" "j1" db_two_jobs = Some "pending" /\
  (FilterCompleted.filter_csv sample_rows
     (FilterCompleted.get_completed_workitems db_two_jobs)).2
  = (4, 1, 3)%nat.
Proof. split; vm_compute; reflexivity. Qed.
